(** * Investment report generator: model and verification

    A shallow embedding of [task.py]: the report store ([save_report],
    [load_reports]), the identifier ([generate_report_id]), the prompt
    builders ([get_portfolio_summary_prompt], [get_disclosures_prompt] and the
    two static templates) and the request handler ([index]).

    Conventions.
    - A Python [str] is a [string]; a character stands for the code point of
      the same number, so the texts of the model are those over U+0000..U+00FF.
    - Python values that travel through JSON or through [format] are [pyval].
    - Exceptions are values of [exn]; effectful code lives in the monad [M]
      over the [World] (the text generator, the store file, the event log). *)

From Stdlib Require Import ZArith Ascii String Floats.SpecFloat.
From stdpp Require Import gmap strings list fin_maps finite.

Set Warnings "-register-all".
Local Open Scope string_scope.

(* ===================================================================== *)
(** * Part I: the model                                                   *)
(* ===================================================================== *)

(** ** Characters and strings *)

Definition code (c : ascii) : nat := nat_of_ascii c.

(** [str.isspace] on one character, which is also the class [\s] of [re] for
    [str] patterns: U+0009..U+000D, U+001C..U+0020, U+0085 and U+00A0. *)
Definition isspace (c : ascii) : bool :=
  let n := code c in
  (((9 <=? n) && (n <=? 13)) || ((28 <=? n) && (n <=? 32))
   || (n =? 133) || (n =? 160))%nat.

Definition in_range (lo hi c : ascii) : bool :=
  ((code lo <=? code c) && (code c <=? code hi))%nat.

Definition isupper_az (c : ascii) : bool := in_range "A" "Z" c.
Definition islower_az (c : ascii) : bool := in_range "a" "z" c.

Definition nl : string := String "010" "".

Fixpoint lstrip (s : string) : string :=
  match s with
  | String c s' => if isspace c then lstrip s' else s
  | "" => ""
  end.

Fixpoint rstrip (s : string) : string :=
  match s with
  | "" => ""
  | String c s' =>
      match rstrip s' with
      | "" => if isspace c then "" else String c ""
      | t => String c t
      end
  end.

(** [s.strip()] *)
Definition strip (s : string) : string := rstrip (lstrip s).

(** [s[:n]] and [s[n:]] *)
Fixpoint str_take (n : nat) (s : string) : string :=
  match n, s with
  | S n', String c s' => String c (str_take n' s')
  | _, _ => ""
  end.

Fixpoint str_drop (n : nat) (s : string) : string :=
  match n, s with
  | S n', String _ s' => str_drop n' s'
  | _, _ => s
  end.

Fixpoint str_all (p : ascii -> bool) (s : string) : bool :=
  match s with
  | "" => true
  | String c s' => p c && str_all p s'
  end.

(** [s.startswith(p)] *)
Fixpoint startswith (p s : string) : bool :=
  match p, s with
  | "", _ => true
  | String a p', String b s' => if Ascii.eqb a b then startswith p' s' else false
  | String _ _, "" => false
  end.

(** [p in s] *)
Fixpoint contains (p s : string) : bool :=
  startswith p s ||
  match s with
  | "" => false
  | String _ s' => contains p s'
  end.

(** ** Regular expressions: the fragment of [re] the handler uses

    A backtracking matcher in continuation-passing style, with the order of
    attempts of [re]: a greedy star tries one more iteration before it tries
    the rest of the pattern, an alternation tries its branches from left to
    right, and [search] tries the start positions from left to right. *)

Inductive charset : Type :=
| CAny                      (* .  under re.DOTALL *)
| CChr (c : ascii)          (* a literal character *)
| CRng (lo hi : ascii)      (* [lo-hi] *)
| CSpc.                     (* \s *)

Definition in_set (cs : charset) (c : ascii) : bool :=
  match cs with
  | CAny => true
  | CChr a => Ascii.eqb a c
  | CRng lo hi => in_range lo hi c
  | CSpc => isspace c
  end.

Inductive regex : Type :=
| One (cs : charset)
| Eps
| Seq (r1 r2 : regex)
| Alt (r1 r2 : regex)
| Star (r : regex)
| Grp (i : nat) (r : regex).

Definition Plus (r : regex) : regex := Seq r (Star r).

(** A literal string, character by character. *)
Fixpoint Str (s : string) : regex :=
  match s with
  | "" => Eps
  | String c s' => Seq (One (CChr c)) (Str s')
  end.

(** Group number to (start, end) in the subject. *)
Abbreviation groups := (gmap nat (nat * nat)).

(** [exec r s pos g k]: match [r] at position [pos], where [s] is the rest of
    the subject from [pos] on; [k] is the rest of the pattern. *)
Fixpoint exec {R : Type} (r : regex) (s : string) (pos : nat) (g : groups)
    (k : string -> nat -> groups -> option R) : option R :=
  match r with
  | One cs =>
      match s with
      | String c s' => if in_set cs c then k s' (S pos) g else None
      | "" => None
      end
  | Eps => k s pos g
  | Seq r1 r2 => exec r1 s pos g (fun s' pos' g' => exec r2 s' pos' g' k)
  | Alt r1 r2 =>
      match exec r1 s pos g k with
      | Some x => Some x
      | None => exec r2 s pos g k
      end
  | Star r1 =>
      (fix loop (n : nat) (s : string) (pos : nat) (g : groups) {struct n}
         : option R :=
         match n with
         | 0 => k s pos g
         | S n' =>
             match exec r1 s pos g
                     (fun s' pos' g' =>
                        if (pos <? pos')%nat then loop n' s' pos' g' else None) with
             | Some x => Some x
             | None => k s pos g
             end
         end) (String.length s) s pos g
  | Grp i r1 =>
      exec r1 s pos g (fun s' pos' g' => k s' pos' (<[i := (pos, pos')]> g'))
  end.

(** The loop of a greedy star, as a function of its own. *)
Definition star_loop {R : Type} (r : regex)
    (k : string -> nat -> groups -> option R) :=
  fix loop (n : nat) (s : string) (pos : nat) (g : groups) {struct n} : option R :=
    match n with
    | 0 => k s pos g
    | S n' =>
        match exec r s pos g
                (fun s' pos' g' =>
                   if (pos <? pos')%nat then loop n' s' pos' g' else None) with
        | Some x => Some x
        | None => k s pos g
        end
    end.

(** A greedy star over one character class: the longest run first, then
    shorter and shorter ones. *)
Fixpoint greedy {R : Type} (cs : charset)
    (k : string -> nat -> groups -> option R)
    (s : string) (pos : nat) (g : groups) : option R :=
  match s with
  | String c s' =>
      if in_set cs c then
        match greedy cs k s' (S pos) g with
        | Some x => Some x
        | None => k s pos g
        end
      else k s pos g
  | "" => k s pos g
  end.

(** A match object: where the match starts and ends, and its groups. *)
Record rmatch : Type := RMatch { m_start : nat; m_end : nat; m_groups : groups }.

Fixpoint search_from (r : regex) (s : string) (pos : nat) : option rmatch :=
  match exec r s pos ∅ (fun _ e g => Some (RMatch pos e g)) with
  | Some m => Some m
  | None =>
      match s with
      | "" => None
      | String _ s' => search_from r s' (S pos)
      end
  end.

(** [re.search(r, text)] *)
Definition re_search (r : regex) (text : string) : option rmatch :=
  search_from r text 0.

(** [m.group(i)] for a group that took part in the match. *)
Definition group (text : string) (m : rmatch) (i : nat) : option string :=
  match m_groups m !! i with
  | Some (b, e) => Some (str_take (e - b) (str_drop b text))
  | None => None
  end.

(** The alternation of the pattern, group 2. *)
Definition marker_regex : regex :=
  Alt (Str "Instructions:")
      (Alt (Str "1.")
           (Seq (One (CRng "A" "Z"))
           (Seq (Plus (One (CRng "a" "z")))
           (Seq (Star (One CSpc)) (One (CChr ":")))))).

(** The pattern of line 194, compiled with [re.DOTALL] (written here with
    spaces between its parts):  ( .* ) ( Instructions: | 1\. | [A-Z][a-z]+\s*: ) *)
Definition summary_pattern : regex :=
  Seq (Grp 1 (Star (One CAny))) (Grp 2 marker_regex).

(** Lines 194-195 of [index]:
    [match.group(1).strip() if match else text.strip()]. *)
Definition extract_portfolio_summary (text : string) : string :=
  match re_search summary_pattern text with
  | Some m =>
      match group text m 1 with
      | Some g1 => strip g1
      | None => strip text
      end
  | None => strip text
  end.

(** ** Python values and exceptions *)

(** The values that [json.load] returns and that the handler builds:
    [None], [bool], [int], [float], [str], [list], and [dict] with [str] keys. *)
Inductive pyval : Type :=
| VNone
| VBool (b : bool)
| VInt (z : Z)
| VFloat (f : spec_float)
| VStr (s : string)
| VList (l : list pyval)
| VDict (d : gmap string pyval).

Abbreviation pydict := (gmap string pyval).

(** [bool(v)] *)
Definition truthy (v : pyval) : bool :=
  match v with
  | VNone => false
  | VBool b => b
  | VInt z => negb (z =? 0)%Z
  | VFloat f => match f with S754_zero _ => false | _ => true end
  | VStr s => negb (String.eqb s "")
  | VList l => match l with [] => false | _ => true end
  | VDict d => negb (bool_decide (d = ∅))
  end.

(** [v == s] for a [str] literal [s] *)
Definition eq_str (v : pyval) (s : string) : bool :=
  match v with
  | VStr t => String.eqb t s
  | _ => false
  end.

(** What [MultiDict.get] returns, as a value: the string, or [None]. *)
Definition of_opt (o : option string) : pyval :=
  match o with
  | Some s => VStr s
  | None => VNone
  end.

(** An exception: its class and what it carries, a message or, for
    [KeyError], the key that was not found. *)
Inductive exn : Type :=
| ValueError (msg : string)
| KeyError (key : string)
| TypeError (msg : string)
| OSError (msg : string)
| JSONDecodeError (msg : string)
| OtherError (cls msg : string).

(** [str(e)]; for a [KeyError] that is the [repr] of the key, here a field
    name, between single quotes. *)
Definition exn_str (e : exn) : string :=
  match e with
  | KeyError k => "'" +:+ k +:+ "'"
  | ValueError m | TypeError m | OSError m | JSONDecodeError m
  | OtherError _ m => m
  end.

Abbreviation result A := (exn + A)%type.

(** ** The collaborators that are not part of [task.py] *)

(** [json]: what [json.dump(v, f, indent=4)] writes and what [json.load(f)]
    makes of the contents of a file (a value, or the exception it raises).
    Loading what was dumped gives the value back. *)
Class JsonLib : Type := {
  text : Type;
  json_dump : pyval -> text;
  json_load : text -> result pyval;
  json_load_dump : forall v, json_load (json_dump v) = inr v
}.

(** [repr] of a value, as [format] and f-strings use it for what is not a
    [str]. *)
Class Builtins : Type := {
  py_repr : pyval -> string
}.

(** The text generator: from the prompt and its own state (model weights,
    sampling seed) to [generator(prompt, max_length=1000)[0]['generated_text']]
    or the exception raised on the way, and its next state. *)
Class Generator : Type := {
  gen_state : Type;
  generator : string -> gen_state -> result string * gen_state
}.

(** [str(v)] *)
Definition py_str `{Builtins} (v : pyval) : string :=
  match v with
  | VStr s => s
  | _ => py_repr v
  end.

(** ** SHA-256 ([hashlib.sha256]) on bytes, words as [Z] modulo 2^32 *)

Module Sha256.
Local Open Scope Z_scope.

Definition w32 (x : Z) : Z := x mod 2 ^ 32.
Definition add32 (x y : Z) : Z := w32 (x + y).
Definition rotr (n x : Z) : Z := w32 (Z.lor (Z.shiftr x n) (Z.shiftl x (32 - n))).
Definition shr (n x : Z) : Z := Z.shiftr x n.
Definition not32 (x : Z) : Z := Z.lxor x 0xffffffff.

Definition Ch (x y z : Z) : Z := Z.lxor (Z.land x y) (Z.land (not32 x) z).
Definition Maj (x y z : Z) : Z :=
  Z.lxor (Z.lxor (Z.land x y) (Z.land x z)) (Z.land y z).
Definition Sigma0 (x : Z) : Z := Z.lxor (Z.lxor (rotr 2 x) (rotr 13 x)) (rotr 22 x).
Definition Sigma1 (x : Z) : Z := Z.lxor (Z.lxor (rotr 6 x) (rotr 11 x)) (rotr 25 x).
Definition sigma0 (x : Z) : Z := Z.lxor (Z.lxor (rotr 7 x) (rotr 18 x)) (shr 3 x).
Definition sigma1 (x : Z) : Z := Z.lxor (Z.lxor (rotr 17 x) (rotr 19 x)) (shr 10 x).

(** The round constants and the initial state are the first 32 bits of the
    fractional parts of the cube roots of the first 64 primes, and of the
    square roots of the first 8. *)
Definition is_prime (n : nat) : bool :=
  forallb (fun d => negb (n mod d =? 0)%nat) (seq 2 (n - 2)).

Definition primes : list Z := map Z.of_nat (filter is_prime (seq 2 310)).

(** The integer cube root of [n], between [lo] and [hi], by bisection. *)
Fixpoint cbrt_between (fuel : nat) (lo hi n : Z) : Z :=
  match fuel with
  | O => lo
  | S fuel' =>
      let mid := (lo + hi) / 2 in
      if mid * mid * mid <=? n then cbrt_between fuel' mid hi n
      else cbrt_between fuel' lo mid n
  end.

Definition K : list Z :=
  map (fun p => w32 (cbrt_between 40 0 (2 ^ 35) (p * 2 ^ 96))) primes.

Definition H0 : list Z :=
  map (fun p => w32 (Z.sqrt (p * 2 ^ 64))) (firstn 8 primes).

(** Padding: a 1 bit, zeros up to 56 modulo 64 bytes, the bit length on 8
    bytes, big-endian. *)
Definition be_bytes (n : nat) (z : Z) : list Z :=
  map (fun i => (z / 2 ^ (8 * Z.of_nat i)) mod 256) (rev (seq 0 n)).

Definition pad (msg : list Z) : list Z :=
  let len := Z.of_nat (length msg) in
  let zeros := Z.to_nat ((55 - len) mod 64) in
  msg ++ [0x80] ++ repeat 0 zeros ++ be_bytes 8 (8 * len).

(** Big-endian words of a block of bytes. *)
Fixpoint words (bs : list Z) : list Z :=
  match bs with
  | b0 :: b1 :: b2 :: b3 :: bs' =>
      (((b0 * 256 + b1) * 256 + b2) * 256 + b3) :: words bs'
  | _ => []
  end.

(** The message schedule, newest word first: [ws] holds W(t-1), W(t-2), ... *)
Fixpoint schedule (n : nat) (ws : list Z) : list Z :=
  match n with
  | O => ws
  | S n' =>
      let w := add32 (add32 (sigma1 (nth 1 ws 0)) (nth 6 ws 0))
                     (add32 (sigma0 (nth 14 ws 0)) (nth 15 ws 0)) in
      schedule n' (w :: ws)
  end.

Definition round (st : list Z) (kw : Z * Z) : list Z :=
  match st with
  | [a; b; c; d; e; f; g; h] =>
      let t1 := add32 (add32 (add32 h (Sigma1 e)) (add32 (Ch e f g) (fst kw)))
                      (snd kw) in
      let t2 := add32 (Sigma0 a) (Maj a b c) in
      [add32 t1 t2; a; b; c; add32 d t1; e; f; g]
  | _ => st
  end.

Fixpoint add_words (xs ys : list Z) : list Z :=
  match xs, ys with
  | x :: xs', y :: ys' => add32 x y :: add_words xs' ys'
  | _, _ => []
  end.

Definition compress (h : list Z) (block : list Z) : list Z :=
  let w := rev (schedule 48 (rev (words block))) in
  add_words h (fold_left round (combine K w) h).

(** The blocks of 64 bytes, one after the other. *)
Fixpoint blocks (n : nat) (h : list Z) (bs : list Z) : list Z :=
  match n with
  | O => h
  | S n' => blocks n' (compress h (firstn 64 bs)) (skipn 64 bs)
  end.

Definition digest_words (msg : list Z) : list Z :=
  let p := pad msg in
  blocks (length p / 64) H0 p.

(** The digest as one number below 2^256. *)
Definition digest (msg : list Z) : Z :=
  fold_left (fun acc w => acc * 2 ^ 32 + w) (digest_words msg) 0.

End Sha256.

Definition hex_digit (d : Z) : ascii :=
  match String.get (Z.to_nat d) "0123456789abcdef" with
  | Some c => c
  | None => "0"%char
  end.

(** [n] hexadecimal digits of [z], most significant first. *)
Fixpoint hex_of (n : nat) (z : Z) : string :=
  match n with
  | O => ""
  | S n' => hex_of n' (z / 16) +:+ String (hex_digit (z mod 16)) ""
  end.

(** [s.encode()]: UTF-8, one byte below U+0080 and two bytes from there to
    U+00FF. The characters from U+0100 on, which take up to four bytes, are
    not among the texts of the model. *)
Fixpoint encode (s : string) : list Z :=
  match s with
  | "" => []
  | String c s' =>
      let n := Z.of_nat (code c) in
      if (n <? 128)%Z then n :: encode s'
      else (192 + n / 64)%Z :: (128 + n mod 64)%Z :: encode s'
  end.

(** A word of the digest. *)
Definition word_ok (w : Z) : Prop := (0 <= w < 2 ^ 32)%Z.

(** The value of a hexadecimal digit. *)
Definition hex_val (c : ascii) : Z :=
  let n := Z.of_nat (code c) in
  if (n <? 58)%Z then (n - 48)%Z else (n - 87)%Z.

(** The text of [n] letters a. *)
Fixpoint repeat_a (n : nat) : string :=
  match n with
  | O => ""
  | S n' => String "a" (repeat_a n')
  end.

(** [hashlib.sha256(b).hexdigest()] *)
Definition sha256_hexdigest (b : list Z) : string := hex_of 64 (Sha256.digest b).

(** Lines 19-20. *)
Definition generate_report_id (report_text : string) : string :=
  sha256_hexdigest (encode report_text).

(** ** Prompt templates (lines 56-150) *)

Record PromptTemplate : Type := {
  input_variables : list string;
  template : string
}.

(** Every line followed by a newline. *)
Definition unlines (ls : list string) : string :=
  fold_right (fun l acc => l +:+ nl +:+ acc) "" ls.

Definition risk_note_conservative : string :=
  "Given the client's conservative risk tolerance, the focus is on capital preservation and low-risk investments.".
Definition risk_note_aggressive : string :=
  "Given the client's aggressive risk tolerance, the focus is on high-growth investments with higher risk.".
Definition risk_note_moderate : string :=
  "Given the client's moderate risk tolerance, the portfolio is balanced between growth and stability.".

(** Lines 58-65: [client_profile.get("risk_tolerance", "moderate")] and the
    choice of the note. *)
Definition risk_note_of (client_profile : pydict) : string :=
  let risk_tolerance := default (VStr "moderate") (client_profile !! "risk_tolerance") in
  if eq_str risk_tolerance "conservative" then risk_note_conservative
  else if eq_str risk_tolerance "aggressive" then risk_note_aggressive
  else risk_note_moderate.

(** The text of the f-string of lines 73-92, once [risk_note] is put in and
    the doubled braces have become single ones. *)
Definition portfolio_summary_text (risk_note : string) : string :=
  unlines
    [ "";
      "Provide a detailed portfolio performance summary for {date_range}.";
      "";
      "Portfolio Name: {portfolio_name}";
      "Client Profile: {client_profile}";
      "Benchmark: {benchmark}";
      "Asset Allocation: {asset_allocation}";
      "Net Return: {return_net} (Benchmark Return: {return_benchmark})";
      "Risk Metrics: {risk_metrics}";
      "Top Holdings: {top_holdings}";
      "Underperforming Holdings: {underperforming_holdings}";
      "";
      risk_note;
      "";
      "Instructions:";
      "- Clearly state how the portfolio performed relative to the benchmark.";
      "- Identify key risk metrics and their impact on performance.";
      "- Summarize the top-performing and underperforming assets.";
      "- Provide a professional financial report summary." ].

Definition get_portfolio_summary_prompt (client_profile : pydict) : PromptTemplate :=
  {| input_variables :=
       [ "portfolio_name"; "client_profile"; "benchmark"; "asset_allocation";
         "return_net"; "return_benchmark"; "risk_metrics"; "top_holdings";
         "underperforming_holdings"; "date_range" ];
     template := portfolio_summary_text (risk_note_of client_profile) |}.

Definition client_insights_prompt : PromptTemplate :=
  {| input_variables :=
       [ "client_profile"; "portfolio_summary"; "risk_metrics"; "market_outlook" ];
     template :=
       unlines
         [ "";
           "Client Profile: {client_profile}";
           "Portfolio Summary: {portfolio_summary}";
           "Risk Metrics: {risk_metrics}";
           "Market Outlook: {market_outlook}";
           "";
           "Instructions:";
           "- Analyze the client's profile and portfolio performance.";
           "- Provide insights tailored to the client's risk tolerance and investment goals.";
           "- Highlight any significant risks or opportunities based on the market outlook.";
           "- Avoid repeating information from the portfolio summary." ] |}.

Definition recommendations_prompt : PromptTemplate :=
  {| input_variables :=
       [ "client_profile"; "portfolio_summary"; "risk_metrics"; "market_outlook" ];
     template :=
       unlines
         [ "";
           "Client Profile: {client_profile}";
           "Portfolio Summary: {portfolio_summary}";
           "Risk Metrics: {risk_metrics}";
           "Market Outlook: {market_outlook}";
           "";
           "Instructions:";
           "- Provide actionable recommendations based on the client's profile and portfolio performance.";
           "- Suggest adjustments to the portfolio if necessary.";
           "- Include a forward-looking outlook based on the market conditions.";
           "- Be specific and avoid generic advice." ] |}.

Definition compliance_note_us : string :=
  "This report complies with SEC regulations, including disclosures on risk and performance.".
Definition compliance_note_eu : string :=
  "This report complies with MiFID II regulations, including disclosures on costs, risks, and performance.".
Definition compliance_note_generic : string :=
  "This report includes standard risk and performance disclosures.".

(** Lines 131-136. *)
Definition compliance_note_of (region : pyval) : string :=
  if eq_str region "US" then compliance_note_us
  else if eq_str region "EU" then compliance_note_eu
  else compliance_note_generic.

(** The text of the f-string of lines 140-149. *)
Definition disclosures_text (compliance_note : string) : string :=
  unlines
    [ "";
      "Client Profile: {client_profile}";
      "Investment Products: {investment_products}";
      "Risk Metrics: {risk_metrics}";
      "";
      "Instructions:";
      "1. Provide standard risk disclosures. Be specific about the risks, including those related to the risk metrics.";
      "2. " +:+ compliance_note;
      "3. Avoid including outdated or irrelevant information." ].

Definition get_disclosures_prompt (region : pyval) : PromptTemplate :=
  {| input_variables := [ "client_profile"; "investment_products"; "risk_metrics" ];
     template := disclosures_text (compliance_note_of region) |}.

(** [PromptTemplate.format] on keyword arguments [kwargs], for the f-string
    template format. The templates
    of this program hold plain fields [{name}] only, so a field is read up to
    its closing brace and looked up by name; a doubled brace is a literal
    one. A name that [kwargs] lacks raises [KeyError]; keys of [kwargs] that
    the template does not use are ignored. [field] is the name read so far
    when the scan is inside a field. *)
Fixpoint format_scan `{Builtins} (kwargs : pydict) (t : string)
    (field : option string) : result string :=
  match t with
  | "" =>
      match field with
      | None => inr ""
      | Some _ => inl (ValueError "expected '}' before end of string")
      end
  | String c t' =>
      match field with
      | Some name =>
          if Ascii.eqb c "}" then
            match kwargs !! name with
            | Some v =>
                match format_scan kwargs t' None with
                | inr out => inr (py_str v +:+ out)
                | inl e => inl e
                end
            | None => inl (KeyError name)
            end
          else format_scan kwargs t' (Some (name +:+ String c ""))
      | None =>
          if Ascii.eqb c "{" then
            match t' with
            | String "{" t'' =>
                match format_scan kwargs t'' None with
                | inr out => inr (String "{" out)
                | inl e => inl e
                end
            | _ => format_scan kwargs t' (Some "")
            end
          else if Ascii.eqb c "}" then
            match t' with
            | String "}" t'' =>
                match format_scan kwargs t'' None with
                | inr out => inr (String "}" out)
                | inl e => inl e
                end
            | _ => inl (ValueError "Single '}' encountered in format string")
            end
          else
            match format_scan kwargs t' None with
            | inr out => inr (String c out)
            | inl e => inl e
            end
      end
  end.

Definition format `{Builtins} (p : PromptTemplate) (kwargs : pydict) : result string :=
  format_scan kwargs (template p) None.

(** The field names of a template, in the order [format] meets them;
    [None] when the braces do not pair up. *)
Fixpoint fields_scan (t : string) (field : option string) : option (list string) :=
  match t with
  | "" =>
      match field with
      | None => Some []
      | Some _ => None
      end
  | String c t' =>
      match field with
      | Some name =>
          if Ascii.eqb c "}" then cons name <$> fields_scan t' None
          else fields_scan t' (Some (name +:+ String c ""))
      | None =>
          if Ascii.eqb c "{" then
            match t' with
            | String "{" t'' => fields_scan t'' None
            | _ => fields_scan t' (Some "")
            end
          else if Ascii.eqb c "}" then
            match t' with
            | String "}" t'' => fields_scan t'' None
            | _ => None
            end
          else fields_scan t' None
      end
  end.

Definition template_fields (p : PromptTemplate) : option (list string) :=
  fields_scan (template p) None.



(** Text without braces goes through [format] unchanged, and a field is
    replaced by the text of its value. *)
Definition no_brace (s : string) : bool :=
  str_all (fun c => negb (Ascii.eqb c "{") && negb (Ascii.eqb c "}")) s.

(** A field [{name}] followed by [rest]. *)
Definition placeholder (name rest : string) : string :=
  String "{" (name +:+ String "}" rest).

(** The fixed text that ends the prompts. *)
Definition insights_instructions : string :=
  unlines
    [ "";
      "";
      "Instructions:";
      "- Analyze the client's profile and portfolio performance.";
      "- Provide insights tailored to the client's risk tolerance and investment goals.";
      "- Highlight any significant risks or opportunities based on the market outlook.";
      "- Avoid repeating information from the portfolio summary." ].

Definition recommendations_instructions : string :=
  unlines
    [ "";
      "";
      "Instructions:";
      "- Provide actionable recommendations based on the client's profile and portfolio performance.";
      "- Suggest adjustments to the portfolio if necessary.";
      "- Include a forward-looking outlook based on the market conditions.";
      "- Be specific and avoid generic advice." ].

(** The text of the two prompts between their first line and their
    instructions. *)
Definition rendered_context (profile summary metrics outlook : string) : string :=
  nl +:+ "Client Profile: " +:+ profile +:+
  nl +:+ "Portfolio Summary: " +:+ summary +:+
  nl +:+ "Risk Metrics: " +:+ metrics +:+
  nl +:+ "Market Outlook: " +:+ outlook.

Definition summary_instructions : string :=
  unlines
    [ "";
      "Instructions:";
      "- Clearly state how the portfolio performed relative to the benchmark.";
      "- Identify key risk metrics and their impact on performance.";
      "- Summarize the top-performing and underperforming assets.";
      "- Provide a professional financial report summary." ].

Definition disclosures_head : string :=
  unlines
    [ "";
      "Instructions:";
      "1. Provide standard risk disclosures. Be specific about the risks, including those related to the risk metrics." ]
  +:+ "2. ".

Definition disclosures_tail : string :=
  unlines [ "3. Avoid including outdated or irrelevant information." ].

(** ** Reports *)

(** The dictionary [report_data] of lines 214-221. *)
Record report_data : Type := {
  report_id : string;
  portfolio_summary : string;
  client_insights : string;
  recommendations : string;
  disclosures : string;
  input_data : pydict
}.

(** [report_data] as the value that goes into the store. *)
Definition report_value (rd : report_data) : pyval :=
  VDict (list_to_map
    [ ("report_id", VStr (report_id rd));
      ("portfolio_summary", VStr (portfolio_summary rd));
      ("client_insights", VStr (client_insights rd));
      ("recommendations", VStr (recommendations rd));
      ("disclosures", VStr (disclosures rd));
      ("input_data", VDict (input_data rd)) ]).

(** Line 210: the four sections, newline-separated. *)
Definition report_text (summary insights recs discl : string) : string :=
  summary +:+ nl +:+ insights +:+ nl +:+ recs +:+ nl +:+ discl.

Inductive event : Type :=
| EGenerate (prompt : string) (outcome : result string)
                                    (* a call of [generator] and how it ended *)
| ESaveReport (rd : report_data)    (* a call of [save_report] *)
| EPrint (line : string).           (* a line on standard output *)

(** ** The world and the monad of effects *)

Section Model.
Context `{JsonLib} `{Builtins} `{Generator}.

(** What the program acts on: the text generator, the file
    [investment_reports.json] (absent, or present with its contents), the
    exception that opening that file raises if the operating system refuses
    it, and the log of what happened. *)
Record World : Type := {
  gen : gen_state;
  file : option text;
  open_error : option exn;
  events : list event
}.

Definition set_gen (g : gen_state) (w : World) : World :=
  {| gen := g; file := file w; open_error := open_error w; events := events w |}.
Definition set_file (f : option text) (w : World) : World :=
  {| gen := gen w; file := f; open_error := open_error w; events := events w |}.
Definition add_event (e : event) (w : World) : World :=
  {| gen := gen w; file := file w; open_error := open_error w;
     events := events w ++ [e] |}.

(** A computation returns a value or raises, and changes the world. *)
Definition M (A : Type) : Type := World -> result A * World.

Definition ret {A} (a : A) : M A := fun w => (inr a, w).
Definition raise {A} (e : exn) : M A := fun w => (inl e, w).
Definition bind {A B} (m : M A) (k : A -> M B) : M B :=
  fun w =>
    match m w with
    | (inr a, w') => k a w'
    | (inl e, w') => (inl e, w')
    end.
(** [try: body except Exception as e: handler(e)]. The values of [exn]
    stand for exceptions under [Exception]; what Python raises outside that
    class ([KeyboardInterrupt], [SystemExit]) passes through the [except] of
    the source and is not modelled. *)
Definition try_except {A} (body : M A) (handler : exn -> M A) : M A :=
  fun w =>
    match body w with
    | (inr a, w') => (inr a, w')
    | (inl e, w') => handler e w'
    end.
Definition lift {A} (r : result A) : M A := fun w => (r, w).
Definition log (e : event) : M unit := fun w => (inr tt, add_event e w).
Definition print (line : string) : M unit := log (EPrint line).

Notation "x <- m ;; k" := (bind m (fun x => k))
  (at level 100, m at next level, right associativity).
Notation "m ;;; k" := (bind m (fun _ => k))
  (at level 100, right associativity).

(** ** The report store (lines 15-54) *)

(** [os.path.exists(REPORTS_FILE)] *)
Definition path_exists : M bool := fun w => (inr (bool_decide (is_Some (file w))), w).

(** [with open(REPORTS_FILE, "r") as f: json.load(f)] *)
Definition read_json : M pyval :=
  fun w =>
    match open_error w with
    | Some e => (inl e, w)
    | None =>
        match file w with
        | Some t => (json_load t, w)
        | None => (inl (OSError "No such file or directory"), w)
        end
    end.

(** [with open(REPORTS_FILE, "w") as f: json.dump(v, f, indent=4)]. The
    write is one step of the model: [open] is refused for writing when it is
    for reading, and once the file is open the dump goes through. A dump that
    fails after [open] has emptied the file is not modelled. *)
Definition write_json (v : pyval) : M unit :=
  fun w =>
    match open_error w with
    | Some e => (inl e, w)
    | None => (inr tt, set_file (Some (json_dump v)) w)
    end.

(** [container[key] = v], which only a [dict] takes for a [str] key. *)
Definition setitem (container : pyval) (key : string) (v : pyval) : result pyval :=
  match container with
  | VDict d => inr (VDict (<[key := v]> d))
  | VList _ => inl (TypeError "list indices must be integers or slices, not str")
  | _ => inl (TypeError "object does not support item assignment")
  end.

Definition save_report (rd : report_data) : M unit :=
  log (ESaveReport rd) ;;;
  try_except
    ( ex <- path_exists ;;
      reports <- (if ex : bool then read_json else ret (VDict ∅)) ;;
      let report_id := report_id rd in
      reports <- lift (setitem reports report_id (report_value rd)) ;;
      write_json reports ;;;
      print ("Report saved successfully with ID: " +:+ report_id) )
    (fun e =>
       print ("Error saving report: " +:+ exn_str e) ;;;
       raise e).

Definition load_reports : M pyval :=
  try_except
    ( ex <- path_exists ;;
      if ex : bool then read_json else ret (VDict ∅) )
    (fun e =>
       print ("Error loading reports: " +:+ exn_str e) ;;;
       ret (VDict ∅)).

(** ** The request handler (lines 154-240) *)

Inductive http_method : Type := GET | POST.

(** [generator(prompt, max_length=1000)[0]['generated_text']] *)
Definition generate (prompt : string) : M string :=
  fun w =>
    let (r, g) := generator prompt (gen w) in
    (r, set_gen g (add_event (EGenerate prompt r) w)).

(** Lines 164-168. *)
Definition build_client_profile (data : gmap string string) : pydict :=
  list_to_map
    [ ("name", of_opt (data !! "client_name"));
      ("risk_tolerance", VStr (default "moderate" (data !! "risk_tolerance")));
      ("investment_goals", of_opt (data !! "investment_goals")) ].

(** Lines 162-180. *)
Definition build_input_data (data : gmap string string) : pydict :=
  list_to_map
    [ ("portfolio_name", of_opt (data !! "portfolio_name"));
      ("client_profile", VDict (build_client_profile data));
      ("benchmark", of_opt (data !! "benchmark"));
      ("asset_allocation", of_opt (data !! "asset_allocation"));
      ("return_net", of_opt (data !! "return_net"));
      ("return_benchmark", of_opt (data !! "return_benchmark"));
      ("risk_metrics", of_opt (data !! "risk_metrics"));
      ("top_holdings", of_opt (data !! "top_holdings"));
      ("underperforming_holdings", of_opt (data !! "underperforming_holdings"));
      ("investment_products", of_opt (data !! "investment_products"));
      ("market_outlook", of_opt (data !! "market_outlook"));
      ("date_range", of_opt (data !! "date_range"));
      ("region", VStr (default "US" (data !! "region"))) ].

(** [d[key]] *)
Definition getitem (d : pydict) (key : string) : result pyval :=
  match d !! key with
  | Some v => inr v
  | None => inl (KeyError key)
  end.

Definition missing_fields_message : string :=
  "Missing required fields: portfolio_name, client_name, or date_range.".

(** Lines 161-221 up to the call of [save_report]: everything in the [try]
    block that runs while [report_id] is still [None], and the dictionary
    [report_data] it ends with. *)
Definition build_report (data : gmap string string) : M report_data :=
  let client_profile := build_client_profile data in
  let input_data := build_input_data data in
  print ("Input Data: " +:+ py_repr (VDict input_data)) ;;;
  portfolio_name <- lift (getitem input_data "portfolio_name") ;;
  client_name <- lift (getitem client_profile "name") ;;
  date_range <- lift (getitem input_data "date_range") ;;
  (if forallb truthy [portfolio_name; client_name; date_range]
   then ret tt else raise (ValueError missing_fields_message)) ;;;
  let portfolio_summary_prompt := get_portfolio_summary_prompt client_profile in
  prompt <- lift (format portfolio_summary_prompt input_data) ;;
  portfolio_summary_text <- generate prompt ;;
  let portfolio_summary := extract_portfolio_summary portfolio_summary_text in
  let input_data := <["portfolio_summary" := VStr portfolio_summary]> input_data in
  prompt <- lift (format client_insights_prompt input_data) ;;
  client_insights <- generate prompt ;;
  prompt <- lift (format recommendations_prompt input_data) ;;
  recommendations <- generate prompt ;;
  region <- lift (getitem input_data "region") ;;
  let disclosures_prompt := get_disclosures_prompt region in
  prompt <- lift (format disclosures_prompt input_data) ;;
  disclosures <- generate prompt ;;
  let report_text := report_text portfolio_summary client_insights recommendations disclosures in
  let report_id := generate_report_id report_text in
  ret {| report_id := report_id;
         portfolio_summary := portfolio_summary;
         client_insights := client_insights;
         recommendations := recommendations;
         disclosures := disclosures;
         input_data := input_data |}.

(** Lines 225-236. *)
Definition report_html (rd : report_data) : string :=
  let field k := py_str (default VNone (input_data rd !! k)) in
  unlines
    [ "";
      "            <h2>Investment Report - " +:+ field "portfolio_name" +:+ " - "
        +:+ field "date_range" +:+ "</h2>";
      "            <h3>Report ID: " +:+ report_id rd +:+ "</h3>";
      "            <h3>Portfolio Performance Summary</h3>";
      "            <pre>" +:+ portfolio_summary rd +:+ "</pre>";
      "            <h3>Client-Specific Insights</h3>";
      "            <pre>" +:+ client_insights rd +:+ "</pre>";
      "            <h3>Recommendations and Outlook</h3>";
      "            <pre>" +:+ recommendations rd +:+ "</pre>";
      "            <h3>Compliance Disclosures</h3>";
      "            <pre>" +:+ disclosures rd +:+ "</pre>" ]
  +:+ "            ".

(** Line 238. *)
Definition error_html (e : exn) : string :=
  "<p style='color:red;'>Error generating report: " +:+ exn_str e +:+ "</p>".

(** What [index] hands to [render_template]. *)
Record response : Type := {
  report : option string;
  shown_report_id : option string
}.

(** [index], up to the values it hands to [render_template]; that call
    (line 240, outside the [try]) is not modelled. The one [try] block of the
    source is split where [report_id] is
    assigned (line 211): an exception before that leaves [report_id] at
    [None], an exception from [save_report] finds it set. *)
Definition index (method : http_method) (data : gmap string string) : M response :=
  match method with
  | GET => ret {| report := None; shown_report_id := None |}
  | POST =>
      try_except
        ( rd <- build_report data ;;
          try_except
            ( save_report rd ;;;
              ret {| report := Some (report_html rd);
                     shown_report_id := Some (report_id rd) |} )
            (fun e =>
               ret {| report := Some (error_html e);
                      shown_report_id := Some (report_id rd) |}) )
        (fun e =>
           ret {| report := Some (error_html e); shown_report_id := None |})
  end.

(** ** What a request leaves behind, for stating the properties *)

(** The mapping the store holds: the empty one when the file is absent, the
    one its contents parse to when they do. *)
Definition stored_mapping (w : World) : option pydict :=
  match file w with
  | None => Some ∅
  | Some t =>
      match json_load t with
      | inr (VDict d) => Some d
      | _ => None
      end
  end.

(** The events of [w'] that came after those of [w]. *)
Definition new_events (w w' : World) : list event :=
  drop (length (events w)) (events w').

(** The three required fields are there and not empty (line 186). *)
Definition required_present (data : gmap string string) : bool :=
  forallb truthy
    [ of_opt (data !! "portfolio_name"); of_opt (data !! "client_name");
      of_opt (data !! "date_range") ].

(** The world after the handler has printed its input (line 183). *)
Definition after_print (data : gmap string string) (w : World) : World :=
  add_event (EPrint ("Input Data: " +:+ py_repr (VDict (build_input_data data)))) w.

(** The world after a call of the generator on prompt [p] that ended with
    [r] and left the generator in state [g]. *)
Definition after_generate (p : string) (r : result string) (g : gen_state)
    (w : World) : World :=
  set_gen g (add_event (EGenerate p r) w).

(** The input mapping once the summary is stored in it (line 197). *)
Definition with_summary (data : gmap string string) (summary : string) : pydict :=
  <["portfolio_summary" := VStr summary]> (build_input_data data).

End Model.

Arguments World {_ _}.
Arguments M {_ _} A.


(** ** Boundary markers, for stating what the extraction returns *)

Fixpoint str_dropwhile (p : ascii -> bool) (s : string) : string :=
  match s with
  | String c s' => if p c then str_dropwhile p s' else s
  | "" => ""
  end.

Fixpoint str_takewhile (p : ascii -> bool) (s : string) : string :=
  match s with
  | String c s' => if p c then String c (str_takewhile p s') else ""
  | "" => ""
  end.

(** The last character. *)
Fixpoint str_last (s : string) : option ascii :=
  match s with
  | "" => None
  | String c "" => Some c
  | String _ s' => str_last s'
  end.

(** The third alternative of the pattern at the head of [s]: one of A..Z,
    then one or more of a..z, then any whitespace, then a colon. *)
Definition cap_word_colon (s : string) : bool :=
  match s with
  | String c (String d s') =>
      isupper_az c && islower_az d
      && startswith ":" (str_dropwhile isspace (str_dropwhile islower_az s'))
  | _ => false
  end.

(** One of the three alternatives of the pattern matches at the head of [s]. *)
Definition marker_at (s : string) : bool :=
  startswith "Instructions:" s || startswith "1." s || cap_word_colon s.

(** The last position of the text at which a marker starts, counting the
    head of [s] as position [pos]. *)
Fixpoint last_marker_from (s : string) (pos : nat) : option nat :=
  match s with
  | "" => None
  | String _ s' =>
      match last_marker_from s' (S pos) with
      | Some p => Some p
      | None => if marker_at s then Some pos else None
      end
  end.

Definition last_marker (text : string) : option nat := last_marker_from text 0.

(** The extraction as the specification words it: the text before the FIRST
    boundary marker, where a marker is "Instructions:", "1." or a capitalized
    word immediately followed by a colon. *)
Definition claimed_marker_at (s : string) : bool :=
  startswith "Instructions:" s || startswith "1." s ||
  match s with
  | String c s' => isupper_az c && startswith ":" (str_dropwhile islower_az s')
  | "" => false
  end.

Fixpoint claimed_first_marker_from (s : string) (pos : nat) : option nat :=
  if claimed_marker_at s then Some pos
  else match s with
       | "" => None
       | String _ s' => claimed_first_marker_from s' (S pos)
       end.

Definition claimed_portfolio_summary (text : string) : string :=
  match claimed_first_marker_from text 0 with
  | Some p => strip (str_take p text)
  | None => strip text
  end.

(** ** Continuations that succeed exactly on a set of rests

    [decides st b k ok]: at every rest [s] of the subject, the continuation
    [k] gives a match that starts at [st] and whose group 2 starts at [b]
    when [ok s] holds, and fails otherwise; it leaves the other groups as it
    finds them. *)
Definition decides (st b : nat) (k : string -> nat -> groups -> option rmatch)
    (ok : string -> bool) : Prop :=
  forall s p g,
    if ok s then exists e, k s p g = Some (RMatch st e (<[2 := (b, e)]> g))
    else k s p g = None.

(** ** An instance of the collaborators, to run the model on concrete requests *)

(** The contents of a file taken as the value they parse to. *)
Definition plain_json : JsonLib :=
  {| text := pyval;
     json_dump := fun v => v;
     json_load := fun t => inr t;
     json_load_dump := fun v => eq_refl |}.

Definition plain_builtins : Builtins :=
  {| py_repr := fun v =>
       match v with
       | VNone => "None"
       | VBool true => "True"
       | VBool false => "False"
       | _ => "<object>"
       end |}.

(** A generator that plays a script: one outcome per call, whatever the
    prompt; its state is what is left of the script. *)
Definition scripted_generator : Generator :=
  {| gen_state := list (result string);
     generator := fun _ script =>
       match script with
       | r :: script' => (r, script')
       | [] => (inl (OtherError "RuntimeError" "the script is over"), [])
       end |}.

Definition initial_world (script : list (result string)) (f : option pyval)
  : @World plain_json scripted_generator :=
  {| gen := script : @gen_state scripted_generator;
     file := f : option (@text plain_json);
     open_error := None; events := [] |}.

Definition sample_form : gmap string string :=
  list_to_map
    [ ("portfolio_name", "Growth Fund"); ("client_name", "Ada");
      ("date_range", "Q1 2024"); ("risk_tolerance", "aggressive");
      ("region", "EU") ].

Definition sample_report : report_data :=
  {| report_id := "r1"; portfolio_summary := "S"; client_insights := "I";
     recommendations := "R"; disclosures := "D"; input_data := ∅ |}.

(** ** Sample requests *)

Definition form_without_date_range : gmap string string :=
  list_to_map [ ("portfolio_name", "Growth Fund"); ("client_name", "Ada") ].

(** The generator answers twice and raises on the third call. *)
Definition failing_third_call : list (result string) :=
  [ inr "Summary here. Instructions: x"; inr "Insights";
    inl (OtherError "RuntimeError" "out of memory") ].

(** The first answer starts with a marker and has no other. *)
Definition empty_summary_script : list (result string) :=
  [ inr "Instructions: do X"; inr "Insights"; inr "Advice"; inr "Risks" ].

(** The portfolio-summary prompt of [sample_form], rendered. *)
Definition sample_summary_prompt : string :=
  match @format plain_builtins
          (get_portfolio_summary_prompt (build_client_profile sample_form))
          (build_input_data sample_form) with
  | inr p => p
  | inl _ => ""
  end.

(** ** The runs of a POST request, for stating the properties *)

(** The calls of the generator among some events, in order: the prompt and
    how the call ended. *)
Fixpoint generate_calls (evs : list event) : list (string * result string) :=
  match evs with
  | [] => []
  | EGenerate p r :: evs' => (p, r) :: generate_calls evs'
  | _ :: evs' => generate_calls evs'
  end.

(** The reports handed to [save_report] among some events, in order. *)
Fixpoint saved_reports (evs : list event) : list report_data :=
  match evs with
  | [] => []
  | ESaveReport rd :: evs' => rd :: saved_reports evs'
  | _ :: evs' => saved_reports evs'
  end.

Section Runs.
Context `{JsonLib} `{Builtins} `{Generator}.

(** The page for an exception raised before [report_id] is set. *)
Definition error_page (e : exn) : response :=
  {| report := Some (error_html e); shown_report_id := None |}.

(** The report the handler builds from the four generated texts. *)
Definition built_report (data : gmap string string) (t1 t2 t3 t4 : string)
  : report_data :=
  let s := extract_portfolio_summary t1 in
  {| report_id := generate_report_id (report_text s t2 t3 t4);
     portfolio_summary := s;
     client_insights := t2;
     recommendations := t3;
     disclosures := t4;
     input_data := with_summary data s |}.

(** The four prompts of a request; the last three depend on the summary
    extracted from the first generated text. *)
Definition summary_prompt_of (data : gmap string string) : result string :=
  format (get_portfolio_summary_prompt (build_client_profile data))
    (build_input_data data).
Definition insights_prompt_of (data : gmap string string) (t1 : string)
  : result string :=
  format client_insights_prompt (with_summary data (extract_portfolio_summary t1)).
Definition recommendations_prompt_of (data : gmap string string) (t1 : string)
  : result string :=
  format recommendations_prompt (with_summary data (extract_portfolio_summary t1)).
Definition disclosures_prompt_of (data : gmap string string) (t1 : string)
  : result string :=
  format (get_disclosures_prompt (VStr (default "US" (data !! "region"))))
    (with_summary data (extract_portfolio_summary t1)).

(** How a POST request can go: what [index] answers and the world it
    leaves, by the point at which the request stops. *)
Inductive post_run (data : gmap string string) (w : World)
  : response -> World -> Prop :=
| run_invalid :
    required_present data = false ->
    post_run data w (error_page (ValueError missing_fields_message))
      (after_print data w)
| run_failed_1 p1 e g1 :
    required_present data = true ->
    summary_prompt_of data = inr p1 ->
    generator p1 (gen w) = (inl e, g1) ->
    post_run data w (error_page e)
      (after_generate p1 (inl e) g1 (after_print data w))
| run_failed_2 p1 t1 g1 p2 e g2 :
    required_present data = true ->
    summary_prompt_of data = inr p1 ->
    generator p1 (gen w) = (inr t1, g1) ->
    insights_prompt_of data t1 = inr p2 ->
    generator p2 g1 = (inl e, g2) ->
    post_run data w (error_page e)
      (after_generate p2 (inl e) g2
         (after_generate p1 (inr t1) g1 (after_print data w)))
| run_failed_3 p1 t1 g1 p2 t2 g2 p3 e g3 :
    required_present data = true ->
    summary_prompt_of data = inr p1 ->
    generator p1 (gen w) = (inr t1, g1) ->
    insights_prompt_of data t1 = inr p2 ->
    generator p2 g1 = (inr t2, g2) ->
    recommendations_prompt_of data t1 = inr p3 ->
    generator p3 g2 = (inl e, g3) ->
    post_run data w (error_page e)
      (after_generate p3 (inl e) g3
         (after_generate p2 (inr t2) g2
            (after_generate p1 (inr t1) g1 (after_print data w))))
| run_failed_4 p1 t1 g1 p2 t2 g2 p3 t3 g3 p4 e g4 :
    required_present data = true ->
    summary_prompt_of data = inr p1 ->
    generator p1 (gen w) = (inr t1, g1) ->
    insights_prompt_of data t1 = inr p2 ->
    generator p2 g1 = (inr t2, g2) ->
    recommendations_prompt_of data t1 = inr p3 ->
    generator p3 g2 = (inr t3, g3) ->
    disclosures_prompt_of data t1 = inr p4 ->
    generator p4 g3 = (inl e, g4) ->
    post_run data w (error_page e)
      (after_generate p4 (inl e) g4
         (after_generate p3 (inr t3) g3
            (after_generate p2 (inr t2) g2
               (after_generate p1 (inr t1) g1 (after_print data w)))))
| run_generated p1 t1 g1 p2 t2 g2 p3 t3 g3 p4 t4 g4 :
    required_present data = true ->
    summary_prompt_of data = inr p1 ->
    generator p1 (gen w) = (inr t1, g1) ->
    insights_prompt_of data t1 = inr p2 ->
    generator p2 g1 = (inr t2, g2) ->
    recommendations_prompt_of data t1 = inr p3 ->
    generator p3 g2 = (inr t3, g3) ->
    disclosures_prompt_of data t1 = inr p4 ->
    generator p4 g3 = (inr t4, g4) ->
    let rd := built_report data t1 t2 t3 t4 in
    let w4 :=
      after_generate p4 (inr t4) g4
        (after_generate p3 (inr t3) g3
           (after_generate p2 (inr t2) g2
              (after_generate p1 (inr t1) g1 (after_print data w)))) in
    post_run data w
      match fst (save_report rd w4) with
      | inr _ => {| report := Some (report_html rd);
                    shown_report_id := Some (report_id rd) |}
      | inl e => {| report := Some (error_html e);
                    shown_report_id := Some (report_id rd) |}
      end
      (snd (save_report rd w4)).

(** The calls of the generator a POST request can make, with the reports
    it can hand to [save_report]: a call is made only after the calls before
    it have returned, and [save_report] only after the four have. *)
Inductive request_calls (data : gmap string string)
  : list (string * result string) -> list report_data -> Prop :=
| calls_none :
    required_present data = false ->
    request_calls data [] []
| calls_failed_1 p1 e :
    required_present data = true ->
    summary_prompt_of data = inr p1 ->
    request_calls data [(p1, inl e)] []
| calls_failed_2 p1 t1 p2 e :
    required_present data = true ->
    summary_prompt_of data = inr p1 ->
    insights_prompt_of data t1 = inr p2 ->
    request_calls data [(p1, inr t1); (p2, inl e)] []
| calls_failed_3 p1 t1 p2 t2 p3 e :
    required_present data = true ->
    summary_prompt_of data = inr p1 ->
    insights_prompt_of data t1 = inr p2 ->
    recommendations_prompt_of data t1 = inr p3 ->
    request_calls data [(p1, inr t1); (p2, inr t2); (p3, inl e)] []
| calls_failed_4 p1 t1 p2 t2 p3 t3 p4 e :
    required_present data = true ->
    summary_prompt_of data = inr p1 ->
    insights_prompt_of data t1 = inr p2 ->
    recommendations_prompt_of data t1 = inr p3 ->
    disclosures_prompt_of data t1 = inr p4 ->
    request_calls data
      [(p1, inr t1); (p2, inr t2); (p3, inr t3); (p4, inl e)] []
| calls_generated p1 t1 p2 t2 p3 t3 p4 t4 :
    required_present data = true ->
    summary_prompt_of data = inr p1 ->
    insights_prompt_of data t1 = inr p2 ->
    recommendations_prompt_of data t1 = inr p3 ->
    disclosures_prompt_of data t1 = inr p4 ->
    request_calls data
      [(p1, inr t1); (p2, inr t2); (p3, inr t3); (p4, inr t4)]
      [built_report data t1 t2 t3 t4].

End Runs.

(** The first of the names [fs] that [kwargs] lacks. *)
Fixpoint first_missing (kwargs : pydict) (fs : list string) : option string :=
  match fs with
  | [] => None
  | n :: fs' =>
      match kwargs !! n with
      | Some _ => first_missing kwargs fs'
      | None => Some n
      end
  end.

(** A digit of [hexdigest]: 0..9 or a..f. *)
Definition is_hex_digit (c : ascii) : bool :=
  in_range "0" "9" c || in_range "a" "f" c.

(** Every entry of a stored mapping is a report filed under its own
    identifier. *)
Definition filed_under_own_id (d : pydict) : Prop :=
  forall k v, d !! k = Some v ->
    exists entry, v = VDict entry /\ entry !! "report_id" = Some (VStr k).

(** The fields of the form that the handler reads (lines 163-179). *)
Definition form_fields : list string :=
  [ "portfolio_name"; "client_name"; "risk_tolerance"; "investment_goals";
    "benchmark"; "asset_allocation"; "return_net"; "return_benchmark";
    "risk_metrics"; "top_holdings"; "underperforming_holdings";
    "investment_products"; "market_outlook"; "date_range"; "region" ].

(** ** More sample requests *)

(** A generator that answers every prompt, with the prompt itself. *)
Definition echo_generator : Generator :=
  {| gen_state := unit;
     generator := fun prompt _ => (inr prompt, tt) |}.

Definition echo_world : @World plain_json echo_generator :=
  {| gen := tt : @gen_state echo_generator;
     file := None : option (@text plain_json);
     open_error := None; events := [] |}.

(** The report of [sample_form] when the generator plays
    [empty_summary_script]. *)
Definition scripted_report : report_data :=
  built_report sample_form "Instructions: do X" "Insights" "Advice" "Risks".

(** Another report under the identifier of [sample_report], and one under
    an identifier of its own. *)
Definition revised_report : report_data :=
  {| report_id := "r1"; portfolio_summary := "S2"; client_insights := "I2";
     recommendations := "R2"; disclosures := "D2"; input_data := ∅ |}.

Definition other_report : report_data :=
  {| report_id := "r2"; portfolio_summary := "S"; client_insights := "I";
     recommendations := "R"; disclosures := "D"; input_data := ∅ |}.

(** ** The rendered prompts, part by part *)

(** A text without a newline. *)
Definition no_newline (s : string) : bool :=
  str_all (fun c => negb (Ascii.eqb c "010")) s.

(** The part of the rendered portfolio-summary prompt that shows the
    fields: from its first character to the end of the last field. What
    follows it is an empty line, the risk sentence and the instructions. *)
Definition summary_fields_text `{Builtins} (kwargs : pydict) : string :=
  let field k := py_str (default VNone (kwargs !! k)) in
  (nl +:+ "Provide a detailed portfolio performance summary for ") +:+
    field "date_range" +:+
  ("." +:+ nl +:+ nl +:+ "Portfolio Name: ") +:+ field "portfolio_name" +:+
  (nl +:+ "Client Profile: ") +:+ field "client_profile" +:+
  (nl +:+ "Benchmark: ") +:+ field "benchmark" +:+
  (nl +:+ "Asset Allocation: ") +:+ field "asset_allocation" +:+
  (nl +:+ "Net Return: ") +:+ field "return_net" +:+
  " (Benchmark Return: " +:+ field "return_benchmark" +:+
  (")" +:+ nl +:+ "Risk Metrics: ") +:+ field "risk_metrics" +:+
  (nl +:+ "Top Holdings: ") +:+ field "top_holdings" +:+
  (nl +:+ "Underperforming Holdings: ") +:+ field "underperforming_holdings".

(** The same part of the rendered disclosures prompt. What follows it is
    an empty line and the instructions, the compliance sentence among them. *)
Definition disclosures_fields_text `{Builtins} (kwargs : pydict) : string :=
  let field k := py_str (default VNone (kwargs !! k)) in
  (nl +:+ "Client Profile: ") +:+ field "client_profile" +:+
  (nl +:+ "Investment Products: ") +:+ field "investment_products" +:+
  (nl +:+ "Risk Metrics: ") +:+ field "risk_metrics".

(** A form whose fields quote two of the fixed sentences: the portfolio is
    named by the conservative risk sentence and the products are the SEC
    sentence, while the form asks for "aggressive" and "EU". *)
Definition form_quoting_sentences : gmap string string :=
  list_to_map
    [ ("portfolio_name", risk_note_conservative); ("client_name", "Ada");
      ("date_range", "Q1 2024"); ("risk_tolerance", "aggressive");
      ("investment_products", compliance_note_us); ("region", "EU") ].

(* ===================================================================== *)
(** * Part II: the properties                                             *)
(* ===================================================================== *)

(** ** Strings *)

Lemma str_take_0 s : str_take 0 s = "".
Proof. by destruct s. Qed.

Lemma str_drop_0 s : str_drop 0 s = s.
Proof. by destruct s. Qed.

Lemma append_nil t : "" +:+ t = t.
Proof. reflexivity. Qed.

Lemma append_cons c s t : String c s +:+ t = String c (s +:+ t).
Proof. reflexivity. Qed.

Lemma append_assoc (a b c : string) : (a +:+ b) +:+ c = a +:+ b +:+ c.
Proof. induction a as [|x a IH]; [done|]. by rewrite !append_cons, IH. Qed.

Lemma append_nil_r (a : string) : a +:+ "" = a.
Proof. induction a as [|x a IH]; [done|]. by rewrite append_cons, IH. Qed.

(** [strip] takes whitespace, and only whitespace, off both ends. *)
Lemma lstrip_spec s :
  exists l,
    s = l +:+ lstrip s /\ str_all isspace l = true /\
    match lstrip s with String c _ => isspace c = false | "" => True end.
Proof.
  induction s as [|c s (l & Hs & Hl & Hhead)]; [by exists ""|].
  cbn [lstrip]. destruct (isspace c) eqn:Hc.
  - exists (String c l). rewrite append_cons, <- Hs. cbn [str_all]. by rewrite Hc, Hl.
  - by exists "".
Qed.

Lemma rstrip_spec s :
  exists r,
    s = rstrip s +:+ r /\ str_all isspace r = true /\
    match str_last (rstrip s) with Some c => isspace c = false | None => True end.
Proof.
  induction s as [|c s (r & Hs & Hr & Hlast)]; [by exists ""|].
  cbn [rstrip]. destruct (rstrip s) as [|d t] eqn:Ht.
  - rewrite append_nil in Hs. subst r. destruct (isspace c) eqn:Hc.
    + exists (String c s). cbn [str_all]. by rewrite Hc, Hr.
    + by exists s.
  - exists r. by rewrite append_cons, <- Hs.
Qed.

Lemma rstrip_head c s :
  isspace c = false -> exists t, rstrip (String c s) = String c t.
Proof.
  intros Hc. cbn [rstrip]. rewrite Hc. destruct (rstrip s); eauto.
Qed.

Lemma strip_spec s :
  exists l r,
    s = l +:+ strip s +:+ r /\
    str_all isspace l = true /\ str_all isspace r = true /\
    match strip s with String c _ => isspace c = false | "" => True end /\
    match str_last (strip s) with Some c => isspace c = false | None => True end.
Proof.
  unfold strip.
  destruct (lstrip_spec s) as (l & Hs & Hl & Hhead).
  destruct (rstrip_spec (lstrip s)) as (r & Ht & Hr & Hlast).
  exists l, r. split; [by rewrite <- Ht|]. split; [done|]. split; [done|].
  split; [|done].
  destruct (lstrip s) as [|c t]; [done|].
  by destruct (rstrip_head c t Hhead) as [t' ->].
Qed.

(** ** The matcher, construct by construct *)

Lemma exec_star {R} r s pos g (k : string -> nat -> groups -> option R) :
  exec (Star r) s pos g k = star_loop r k (String.length s) s pos g.
Proof. reflexivity. Qed.

Lemma star_loop_one {R} cs (k : string -> nat -> groups -> option R) n s pos g :
  String.length s <= n ->
  star_loop (One cs) k n s pos g = greedy cs k s pos g.
Proof.
  revert s pos. induction n as [|n IH]; intros s pos Hn.
  - destruct s; [done | simpl in Hn; lia].
  - destruct s as [|c s]; [done|]. simpl in Hn. simpl.
    destruct (in_set cs c); [|done].
    replace (pos <? S pos)%nat with true by (symmetry; apply Nat.ltb_lt; lia).
    rewrite IH by lia. done.
Qed.

Lemma exec_star_one {R} cs s pos g (k : string -> nat -> groups -> option R) :
  exec (Star (One cs)) s pos g k = greedy cs k s pos g.
Proof. rewrite exec_star. by apply star_loop_one. Qed.

Lemma decides_ext st b k ok ok' :
  (forall s, ok s = ok' s) -> decides st b k ok -> decides st b k ok'.
Proof. intros E Hk s p g. rewrite <- E. apply Hk. Qed.

Lemma decides_end st b :
  decides st b (fun _ e g => Some (RMatch st e (<[2 := (b, e)]> g))) (fun _ => true).
Proof. intros s p g. by exists p. Qed.

Lemma decides_one st b cs k ok :
  decides st b k ok ->
  decides st b (fun s p g => exec (One cs) s p g k)
    (fun s => match s with
              | String c s' => in_set cs c && ok s'
              | "" => false
              end).
Proof.
  intros Hk [|c s] p g; simpl; [done|].
  destruct (in_set cs c); simpl; [apply Hk | done].
Qed.

Lemma decides_alt st b k1 k2 ok1 ok2 :
  decides st b k1 ok1 -> decides st b k2 ok2 ->
  decides st b
    (fun s p g => match k1 s p g with Some x => Some x | None => k2 s p g end)
    (fun s => ok1 s || ok2 s).
Proof.
  intros H1 H2 s p g. specialize (H1 s p g). specialize (H2 s p g).
  destruct (ok1 s); simpl.
  - destruct H1 as [e ->]. by exists e.
  - by rewrite H1.
Qed.

Lemma decides_str st b lit k ok :
  decides st b k ok ->
  decides st b (fun s p g => exec (Str lit) s p g k)
    (fun s => startswith lit s && ok (str_drop (String.length lit) s)).
Proof.
  revert k ok. induction lit as [|a lit IH]; intros k ok Hk.
  - intros s p g. cbn [Str exec String.length startswith andb].
    rewrite str_drop_0. apply Hk.
  - intros [|c s] p g; simpl; [done|].
    destruct (Ascii.eqb a c); [|done].
    apply (IH k ok Hk s (S p) g).
Qed.

(** A greedy run whose continuation refuses every rest that starts inside
    the class can only stop at the end of the longest run. *)
Lemma decides_star_one st b cs k ok :
  decides st b k ok ->
  (forall c s, in_set cs c = true -> ok (String c s) = false) ->
  decides st b (fun s p g => exec (Star (One cs)) s p g k)
    (fun s => ok (str_dropwhile (in_set cs) s)).
Proof.
  intros Hk Hno s p g. rewrite exec_star_one. revert p g.
  induction s as [|c s IH]; intros p g.
  - apply (Hk "" p g).
  - simpl. destruct (in_set cs c) eqn:Hc.
    + specialize (IH (S p) g).
      destruct (ok (str_dropwhile (in_set cs) s)).
      * destruct IH as [e ->]. by exists e.
      * rewrite IH. specialize (Hk (String c s) p g).
        by rewrite (Hno c s Hc) in Hk.
    + apply (Hk (String c s) p g).
Qed.

Lemma decides_seq st b r1 r2 k ok :
  decides st b (fun s p g => exec r1 s p g (fun s' p' g' => exec r2 s' p' g' k)) ok ->
  decides st b (fun s p g => exec (Seq r1 r2) s p g k) ok.
Proof. intros Hk. exact Hk. Qed.

Lemma decides_alt_re st b r1 r2 k ok1 ok2 :
  decides st b (fun s p g => exec r1 s p g k) ok1 ->
  decides st b (fun s p g => exec r2 s p g k) ok2 ->
  decides st b (fun s p g => exec (Alt r1 r2) s p g k) (fun s => ok1 s || ok2 s).
Proof. intros H1 H2. exact (decides_alt st b _ _ _ _ H1 H2). Qed.

Lemma lower_not_space c : islower_az c = true -> isspace c = false.
Proof. destruct c as [[] [] [] [] [] [] [] []]; vm_compute; congruence. Qed.

Lemma lower_not_colon c : islower_az c = true -> Ascii.eqb ":" c = false.
Proof. destruct c as [[] [] [] [] [] [] [] []]; vm_compute; congruence. Qed.

Lemma space_not_colon c : isspace c = true -> Ascii.eqb ":" c = false.
Proof. destruct c as [[] [] [] [] [] [] [] []]; vm_compute; congruence. Qed.

Lemma startswith_colon c s : startswith ":" (String c s) = Ascii.eqb ":" c.
Proof. cbn [startswith]. by destruct (Ascii.eqb ":" c). Qed.

Lemma summary_pattern_eq :
  summary_pattern = Seq (Grp 1 (Star (One CAny))) (Grp 2 marker_regex).
Proof. reflexivity. Qed.

Lemma decides_cap_word st b k :
  decides st b k (fun _ => true) ->
  decides st b
    (fun s p g =>
       exec (Seq (One (CRng "A" "Z"))
            (Seq (Plus (One (CRng "a" "z")))
            (Seq (Star (One CSpc)) (One (CChr ":"))))) s p g k)
    cap_word_colon.
Proof.
  intros Hend.
  (* the colon *)
  assert (Hcolon : decides st b (fun s p g => exec (One (CChr ":")) s p g k)
                     (startswith ":")).
  { eapply decides_ext; [|apply (decides_one st b (CChr ":") _ _ Hend)].
    intros [|c s]; [done|]. rewrite startswith_colon. simpl. by rewrite andb_true_r. }
  (* whitespace, then the colon *)
  assert (Hsp : decides st b
                  (fun s p g => exec (Seq (Star (One CSpc)) (One (CChr ":"))) s p g k)
                  (fun s => startswith ":" (str_dropwhile isspace s))).
  { apply decides_seq.
    apply (decides_star_one st b CSpc _ _ Hcolon).
    intros c s Hc. rewrite startswith_colon. by apply space_not_colon. }
  (* a..z as often as possible, then the rest *)
  assert (Hlow : decides st b
                   (fun s p g =>
                      exec (Star (One (CRng "a" "z"))) s p g
                        (fun s' p' g' =>
                           exec (Seq (Star (One CSpc)) (One (CChr ":"))) s' p' g' k))
                   (fun s => startswith ":"
                               (str_dropwhile isspace (str_dropwhile islower_az s)))).
  { apply (decides_star_one st b (CRng "a" "z") _ _ Hsp).
    intros c s Hc. change (islower_az c = true) in Hc.
    cbn [str_dropwhile]. rewrite (lower_not_space c Hc), startswith_colon.
    by apply lower_not_colon. }
  apply decides_seq.
  eapply decides_ext;
    [|apply (decides_one st b (CRng "A" "Z") _ _
               (decides_one st b (CRng "a" "z") _ _ Hlow))].
  intros [|c [|d s]]; simpl; [done| by rewrite andb_false_r |].
  by rewrite andb_assoc.
Qed.

Lemma decides_marker st b :
  decides st b
    (fun s p g =>
       exec marker_regex s p g
         (fun _ e g' => Some (RMatch st e (<[2 := (b, e)]> g'))))
    marker_at.
Proof.
  pose proof (decides_end st b) as Hend.
  unfold marker_regex.
  eapply decides_ext;
    [|apply decides_alt_re;
       [apply (decides_str st b "Instructions:" _ _ Hend)
       |apply decides_alt_re;
         [apply (decides_str st b "1." _ _ Hend)
         |apply (decides_cap_word st b _ Hend)]]].
  intros s. unfold marker_at. cbv beta. by rewrite !andb_true_r, orb_assoc.
Qed.

(** ** The whole pattern *)

Lemma marker_at_empty : marker_at "" = false.
Proof. reflexivity. Qed.

(** What follows group 1 in the pattern, at the rest [s'] where group 1
    stops: group 2 and the end of the match. *)
Lemma exec_marker_group st s p g :
  if marker_at s then
    exists e,
      exec (Grp 2 marker_regex) s p g (fun _ e g' => Some (RMatch st e g'))
      = Some (RMatch st e (<[2 := (p, e)]> g))
  else
    exec (Grp 2 marker_regex) s p g (fun _ e g' => Some (RMatch st e g')) = None.
Proof. exact (decides_marker st p s p g). Qed.

(** Matching the pattern at a start position [st]: group 1 ends at the last
    position at which a marker starts. *)
Lemma exec_summary_pattern st s p g :
  match last_marker_from s p with
  | Some q =>
      exists e,
        greedy CAny
          (fun s' p' g' =>
             exec (Grp 2 marker_regex) s' p' (<[1 := (st, p')]> g')
               (fun _ e g'' => Some (RMatch st e g''))) s p g
        = Some (RMatch st e (<[2 := (q, e)]> (<[1 := (st, q)]> g)))
  | None =>
      greedy CAny
        (fun s' p' g' =>
           exec (Grp 2 marker_regex) s' p' (<[1 := (st, p')]> g')
             (fun _ e g'' => Some (RMatch st e g''))) s p g
      = None
  end.
Proof.
  revert p. induction s as [|c s IH]; intros p.
  - cbn [last_marker_from greedy].
    pose proof (exec_marker_group st "" p (<[1 := (st, p)]> g)) as Hm.
    by rewrite marker_at_empty in Hm.
  - cbn [last_marker_from greedy in_set]. specialize (IH (S p)).
    destruct (last_marker_from s (S p)) as [q|].
    + destruct IH as [e ->]. by exists e.
    + rewrite IH.
      pose proof (exec_marker_group st (String c s) p (<[1 := (st, p)]> g)) as Hm.
      destruct (marker_at (String c s)); exact Hm.
Qed.

Lemma exec_summary_pattern_eq st s g :
  exec summary_pattern s st g (fun _ e g' => Some (RMatch st e g'))
  = greedy CAny
      (fun s' p' g' =>
         exec (Grp 2 marker_regex) s' p' (<[1 := (st, p')]> g')
           (fun _ e g'' => Some (RMatch st e g''))) s st g.
Proof.
  rewrite summary_pattern_eq.
  change (exec (Seq (Grp 1 (Star (One CAny))) (Grp 2 marker_regex)) s st g
            (fun _ e g' => Some (RMatch st e g')))
    with (exec (Star (One CAny)) s st g
            (fun s' p' g' =>
               exec (Grp 2 marker_regex) s' p' (<[1 := (st, p')]> g')
                 (fun _ e g'' => Some (RMatch st e g'')))).
  apply exec_star_one.
Qed.

Lemma search_summary_none s st :
  last_marker_from s st = None -> search_from summary_pattern s st = None.
Proof.
  revert st. induction s as [|c s IH]; intros st Hn.
  - cbn [search_from]. rewrite exec_summary_pattern_eq.
    pose proof (exec_summary_pattern st "" st ∅) as He.
    rewrite Hn in He. by rewrite He.
  - cbn [search_from]. rewrite exec_summary_pattern_eq.
    pose proof (exec_summary_pattern st (String c s) st ∅) as He.
    rewrite Hn in He. rewrite He.
    apply IH. cbn [last_marker_from] in Hn.
    by destruct (last_marker_from s (S st)).
Qed.

Lemma search_summary_some text q :
  last_marker text = Some q ->
  exists e, re_search summary_pattern text
            = Some (RMatch 0 e (<[2 := (q, e)]> (<[1 := (0, q)]> ∅))).
Proof.
  intros Hq. unfold re_search.
  pose proof (exec_summary_pattern 0 text 0 ∅) as He.
  unfold last_marker in Hq. rewrite Hq in He. destruct He as [e He].
  exists e. destruct text; cbn [search_from]; by rewrite exec_summary_pattern_eq, He.
Qed.

(** The extraction, in terms of the last marker. *)
Lemma extract_by_last_marker text :
  extract_portfolio_summary text =
  match last_marker text with
  | Some q => strip (str_take q text)
  | None => strip text
  end.
Proof.
  unfold extract_portfolio_summary.
  destruct (last_marker text) as [q|] eqn:Hq.
  - destruct (search_summary_some text q Hq) as [e ->].
    unfold group. cbn [m_groups].
    rewrite lookup_insert_ne by done. rewrite lookup_insert_eq.
    by rewrite Nat.sub_0_r, str_drop_0.
  - unfold re_search. by rewrite (search_summary_none text 0 Hq).
Qed.

(** ** What [last_marker] finds *)

Lemma last_marker_from_shift s pos :
  last_marker_from s pos = (fun q => pos + q) <$> last_marker_from s 0.
Proof.
  revert pos. induction s as [|c s IH]; intros pos; [done|].
  cbn [last_marker_from]. rewrite (IH (S pos)), (IH 1).
  destruct (last_marker_from s 0) as [q|]; simpl.
  - f_equal. lia.
  - destruct (marker_at (String c s)); simpl; [f_equal; lia | done].
Qed.

Lemma last_marker_spec s :
  match last_marker s with
  | Some q =>
      marker_at (str_drop q s) = true /\
      forall j, q < j -> marker_at (str_drop j s) = false
  | None => forall j, marker_at (str_drop j s) = false
  end.
Proof.
  unfold last_marker. induction s as [|c s IH].
  - intros j. by destruct j.
  - cbn [last_marker_from]. rewrite (last_marker_from_shift s 1).
    destruct (last_marker_from s 0) as [q|]; simpl.
    + destruct IH as [Hq Hlast]. split; [done|].
      intros [|j] Hj; [lia|]. simpl. apply Hlast. lia.
    + destruct (marker_at (String c s)) eqn:Hm.
      * split; [done|]. intros [|j] Hj; [lia|]. apply IH.
      * intros [|j]; [done|]. apply IH.
Qed.

(** ** The third alternative, spelled out *)

Lemma takewhile_dropwhile p s : s = str_takewhile p s +:+ str_dropwhile p s.
Proof.
  induction s as [|c s IH]; [done|]. cbn [str_takewhile str_dropwhile].
  destruct (p c); [|done]. by rewrite append_cons, <- IH.
Qed.

Lemma str_all_takewhile p s : str_all p (str_takewhile p s) = true.
Proof.
  induction s as [|c s IH]; [done|]. simpl.
  destruct (p c) eqn:Hc; simpl; [by rewrite Hc | done].
Qed.

Lemma dropwhile_app p w t :
  str_all p w = true ->
  match t with String c _ => p c = false | "" => True end ->
  str_dropwhile p (w +:+ t) = t.
Proof.
  intros Hw Ht. induction w as [|c w IH].
  - rewrite append_nil. destruct t as [|c t]; [done|]. simpl. by rewrite Ht.
  - simpl in Hw. apply andb_true_iff in Hw as [Hc Hw].
    rewrite append_cons. simpl. rewrite Hc. by apply IH.
Qed.

Lemma space_not_lower c : isspace c = true -> islower_az c = false.
Proof.
  intros Hc. destruct (islower_az c) eqn:Hl; [|done].
  by rewrite (lower_not_space c Hl) in Hc.
Qed.

Lemma colon_not_lower : islower_az ":" = false.
Proof. reflexivity. Qed.

Lemma colon_not_space : isspace ":" = false.
Proof. reflexivity. Qed.

(** [cap_word_colon s] holds exactly when [s] starts with one of A..Z, one
    or more of a..z, any whitespace, and a colon. *)
Lemma cap_word_colon_iff s :
  cap_word_colon s = true <->
  exists c w sp rest,
    s = String c (w +:+ sp +:+ String ":" rest) /\
    isupper_az c = true /\ w <> "" /\
    str_all islower_az w = true /\ str_all isspace sp = true.
Proof.
  split.
  - destruct s as [|c [|d s]]; [done|done|]. unfold cap_word_colon.
    intros Hs. apply andb_true_iff in Hs as [Hs Hcolon].
    apply andb_true_iff in Hs as [Hc Hd].
    set (s1 := str_dropwhile islower_az s) in *.
    destruct (str_dropwhile isspace s1) as [|x rest] eqn:Hrest; [done|].
    rewrite startswith_colon in Hcolon. apply Ascii.eqb_eq in Hcolon. subst x.
    exists c, (String d (str_takewhile islower_az s)),
           (str_takewhile isspace s1), rest.
    split; [|split; [done|split; [done|split]]].
    + rewrite append_cons. do 2 f_equal. rewrite <- Hrest.
      rewrite <- (takewhile_dropwhile isspace s1).
      apply takewhile_dropwhile.
    + simpl. rewrite Hd. apply str_all_takewhile.
    + apply str_all_takewhile.
  - intros (c & w & sp & rest & -> & Hc & Hw & Hlow & Hsp).
    destruct w as [|d w]; [done|]. simpl in Hlow.
    apply andb_true_iff in Hlow as [Hd Hlow].
    rewrite append_cons. cbn [cap_word_colon]. rewrite Hc, Hd. cbn [andb].
    assert (Hsp' : str_dropwhile isspace (sp +:+ String ":" rest) = String ":" rest).
    { apply dropwhile_app; [done | apply colon_not_space]. }
    rewrite dropwhile_app; [by rewrite Hsp' | done |].
    destruct sp as [|x sp]; [apply colon_not_lower|]. rewrite append_cons.
    simpl in Hsp. apply andb_true_iff in Hsp as [Hx _]. by apply space_not_lower.
Qed.

(** ** The matcher on a few texts, as [re] answers on them *)

Lemma re_search_examples :
  re_search summary_pattern "ab Xy :"
  = Some (RMatch 0 7 (<[2 := (3, 7)]> (<[1 := (0, 3)]> ∅))) /\
  re_search summary_pattern "abc A: x" = None /\
  extract_portfolio_summary "  no marker here  " = "no marker here" /\
  extract_portfolio_summary "Total  : 5 and iPhone: x" = "Total  : 5 and i".
Proof. repeat split; by vm_compute. Qed.

(** ** The claims on the extraction *)

(** C1 (as amended). The portfolio-summary extraction returns everything
    strictly before the LAST position of the text at which a marker starts,
    stripped of surrounding whitespace, and the whole text stripped when no
    marker starts anywhere; a marker is what [marker_at] recognises:
    "Instructions:", "1.", or one of A..Z followed by one or more of a..z,
    any whitespace and a colon. On "Summary here. Instructions: do X" it
    returns "Summary here.". *)
Theorem extract_portfolio_summary_before_last_marker :
  (forall text,
     match last_marker text with
     | Some q =>
         marker_at (str_drop q text) = true /\
         (forall j, q < j -> marker_at (str_drop j text) = false) /\
         extract_portfolio_summary text = strip (str_take q text)
     | None =>
         (forall j, marker_at (str_drop j text) = false) /\
         extract_portfolio_summary text = strip text
     end)
  /\ extract_portfolio_summary "Summary here. Instructions: do X" = "Summary here.".
Proof.
  split; [|by vm_compute].
  intros text. pose proof (last_marker_spec text) as Hspec.
  pose proof (extract_by_last_marker text) as Hex.
  destruct (last_marker text) as [q|]; [destruct Hspec|]; done.
Qed.

(** The extraction does not stop at the first marker: in
    "Alpha 1. beta Instructions: gamma" the first marker is the "1." at
    position 6, and the text before it is "Alpha"; but the greedy group 1
    runs up to the last marker, the "Instructions:" at position 14, and the
    extraction returns "Alpha 1. beta". *)
Lemma extract_portfolio_summary_not_first_marker :
  let text := "Alpha 1. beta Instructions: gamma" in
  marker_at (str_drop 6 text) = true /\
  (forall j, j < 6 -> marker_at (str_drop j text) = false) /\
  claimed_portfolio_summary text = "Alpha" /\
  strip (str_take 6 text) = "Alpha" /\
  extract_portfolio_summary text = "Alpha 1. beta" /\
  extract_portfolio_summary text <> claimed_portfolio_summary text.
Proof.
  cbv zeta. split; [by vm_compute|]. split.
  - intros j Hj. do 6 (destruct j as [|j]; [by vm_compute|]). lia.
  - repeat split; by vm_compute.
Qed.

(** The pattern also takes whitespace between the word and the colon, and a
    word that starts in the middle of another. *)
Lemma extract_portfolio_summary_loose_markers :
  extract_portfolio_summary "Total : 5" = "" /\
  extract_portfolio_summary "see iPhone: x" = "see i".
Proof. repeat split; by vm_compute. Qed.


(** ** The report store: [save_report] and [load_reports] *)

Ltac world_simpl :=
  cbn [file open_error events gen add_event set_file set_gen fst snd].
Tactic Notation "world_simpl" "in" hyp(Hyp) :=
  cbn [file open_error events gen add_event set_file set_gen fst snd] in Hyp.

(** Run a computation of the store forward, using what is known of the
    file and of [open]. *)
Ltac run_store Hf Hopen Hj :=
  repeat first
    [ progress world_simpl
    | rewrite Hf
    | rewrite Hopen
    | rewrite Hj ].

Section Store.
Context `{JsonLib} `{Generator}.

Lemma is_Some_decide {A} (o : option A) :
  bool_decide (is_Some o) = match o with Some _ => true | None => false end.
Proof.
  destruct o; [apply bool_decide_eq_true_2; eauto|].
  apply bool_decide_eq_false_2. by intros [? ?].
Qed.

(** [save_report] on a store it can read and write. *)
Lemma save_report_ok rd w d :
  open_error w = None -> stored_mapping w = Some d ->
  save_report rd w =
  (inr tt,
   add_event (EPrint ("Report saved successfully with ID: " +:+ report_id rd))
     (set_file (Some (json_dump (VDict (<[report_id rd := report_value rd]> d))))
        (add_event (ESaveReport rd) w))).
Proof.
  intros Hopen Hd.
  unfold save_report, stored_mapping, bind, try_except, print, log, path_exists,
    read_json, write_json, lift, ret, raise, setitem in *.
  rewrite is_Some_decide.
  destruct (file w) as [t|] eqn:Hf.
  - destruct (json_load t) as [e|v] eqn:Hj; [done|].
    destruct v; try done. inversion Hd; subst.
    by run_store Hf Hopen Hj.
  - inversion Hd; subst. by run_store Hf Hopen Hf.
Qed.

(** [save_report] when something goes wrong: the exception comes back to
    the caller and the file is as before. *)
Lemma save_report_raises rd w :
  (stored_mapping w = None \/ is_Some (open_error w)) ->
  exists e,
    save_report rd w =
    (inl e,
     add_event (EPrint ("Error saving report: " +:+ exn_str e))
       (add_event (ESaveReport rd) w)).
Proof.
  intros Hbad.
  unfold save_report, stored_mapping, bind, try_except, print, log, path_exists,
    read_json, write_json, lift, ret, raise, setitem in *.
  rewrite is_Some_decide.
  destruct (open_error w) as [e|] eqn:Hopen.
  - exists e. destruct (file w) as [t|] eqn:Hf; by run_store Hf Hopen Hf.
  - destruct Hbad as [Hbad|[? ?]]; [|done].
    destruct (file w) as [t|] eqn:Hf; [|done].
    destruct (json_load t) as [e|v] eqn:Hj.
    + exists e. by run_store Hf Hopen Hj.
    + destruct v; try done; eexists; by run_store Hf Hopen Hj.
Qed.

Lemma save_report_cases rd w :
  match stored_mapping w, open_error w with
  | Some d, None =>
      save_report rd w =
      (inr tt,
       add_event (EPrint ("Report saved successfully with ID: " +:+ report_id rd))
         (set_file (Some (json_dump (VDict (<[report_id rd := report_value rd]> d))))
            (add_event (ESaveReport rd) w)))
  | _, _ =>
      exists e,
        save_report rd w =
        (inl e,
         add_event (EPrint ("Error saving report: " +:+ exn_str e))
           (add_event (ESaveReport rd) w))
  end.
Proof.
  destruct (stored_mapping w) as [d|] eqn:Hd, (open_error w) as [e|] eqn:He.
  - apply save_report_raises. right. rewrite He. eauto.
  - by apply save_report_ok.
  - apply save_report_raises. by left.
  - apply save_report_raises. by left.
Qed.

(** [load_reports] in every state of the store. *)
Lemma load_reports_cases w :
  match file w, open_error w with
  | None, _ => load_reports w = (inr (VDict ∅), w)
  | Some t, None =>
      match json_load t with
      | inr v => load_reports w = (inr v, w)
      | inl e =>
          load_reports w =
          (inr (VDict ∅), add_event (EPrint ("Error loading reports: " +:+ exn_str e)) w)
      end
  | Some t, Some e =>
      load_reports w =
      (inr (VDict ∅), add_event (EPrint ("Error loading reports: " +:+ exn_str e)) w)
  end.
Proof.
  unfold load_reports, bind, try_except, print, log, path_exists, read_json,
    ret, raise.
  rewrite is_Some_decide.
  destruct (file w) as [t|] eqn:Hf; [|by destruct (open_error w)].
  destruct (open_error w) as [e|] eqn:Hopen; [by run_store Hf Hopen Hf|].
  destruct (json_load t) as [e|v] eqn:Hj; by run_store Hf Hopen Hj.
Qed.

(** The exception that reading or writing the file raises is the one
    [save_report] raises. *)
Lemma save_report_reraises rd w e :
  (open_error w = Some e \/
   (open_error w = None /\ exists t, file w = Some t /\ json_load t = inl e)) ->
  save_report rd w =
  (inl e,
   add_event (EPrint ("Error saving report: " +:+ exn_str e))
     (add_event (ESaveReport rd) w)).
Proof.
  intros Hbad.
  unfold save_report, bind, try_except, print, log, path_exists,
    read_json, write_json, lift, ret, raise, setitem in *.
  rewrite is_Some_decide.
  destruct Hbad as [Hopen|(Hopen & t & Hf & Hj)].
  - destruct (file w) as [t|] eqn:Hf; by run_store Hf Hopen Hf.
  - by run_store Hf Hopen Hj.
Qed.

(** ** The claims on the store *)

(** C4. When [save_report] returns normally, [load_reports] right after it
    returns a mapping that has the saved [report_id] as a key, and the four
    section strings under that key are the ones that were saved. *)
Theorem save_then_load rd w w' :
  save_report rd w = (inr tt, w') ->
  exists d entry,
    load_reports w' = (inr (VDict d), w') /\
    d !! report_id rd = Some (VDict entry) /\
    entry !! "portfolio_summary" = Some (VStr (portfolio_summary rd)) /\
    entry !! "client_insights" = Some (VStr (client_insights rd)) /\
    entry !! "recommendations" = Some (VStr (recommendations rd)) /\
    entry !! "disclosures" = Some (VStr (disclosures rd)).
Proof.
  intros Hsave. pose proof (save_report_cases rd w) as Hc.
  destruct (stored_mapping w) as [d|], (open_error w) as [e|] eqn:Hopen.
  2: { rewrite Hc in Hsave. inversion Hsave as [Hw']. clear Hsave Hc.
       pose proof (load_reports_cases w') as Hl. subst w'.
       world_simpl in Hl. rewrite Hopen, json_load_dump in Hl.
       eexists _, _. split; [exact Hl|]. split; [apply lookup_insert_eq|].
       by repeat split. }
  all: destruct Hc as [e' Hc]; rewrite Hc in Hsave; discriminate.
Qed.

(** What [save_report] does to the store, in every state of it. *)
Lemma save_report_effect rd w :
  match stored_mapping w, open_error w with
  | Some d, None =>
      exists w',
        save_report rd w = (inr tt, w') /\
        file w' = Some (json_dump (VDict (<[report_id rd := report_value rd]> d))) /\
        stored_mapping w' = Some (<[report_id rd := report_value rd]> d) /\
        load_reports w' = (inr (VDict (<[report_id rd := report_value rd]> d)), w') /\
        (<[report_id rd := report_value rd]> d) !! report_id rd
          = Some (report_value rd) /\
        forall k, k <> report_id rd ->
          (<[report_id rd := report_value rd]> d) !! k = d !! k
  | _, _ =>
      exists e w', save_report rd w = (inl e, w') /\ file w' = file w
  end.
Proof.
  pose proof (save_report_cases rd w) as Hc.
  destruct (stored_mapping w) as [d|], (open_error w) as [e|] eqn:Hopen.
  2: { eexists. split; [exact Hc|].
       split; [done|].
       split; [unfold stored_mapping; world_simpl; by rewrite json_load_dump|].
       split.
       - match goal with |- load_reports ?w' = _ =>
           pose proof (load_reports_cases w') as Hl end.
         world_simpl in Hl. by rewrite Hopen, json_load_dump in Hl.
       - split; [apply lookup_insert_eq|].
         intros k Hk. by apply lookup_insert_ne. }
  all: destruct Hc as [e' Hc]; eexists _, _; split; [exact Hc | done].
Qed.

(** C8. On a store that holds a mapping (the empty one when the file is
    absent), [save_report] writes back that mapping with the entry at the
    record's [report_id] inserted or overwritten: every entry under another
    identifier is there as before. When it cannot (the file does not parse
    to a mapping, or cannot be opened) it raises and leaves the file as it
    is. *)
Theorem save_report_frame rd w :
  match stored_mapping w, open_error w with
  | Some d, None =>
      exists w',
        save_report rd w = (inr tt, w') /\
        file w' = Some (json_dump (VDict (<[report_id rd := report_value rd]> d))) /\
        stored_mapping w' = Some (<[report_id rd := report_value rd]> d) /\
        load_reports w' = (inr (VDict (<[report_id rd := report_value rd]> d)), w') /\
        (<[report_id rd := report_value rd]> d) !! report_id rd
          = Some (report_value rd) /\
        forall k, k <> report_id rd ->
          (<[report_id rd := report_value rd]> d) !! k = d !! k
  | _, _ =>
      exists e w', save_report rd w = (inl e, w') /\ file w' = file w
  end.
Proof. apply save_report_effect. Qed.

(** C9. [load_reports] never raises: it returns what the file parses to
    when the file is there, can be opened and parses, and the empty mapping
    otherwise; it leaves the file alone. [save_report] hands the exception
    of a failed read or write to its caller. *)
Theorem load_reports_swallows_save_report_reraises w :
  (exists v w',
     load_reports w = (inr v, w') /\ file w' = file w /\
     v = match file w, open_error w with
         | Some t, None =>
             match json_load t with
             | inr x => x
             | inl _ => VDict ∅
             end
         | _, _ => VDict ∅
         end)
  /\ (forall rd e,
        (open_error w = Some e \/
         (open_error w = None /\ exists t, file w = Some t /\ json_load t = inl e)) ->
        exists w', save_report rd w = (inl e, w') /\ file w' = file w).
Proof.
  split.
  - pose proof (load_reports_cases w) as Hl.
    destruct (file w) as [t|] eqn:Hf.
    + destruct (open_error w) as [e|].
      * eexists _, _. split; [exact Hl|]. by split.
      * destruct (json_load t) as [e|v];
          eexists _, _; (split; [exact Hl|]); by split.
    + eexists _, _. split; [exact Hl|]. split; [done|]. by destruct (open_error w).
  - intros rd e Hbad. eexists. split; [by apply save_report_reraises|done].
Qed.

End Store.

(** ** The identifier *)

Lemma append_length s t : String.length (s +:+ t) = String.length s + String.length t.
Proof.
  induction s as [|c s IH]; [done|]. rewrite append_cons. simpl. by rewrite IH.
Qed.

Lemma append_inj_l s t t' : s +:+ t = s +:+ t' -> t = t'.
Proof.
  induction s as [|c s IH]; [done|]. rewrite !append_cons.
  intros Heq. apply IH. by inversion Heq.
Qed.

(** Two concatenations whose left parts have the same length. *)
Lemma append_inj s s' t t' :
  String.length s = String.length s' -> s +:+ t = s' +:+ t' -> s = s' /\ t = t'.
Proof.
  revert s'. induction s as [|c s IH]; intros [|c' s'] Hlen Heq; try done.
  rewrite !append_cons in Heq. inversion Heq; subst.
  destruct (IH s') as [-> ->]; [by inversion Hlen | done | done].
Qed.

Lemma append_inj_r s s' t : s +:+ t = s' +:+ t -> s = s'.
Proof.
  intros Heq. apply (append_inj s s' t t); [|done].
  apply (f_equal String.length) in Heq. rewrite !append_length in Heq. lia.
Qed.

(** Changing one section changes the report text. *)
Lemma report_text_inj_1 a a' b c d :
  report_text a b c d = report_text a' b c d -> a = a'.
Proof. unfold report_text. apply append_inj_r. Qed.

Lemma report_text_inj_2 a b b' c d :
  report_text a b c d = report_text a b' c d -> b = b'.
Proof.
  unfold report_text. intros Heq.
  do 2 apply append_inj_l in Heq. by apply append_inj_r in Heq.
Qed.

Lemma report_text_inj_3 a b c c' d :
  report_text a b c d = report_text a b c' d -> c = c'.
Proof.
  unfold report_text. intros Heq.
  do 4 apply append_inj_l in Heq. by apply append_inj_r in Heq.
Qed.

Lemma report_text_inj_4 a b c d d' :
  report_text a b c d = report_text a b c d' -> d = d'.
Proof. unfold report_text. intros Heq. by do 6 apply append_inj_l in Heq. Qed.

(** *** UTF-8 encoding is injective *)

Lemma code_lt_256 c : code c < 256.
Proof. apply nat_ascii_bounded. Qed.

Lemma code_inj c c' : code c = code c' -> c = c'.
Proof.
  unfold code. intros Heq.
  by rewrite <- (ascii_nat_embedding c), <- (ascii_nat_embedding c'), Heq.
Qed.

Lemma encode_inj s s' : encode s = encode s' -> s = s'.
Proof.
  revert s'. induction s as [|c s IH]; intros [|c' s'] Heq.
  - done.
  - simpl in Heq. destruct (_ <? _)%Z; discriminate.
  - simpl in Heq. destruct (_ <? _)%Z; discriminate.
  - simpl in Heq. pose proof (code_lt_256 c). pose proof (code_lt_256 c').
    destruct (Z.ltb_spec (Z.of_nat (code c)) 128),
             (Z.ltb_spec (Z.of_nat (code c')) 128).
    + inversion Heq as [[Hc Hs]]. f_equal; [apply code_inj; lia | by apply IH].
    + inversion Heq as [[Hc Hs]].
      pose proof (Z.div_pos (Z.of_nat (code c')) 64). lia.
    + inversion Heq as [[Hc Hs]].
      pose proof (Z.div_pos (Z.of_nat (code c)) 64). lia.
    + inversion Heq as [[Hq Hr Hs]].
      f_equal; [|by apply IH]. apply code_inj.
      pose proof (Z.div_mod (Z.of_nat (code c)) 64).
      pose proof (Z.div_mod (Z.of_nat (code c')) 64). lia.
Qed.

(** *** The digest function is SHA-256 *)

(** The constants, as FIPS 180-4 lists them: the first and the last round
    constant and the first word of the initial state. *)
Lemma sha256_constants :
  length Sha256.K = 64 /\ nth 0 Sha256.K 0%Z = 0x428a2f98%Z /\
  nth 63 Sha256.K 0%Z = 0xc67178f2%Z /\ nth 0 Sha256.H0 0%Z = 0x6a09e667%Z.
Proof. by vm_compute. Qed.

(** The standard test vectors: the empty message, "abc", and a message of
    two blocks. *)
Lemma sha256_test_vectors :
  generate_report_id ""
  = "e3b0c44298fc1c149afbf4c8996fb92427ae41e4649b934ca495991b7852b855" /\
  generate_report_id "abc"
  = "ba7816bf8f01cfea414140de5dae2223b00361a396177a9cb410ff61f20015ad" /\
  generate_report_id "abcdbcdecdefdefgefghfghighijhijkijkljklmklmnlmnomnopnopq"
  = "248d6a61d20638b8e5c026930c3e6039a33ce45964ff2167f6ecedd419db06c1".
Proof. by vm_compute. Qed.

(** *** The digest is a number below 2^256 *)

Lemma add_words_ok xs ys :
  Forall word_ok (Sha256.add_words xs ys) /\
  length (Sha256.add_words xs ys) <= length xs.
Proof.
  revert ys. induction xs as [|x xs IH]; intros [|y ys]; simpl;
    try (split; [constructor | lia]).
  destruct (IH ys) as [Hok Hlen]. split; [|lia].
  constructor; [|done]. unfold word_ok, Sha256.add32, Sha256.w32.
  apply Z.mod_pos_bound. lia.
Qed.

Lemma blocks_ok n h bs :
  Forall word_ok h -> length h <= 8 ->
  Forall word_ok (Sha256.blocks n h bs) /\ length (Sha256.blocks n h bs) <= 8.
Proof.
  revert h bs. induction n as [|n IH]; intros h bs Hok Hlen; [done|].
  cbn [Sha256.blocks]. unfold Sha256.compress.
  match goal with |- context [Sha256.add_words h ?x] =>
    destruct (add_words_ok h x) as [Hok' Hlen'] end.
  apply IH; [done | lia].
Qed.

Lemma H0_ok : Forall word_ok Sha256.H0 /\ length Sha256.H0 <= 8.
Proof.
  unfold Sha256.H0. split.
  - apply List.Forall_map, List.Forall_forall. intros p _.
    unfold word_ok, Sha256.w32. apply Z.mod_pos_bound. lia.
  - rewrite List.length_map. apply List.firstn_le_length.
Qed.

Lemma fold_words_bound ws acc k :
  (0 <= k)%Z -> (0 <= acc < 2 ^ (32 * k))%Z -> Forall word_ok ws ->
  (0 <= fold_left (fun a w => a * 2 ^ 32 + w) ws acc
     < 2 ^ (32 * (k + Z.of_nat (length ws))))%Z.
Proof.
  revert acc k. induction ws as [|w ws IH]; intros acc k Hk Hacc Hok.
  - simpl. by rewrite Z.add_0_r.
  - inversion Hok as [|? ? Hw Hws]; subst. unfold word_ok in Hw.
    cbn [fold_left length].
    replace (k + Z.of_nat (S (length ws)))%Z
      with ((k + 1) + Z.of_nat (length ws))%Z by lia.
    apply IH; [lia | | done].
    replace (32 * (k + 1))%Z with (32 * k + 32)%Z by lia.
    rewrite Z.pow_add_r by lia. nia.
Qed.

Lemma digest_bound msg : (0 <= Sha256.digest msg < 2 ^ 256)%Z.
Proof.
  unfold Sha256.digest, Sha256.digest_words.
  destruct H0_ok as [Hok Hlen].
  match goal with |- context [Sha256.blocks ?n Sha256.H0 ?p] =>
    destruct (blocks_ok n Sha256.H0 p Hok Hlen) as [Hok' Hlen'];
    pose proof (fold_words_bound (Sha256.blocks n Sha256.H0 p) 0 0
                  ltac:(lia) ltac:(simpl; lia) Hok') as Hb
  end.
  split; [apply Hb|].
  eapply Z.lt_le_trans; [apply Hb|].
  apply Z.pow_le_mono_r; lia.
Qed.

(** *** The hexadecimal text of a digest determines it *)

Lemma hex_val_digit d : (0 <= d < 16)%Z -> hex_val (hex_digit d) = d.
Proof.
  intros Hd. assert (Hn : exists n, n < 16 /\ d = Z.of_nat n).
  { exists (Z.to_nat d). lia. }
  destruct Hn as (n & Hn & ->).
  do 16 (destruct n as [|n]; [reflexivity|]). lia.
Qed.

Lemma hex_of_length n z : String.length (hex_of n z) = n.
Proof.
  revert z. induction n as [|n IH]; intros z; [done|].
  cbn [hex_of]. rewrite append_length, IH. simpl. lia.
Qed.

Lemma hex_of_inj n z z' :
  hex_of n z = hex_of n z' ->
  (z mod 16 ^ Z.of_nat n = z' mod 16 ^ Z.of_nat n)%Z.
Proof.
  revert z z'. induction n as [|n IH]; intros z z' Heq.
  - by rewrite !Z.mod_1_r.
  - cbn [hex_of] in Heq.
    apply append_inj in Heq as [Hhi Hlo]; [|by rewrite !hex_of_length].
    apply IH in Hhi. inversion Hlo as [Hd].
    apply (f_equal hex_val) in Hd.
    rewrite !hex_val_digit in Hd by (apply Z.mod_pos_bound; lia).
    rewrite Nat2Z.inj_succ, Z.pow_succ_r by lia.
    rewrite !Z.rem_mul_r by lia. by rewrite Hd, Hhi.
Qed.

(** Two texts have the same identifier exactly when their encodings have
    the same SHA-256 digest. *)
Lemma generate_report_id_eq_iff t t' :
  generate_report_id t = generate_report_id t' <->
  Sha256.digest (encode t) = Sha256.digest (encode t').
Proof.
  unfold generate_report_id, sha256_hexdigest. split; [|by intros ->].
  intros Heq%hex_of_inj.
  change (16 ^ Z.of_nat 64)%Z with (2 ^ 256)%Z in Heq.
  by rewrite !Z.mod_small in Heq by apply digest_bound.
Qed.

(** *** Identifiers collide *)

Lemma repeat_a_length n : String.length (repeat_a n) = n.
Proof. induction n as [|n IH]; [done|]. simpl. by rewrite IH. Qed.

(** With more texts than digests, two texts share a digest. *)
Lemma digest_collision (text_of : nat -> string) :
  exists i j, i < j /\
    Sha256.digest (encode (text_of i)) = Sha256.digest (encode (text_of j)).
Proof.
  set (B := Z.to_nat (2 ^ 256)).
  destruct (nat_pigeonhole
              (fun n => Z.to_nat (Sha256.digest (encode (text_of n)))) (S B) B)
    as (i & j & Hij & Heq).
  - lia.
  - intros i _. pose proof (digest_bound (encode (text_of i))). unfold B. lia.
  - exists i, j. split; [lia|].
    pose proof (digest_bound (encode (text_of i))).
    pose proof (digest_bound (encode (text_of j))). lia.
Qed.

(** No function into the texts of 64 hexadecimal digits is injective on
    all texts: among the reports that differ in their summary only there are
    two with the same identifier. Which two, the counting does not say. *)
Lemma report_id_not_injective :
  ~ (forall summary summary' insights recs discl,
       summary <> summary' ->
       generate_report_id (report_text summary insights recs discl)
       <> generate_report_id (report_text summary' insights recs discl)).
Proof.
  intros Hinj.
  destruct (digest_collision (fun n => report_text (repeat_a n) "" "" ""))
    as (i & j & Hij & Heq).
  apply (Hinj (repeat_a i) (repeat_a j) "" "" "").
  - intros Hrep. apply (f_equal String.length) in Hrep.
    rewrite !repeat_a_length in Hrep. lia.
  - by apply generate_report_id_eq_iff.
Qed.

(** Changing one section changes the report text and its encoding; the
    identifier then changes exactly when the digests differ. *)
Lemma report_text_change a b c d a' b' c' d' :
  (a <> a' /\ b = b' /\ c = c' /\ d = d') \/
  (a = a' /\ b <> b' /\ c = c' /\ d = d') \/
  (a = a' /\ b = b' /\ c <> c' /\ d = d') \/
  (a = a' /\ b = b' /\ c = c' /\ d <> d') ->
  report_text a b c d <> report_text a' b' c' d' /\
  encode (report_text a b c d) <> encode (report_text a' b' c' d') /\
  (generate_report_id (report_text a b c d)
   <> generate_report_id (report_text a' b' c' d') <->
   Sha256.digest (encode (report_text a b c d))
   <> Sha256.digest (encode (report_text a' b' c' d'))).
Proof.
  intros Hchange.
  assert (Htext : report_text a b c d <> report_text a' b' c' d').
  { destruct Hchange as [(Hne & -> & -> & ->)|[(-> & Hne & -> & ->)|
      [(-> & -> & Hne & ->)|(-> & -> & -> & Hne)]]]; intros Heq; apply Hne.
    - by apply report_text_inj_1 in Heq.
    - by apply report_text_inj_2 in Heq.
    - by apply report_text_inj_3 in Heq.
    - by apply report_text_inj_4 in Heq. }
  split; [done|]. split.
  - intros Henc. by apply Htext, encode_inj.
  - by rewrite generate_report_id_eq_iff.
Qed.

(** ** The prompt builders *)

Lemma eq_str_true v s : eq_str v s = true <-> v = VStr s.
Proof.
  destruct v; simpl; try (split; [discriminate | by inversion 1]).
  rewrite String.eqb_eq. split; [by intros -> | by inversion 1].
Qed.

Lemma eq_str_false v s : eq_str v s = false <-> v <> VStr s.
Proof.
  rewrite <- eq_str_true. by destruct (eq_str v s).
Qed.

(** The note is one of the three, chosen by [risk_tolerance]. *)
Lemma risk_note_of_cases client_profile :
  let rt := default (VStr "moderate") (client_profile !! "risk_tolerance") in
  (rt = VStr "conservative" /\ risk_note_of client_profile = risk_note_conservative) \/
  (rt = VStr "aggressive" /\ risk_note_of client_profile = risk_note_aggressive) \/
  (rt <> VStr "conservative" /\ rt <> VStr "aggressive" /\
   risk_note_of client_profile = risk_note_moderate).
Proof.
  cbv zeta. unfold risk_note_of.
  destruct (eq_str _ "conservative") eqn:Hc.
  - left. by apply eq_str_true in Hc.
  - apply eq_str_false in Hc. destruct (eq_str _ "aggressive") eqn:Ha.
    + right; left. by apply eq_str_true in Ha.
    + apply eq_str_false in Ha. by right; right.
Qed.

Lemma compliance_note_of_cases region :
  (region = VStr "US" /\ compliance_note_of region = compliance_note_us) \/
  (region = VStr "EU" /\ compliance_note_of region = compliance_note_eu) \/
  (region <> VStr "US" /\ region <> VStr "EU" /\
   compliance_note_of region = compliance_note_generic).
Proof.
  unfold compliance_note_of.
  destruct (eq_str region "US") eqn:Hu.
  - left. by apply eq_str_true in Hu.
  - apply eq_str_false in Hu. destruct (eq_str region "EU") eqn:He.
    + right; left. by apply eq_str_true in He.
    + apply eq_str_false in He. by right; right.
Qed.

(** Close a goal about which sentences a concrete prompt holds. *)
Ltac notes_solve :=
  intros; try done; try congruence;
  first
    [ by vm_compute
    | exfalso;
      match goal with
      | Hin : contains _ _ = true |- _ => vm_compute in Hin; discriminate
      end ].

(** The text the portfolio-summary prompt builder renders holds exactly one
    of the three risk sentences, the one [risk_tolerance] selects. *)
Lemma portfolio_summary_template_note (client_profile : pydict) :
  let rt := client_profile !! "risk_tolerance" in
  let prompt := template (get_portfolio_summary_prompt client_profile) in
  let note := risk_note_of client_profile in
  prompt = portfolio_summary_text note /\
  (rt = Some (VStr "conservative") -> note = risk_note_conservative) /\
  (rt = Some (VStr "aggressive") -> note = risk_note_aggressive) /\
  (rt <> Some (VStr "conservative") -> rt <> Some (VStr "aggressive") ->
   note = risk_note_moderate) /\
  (contains risk_note_conservative prompt = true <-> note = risk_note_conservative) /\
  (contains risk_note_aggressive prompt = true <-> note = risk_note_aggressive) /\
  (contains risk_note_moderate prompt = true <-> note = risk_note_moderate) /\
  (rt = Some (VStr "aggressive") ->
   contains risk_note_aggressive prompt = true /\
   contains risk_note_conservative prompt = false /\
   contains risk_note_moderate prompt = false).
Proof.
  cbv zeta. cbn [template get_portfolio_summary_prompt].
  pose proof (risk_note_of_cases client_profile) as Hcases. cbv zeta in Hcases.
  split; [done|].
  destruct (client_profile !! "risk_tolerance") as [v|] eqn:Hrt; simpl in Hcases.
  - destruct Hcases as [[-> ->]|[[-> ->]|(Hc & Ha & ->)]];
      repeat split; notes_solve.
  - destruct Hcases as [[? ->]|[[? ->]|(Hc & Ha & ->)]];
      repeat split; notes_solve.
Qed.

(** The text the disclosures prompt builder renders holds exactly one of the
    three compliance sentences, the one [region] selects. *)
Lemma disclosures_template_note (region : pyval) :
  let prompt := template (get_disclosures_prompt region) in
  let note := compliance_note_of region in
  prompt = disclosures_text note /\
  (region = VStr "US" -> note = compliance_note_us) /\
  (region = VStr "EU" -> note = compliance_note_eu) /\
  (region <> VStr "US" -> region <> VStr "EU" -> note = compliance_note_generic) /\
  (contains compliance_note_us prompt = true <-> note = compliance_note_us) /\
  (contains compliance_note_eu prompt = true <-> note = compliance_note_eu) /\
  (contains compliance_note_generic prompt = true <-> note = compliance_note_generic) /\
  (region = VStr "EU" ->
   contains compliance_note_eu prompt = true /\
   contains compliance_note_us prompt = false /\
   contains compliance_note_generic prompt = false).
Proof.
  cbv zeta. cbn [template get_disclosures_prompt].
  pose proof (compliance_note_of_cases region) as Hcases.
  split; [done|].
  destruct Hcases as [[-> ->]|[[-> ->]|(Hc & Ha & ->)]];
    repeat split; notes_solve.
Qed.

Section Format.
Context `{Builtins}.

Lemma format_scan_ok kwargs t field fs :
  fields_scan t field = Some fs ->
  Forall (fun n => is_Some (kwargs !! n)) fs ->
  exists out, format_scan kwargs t field = inr out.
Proof.
  remember (String.length t) as n eqn:Hn.
  revert t field fs Hn.
  induction (lt_wf n) as [n _ IH]; intros t field fs Hn Hfs Hall.
  destruct t as [|c t]; cbn [fields_scan format_scan] in *.
  { destruct field; [done|]. by exists "". }
  simpl in Hn.
  assert (IH1 : forall field fs,
             fields_scan t field = Some fs ->
             Forall (fun n => is_Some (kwargs !! n)) fs ->
             exists out, format_scan kwargs t field = inr out).
  { intros f1 fs1. eapply (IH (String.length t)); [lia | done]. }
  destruct field as [name|].
  - destruct (Ascii.eqb c "}").
    + destruct (fields_scan t None) as [fs'|] eqn:Hfs'; [|done].
      inversion Hfs; subst. inversion Hall as [|? ? [v Hv] Hall']; subst.
      rewrite Hv. destruct (IH1 None fs' Hfs' Hall') as [out ->]. eauto.
    + by apply (IH1 _ fs).
  - destruct (Ascii.eqb c "{").
    + destruct t as [|c' t'']; [by apply (IH1 _ fs)|].
      assert (Hbrace : (c' = "{"%char /\
                        fields_scan t'' None = Some fs) \/
                       (c' <> "{"%char /\
                        fields_scan (String c' t'') (Some "") = Some fs)).
      { destruct (ascii_dec c' "{") as [->|Hne]; [by left|].
        right. split; [done|].
        destruct c' as [[] [] [] [] [] [] [] []]; done. }
      destruct Hbrace as [[-> Hfs'']|[Hne Hfs'']].
      * destruct (IH (String.length t'') ltac:(simpl in Hn; lia) t'' None fs
                    eq_refl Hfs'' Hall) as [out ->]. eauto.
      * destruct (IH1 _ fs Hfs'' Hall) as [out Hout]. exists out.
        destruct c' as [[] [] [] [] [] [] [] []]; done.
    + destruct (Ascii.eqb c "}").
      * destruct t as [|c' t'']; [done|].
        assert (Hbrace : c' = "}"%char /\ fields_scan t'' None = Some fs).
        { destruct c' as [[] [] [] [] [] [] [] []]; done. }
        destruct Hbrace as [-> Hfs''].
        destruct (IH (String.length t'') ltac:(simpl in Hn; lia) t'' None fs
                    eq_refl Hfs'' Hall) as [out ->]. eauto.
      * destruct (IH1 None fs Hfs Hall) as [out ->]. eauto.
Qed.

Lemma format_scan_literal kwargs lit t :
  no_brace lit = true ->
  format_scan kwargs (lit +:+ t) None =
  match format_scan kwargs t None with
  | inr out => inr (lit +:+ out)
  | inl e => inl e
  end.
Proof.
  intros Hlit. induction lit as [|c lit IH].
  - rewrite append_nil. by destruct (format_scan kwargs t None).
  - cbn [no_brace str_all] in Hlit. apply andb_true_iff in Hlit as [Hc Hlit].
    apply andb_true_iff in Hc as [Hc1 Hc2].
    apply negb_true_iff in Hc1, Hc2.
    rewrite append_cons. cbn [format_scan]. rewrite Hc1, Hc2, (IH Hlit).
    by destruct (format_scan kwargs t None).
Qed.

Lemma format_scan_in_field kwargs name t acc :
  no_brace name = true ->
  format_scan kwargs (name +:+ String "}" t) (Some acc) =
  match kwargs !! (acc +:+ name) with
  | Some v =>
      match format_scan kwargs t None with
      | inr out => inr (py_str v +:+ out)
      | inl e => inl e
      end
  | None => inl (KeyError (acc +:+ name))
  end.
Proof.
  revert acc. induction name as [|c name IH]; intros acc Hname.
  - rewrite append_nil. cbn [format_scan Ascii.eqb Bool.eqb].
    by rewrite append_nil_r.
  - cbn [no_brace str_all] in Hname. apply andb_true_iff in Hname as [Hc Hname].
    apply andb_true_iff in Hc as [_ Hc2]. apply negb_true_iff in Hc2.
    rewrite append_cons. cbn [format_scan]. rewrite Hc2, (IH _ Hname).
    by rewrite append_assoc.
Qed.

Lemma format_scan_field kwargs name t :
  no_brace name = true ->
  format_scan kwargs (placeholder name t) None =
  match kwargs !! name with
  | Some v =>
      match format_scan kwargs t None with
      | inr out => inr (py_str v +:+ out)
      | inl e => inl e
      end
  | None => inl (KeyError name)
  end.
Proof.
  intros Hname.
  pose proof (format_scan_in_field kwargs name t "" Hname) as Hf.
  rewrite !append_nil in Hf. rewrite <- Hf. clear Hf. unfold placeholder.
  destruct name as [|c name]; [done|].
  cbn [no_brace str_all] in Hname. apply andb_true_iff in Hname as [Hc _].
  apply andb_true_iff in Hc as [Hc1 _]. apply negb_true_iff in Hc1.
  rewrite append_cons.
  destruct c as [[] [] [] [] [] [] [] []]; try done.
Qed.

Lemma format_ok p kwargs fs :
  template_fields p = Some fs ->
  Forall (fun n => is_Some (kwargs !! n)) fs ->
  exists out, format p kwargs = inr out.
Proof. apply format_scan_ok. Qed.

End Format.

Section Handler.
Context `{JsonLib} `{Builtins} `{Generator}.

(** *** The input mapping *)

Ltac lookup_solve :=
  unfold build_input_data, build_client_profile; cbn [list_to_map foldr fst snd uncurry];
  repeat (rewrite lookup_insert_ne by done); by rewrite ?lookup_insert_eq.

Lemma input_portfolio_name data :
  build_input_data data !! "portfolio_name" = Some (of_opt (data !! "portfolio_name")).
Proof. lookup_solve. Qed.

Lemma input_date_range data :
  build_input_data data !! "date_range" = Some (of_opt (data !! "date_range")).
Proof. lookup_solve. Qed.

Lemma input_region data :
  build_input_data data !! "region" = Some (VStr (default "US" (data !! "region"))).
Proof. lookup_solve. Qed.

Lemma input_client_profile data :
  build_input_data data !! "client_profile" = Some (VDict (build_client_profile data)).
Proof. lookup_solve. Qed.

Lemma profile_name data :
  build_client_profile data !! "name" = Some (of_opt (data !! "client_name")).
Proof. lookup_solve. Qed.

Lemma profile_risk_tolerance data :
  build_client_profile data !! "risk_tolerance"
  = Some (VStr (default "moderate" (data !! "risk_tolerance"))).
Proof. lookup_solve. Qed.

Lemma input_no_summary data : build_input_data data !! "portfolio_summary" = None.
Proof.
  unfold build_input_data; cbn [list_to_map foldr fst snd uncurry].
  repeat (rewrite lookup_insert_ne by done). apply lookup_empty.
Qed.

(** Every key of the input mapping is there, whatever the form holds. *)
Lemma input_keys data n :
  n ∈ [ "portfolio_name"; "client_profile"; "benchmark"; "asset_allocation";
        "return_net"; "return_benchmark"; "risk_metrics"; "top_holdings";
        "underperforming_holdings"; "investment_products"; "market_outlook";
        "date_range"; "region" ] ->
  is_Some (build_input_data data !! n).
Proof.
  intros Hn. repeat (apply elem_of_cons in Hn as [->|Hn]; [eexists; lookup_solve|]).
  by apply elem_of_nil in Hn.
Qed.

(** *** The templates and their fields *)

Lemma summary_prompt_fields client_profile :
  template_fields (get_portfolio_summary_prompt client_profile)
  = Some [ "date_range"; "portfolio_name"; "client_profile"; "benchmark";
           "asset_allocation"; "return_net"; "return_benchmark"; "risk_metrics";
           "top_holdings"; "underperforming_holdings" ].
Proof.
  unfold template_fields, get_portfolio_summary_prompt, risk_note_of. cbn [template].
  destruct (eq_str _ "conservative"); [by vm_compute|].
  destruct (eq_str _ "aggressive"); by vm_compute.
Qed.

Lemma insights_prompt_fields :
  template_fields client_insights_prompt
  = Some [ "client_profile"; "portfolio_summary"; "risk_metrics"; "market_outlook" ].
Proof. by vm_compute. Qed.

Lemma recommendations_prompt_fields :
  template_fields recommendations_prompt
  = Some [ "client_profile"; "portfolio_summary"; "risk_metrics"; "market_outlook" ].
Proof. by vm_compute. Qed.

Lemma disclosures_prompt_fields region :
  template_fields (get_disclosures_prompt region)
  = Some [ "client_profile"; "investment_products"; "risk_metrics" ].
Proof.
  unfold template_fields, get_disclosures_prompt, compliance_note_of. cbn [template].
  destruct (eq_str _ "US"); [by vm_compute|].
  destruct (eq_str _ "EU"); by vm_compute.
Qed.

(** The input mapping once the summary is stored in it (line 197). *)
Lemma input_keys_summary data s n :
  n = "portfolio_summary" \/ is_Some (build_input_data data !! n) ->
  is_Some (<["portfolio_summary" := VStr s]> (build_input_data data) !! n).
Proof.
  intros [->|Hn]; [rewrite lookup_insert_eq; eauto|].
  destruct (decide (n = "portfolio_summary")) as [->|Hne].
  - rewrite lookup_insert_eq; eauto.
  - by rewrite lookup_insert_ne.
Qed.

(** None of the four calls of [format] in [index] raises. *)
Lemma format_summary_ok data :
  exists p,
    format (get_portfolio_summary_prompt (build_client_profile data))
      (build_input_data data) = inr p.
Proof.
  eapply format_ok; [apply summary_prompt_fields|].
  repeat constructor; apply input_keys; set_solver.
Qed.

Lemma format_insights_ok data s :
  exists p,
    format client_insights_prompt
      (<["portfolio_summary" := VStr s]> (build_input_data data)) = inr p.
Proof.
  eapply format_ok; [apply insights_prompt_fields|].
  repeat constructor; apply input_keys_summary;
    first [by left | right; apply input_keys; set_solver].
Qed.

Lemma format_recommendations_ok data s :
  exists p,
    format recommendations_prompt
      (<["portfolio_summary" := VStr s]> (build_input_data data)) = inr p.
Proof.
  eapply format_ok; [apply recommendations_prompt_fields|].
  repeat constructor; apply input_keys_summary;
    first [by left | right; apply input_keys; set_solver].
Qed.

Lemma format_disclosures_ok data s region :
  exists p,
    format (get_disclosures_prompt region)
      (<["portfolio_summary" := VStr s]> (build_input_data data)) = inr p.
Proof.
  eapply format_ok; [apply disclosures_prompt_fields|].
  repeat constructor; apply input_keys_summary;
    right; apply input_keys; set_solver.
Qed.

(** *** The two static prompts, rendered *)

Lemma format_context kwargs tail v1 v2 v3 v4 :
  no_brace tail = true ->
  kwargs !! "client_profile" = Some v1 ->
  kwargs !! "portfolio_summary" = Some v2 ->
  kwargs !! "risk_metrics" = Some v3 ->
  kwargs !! "market_outlook" = Some v4 ->
  format_scan kwargs
    ((nl +:+ "Client Profile: ") +:+ placeholder "client_profile"
     ((nl +:+ "Portfolio Summary: ") +:+ placeholder "portfolio_summary"
     ((nl +:+ "Risk Metrics: ") +:+ placeholder "risk_metrics"
     ((nl +:+ "Market Outlook: ") +:+ placeholder "market_outlook"
     (tail +:+ ""))))) None
  = inr (rendered_context (py_str v1) (py_str v2) (py_str v3) (py_str v4) +:+ tail).
Proof.
  intros Htail H1' H2' H3' H4'.
  rewrite format_scan_literal by done. rewrite format_scan_field by done. rewrite H1'.
  rewrite format_scan_literal by done. rewrite format_scan_field by done. rewrite H2'.
  rewrite format_scan_literal by done. rewrite format_scan_field by done. rewrite H3'.
  rewrite format_scan_literal by done. rewrite format_scan_field by done. rewrite H4'.
  rewrite format_scan_literal by done. cbn [format_scan].
  unfold rendered_context. by rewrite append_nil_r, !append_assoc.
Qed.

Lemma format_client_insights kwargs v1 v2 v3 v4 :
  kwargs !! "client_profile" = Some v1 ->
  kwargs !! "portfolio_summary" = Some v2 ->
  kwargs !! "risk_metrics" = Some v3 ->
  kwargs !! "market_outlook" = Some v4 ->
  format client_insights_prompt kwargs
  = inr (rendered_context (py_str v1) (py_str v2) (py_str v3) (py_str v4)
         +:+ insights_instructions).
Proof.
  intros H1' H2' H3' H4'.
  rewrite <- (format_context kwargs insights_instructions v1 v2 v3 v4) by done.
  reflexivity.
Qed.

Lemma format_recommendations kwargs v1 v2 v3 v4 :
  kwargs !! "client_profile" = Some v1 ->
  kwargs !! "portfolio_summary" = Some v2 ->
  kwargs !! "risk_metrics" = Some v3 ->
  kwargs !! "market_outlook" = Some v4 ->
  format recommendations_prompt kwargs
  = inr (rendered_context (py_str v1) (py_str v2) (py_str v3) (py_str v4)
         +:+ recommendations_instructions).
Proof.
  intros H1' H2' H3' H4'.
  rewrite <- (format_context kwargs recommendations_instructions v1 v2 v3 v4) by done.
  reflexivity.
Qed.

(** *** [build_report], call by call *)

Lemma build_report_run data w :
  let w0 := after_print data w in
  if required_present data then
    exists p1,
      format (get_portfolio_summary_prompt (build_client_profile data))
        (build_input_data data) = inr p1 /\
      let '(r1, g1) := generator p1 (gen w) in
      let w1 := after_generate p1 r1 g1 w0 in
      match r1 with
      | inl e => build_report data w = (inl e, w1)
      | inr t1 =>
          let s := extract_portfolio_summary t1 in
          exists p2,
            format client_insights_prompt (with_summary data s) = inr p2 /\
            let '(r2, g2) := generator p2 g1 in
            let w2 := after_generate p2 r2 g2 w1 in
            match r2 with
            | inl e => build_report data w = (inl e, w2)
            | inr t2 =>
                exists p3,
                  format recommendations_prompt (with_summary data s) = inr p3 /\
                  let '(r3, g3) := generator p3 g2 in
                  let w3 := after_generate p3 r3 g3 w2 in
                  match r3 with
                  | inl e => build_report data w = (inl e, w3)
                  | inr t3 =>
                      exists p4,
                        format (get_disclosures_prompt
                                  (VStr (default "US" (data !! "region"))))
                          (with_summary data s) = inr p4 /\
                        let '(r4, g4) := generator p4 g3 in
                        let w4 := after_generate p4 r4 g4 w3 in
                        match r4 with
                        | inl e => build_report data w = (inl e, w4)
                        | inr t4 =>
                            build_report data w =
                            (inr {| report_id :=
                                      generate_report_id (report_text s t2 t3 t4);
                                    portfolio_summary := s;
                                    client_insights := t2;
                                    recommendations := t3;
                                    disclosures := t4;
                                    input_data := with_summary data s |},
                             w4)
                        end
                  end
            end
      end
  else build_report data w = (inl (ValueError missing_fields_message), w0).
Proof.
  cbv zeta.
  unfold build_report, bind, lift, getitem, print, log, ret, raise, generate.
  rewrite input_portfolio_name, profile_name, input_date_range.
  fold (required_present data). fold (after_print data w).
  destruct (required_present data); [|done].
  destruct (format_summary_ok data) as [p1 Hp1]. exists p1. split; [done|].
  rewrite Hp1. cbn [gen after_print add_event].
  destruct (generator p1 (gen w)) as [[e1|t1] g1]; [done|].
  fold (with_summary data (extract_portfolio_summary t1)).
  destruct (format_insights_ok data (extract_portfolio_summary t1)) as [p2 Hp2].
  exists p2. split; [done|]. unfold with_summary in Hp2 |- *.
  rewrite Hp2. cbn [gen set_gen add_event].
  destruct (generator p2 g1) as [[e2|t2] g2]; [done|].
  destruct (format_recommendations_ok data (extract_portfolio_summary t1)) as [p3 Hp3].
  exists p3. split; [done|].
  rewrite Hp3. cbn [gen set_gen add_event].
  destruct (generator p3 g2) as [[e3|t3] g3]; [done|].
  destruct (format_disclosures_ok data (extract_portfolio_summary t1)
              (VStr (default "US" (data !! "region")))) as [p4 Hp4].
  exists p4. split; [done|].
  rewrite lookup_insert_ne by done. rewrite input_region.
  rewrite Hp4. cbn [gen set_gen add_event].
  by destruct (generator p4 g3) as [[e4|t4] g4].
Qed.

(** The identifier of the report [index] builds is that of its four
    sections (lines 210-211). *)
Lemma build_report_id data w rd w' :
  build_report data w = (inr rd, w') ->
  report_id rd
  = generate_report_id
      (report_text (portfolio_summary rd) (client_insights rd)
         (recommendations rd) (disclosures rd)).
Proof.
  intros Hb. pose proof (build_report_run data w) as Hrun. cbv zeta in Hrun.
  destruct (required_present data); [|by rewrite Hrun in Hb].
  destruct Hrun as (p1 & _ & Hrun).
  destruct (generator p1 (gen w)) as [[e1|t1] g1]; [by rewrite Hrun in Hb|].
  destruct Hrun as (p2 & _ & Hrun).
  destruct (generator p2 g1) as [[e2|t2] g2]; [by rewrite Hrun in Hb|].
  destruct Hrun as (p3 & _ & Hrun).
  destruct (generator p3 g2) as [[e3|t3] g3]; [by rewrite Hrun in Hb|].
  destruct Hrun as (p4 & _ & Hrun).
  destruct (generator p4 g3) as [[e4|t4] g4]; [by rewrite Hrun in Hb|].
  rewrite Hrun in Hb. by inversion Hb.
Qed.

(** What can be stated of the identifier. It is a function of the
    canonical report text, the four sections joined by newlines in the order
    summary, insights, recommendations, disclosures: the same four sections
    give the same identifier; changing any one section changes the text and
    its encoding, and then the identifier changes exactly when the SHA-256
    digests of the two encodings differ. Whether two texts met in practice
    have different digests is not a statement about this program. *)
Theorem report_id_deterministic :
  (forall data w rd w',
     build_report data w = (inr rd, w') ->
     report_id rd
     = generate_report_id
         (report_text (portfolio_summary rd) (client_insights rd)
            (recommendations rd) (disclosures rd))) /\
  (forall a b c d,
     report_text a b c d = a +:+ nl +:+ b +:+ nl +:+ c +:+ nl +:+ d) /\
  (forall a b c d a' b' c' d',
     a = a' -> b = b' -> c = c' -> d = d' ->
     generate_report_id (report_text a b c d)
     = generate_report_id (report_text a' b' c' d')) /\
  (forall a b c d a' b' c' d',
     (a <> a' /\ b = b' /\ c = c' /\ d = d') \/
     (a = a' /\ b <> b' /\ c = c' /\ d = d') \/
     (a = a' /\ b = b' /\ c <> c' /\ d = d') \/
     (a = a' /\ b = b' /\ c = c' /\ d <> d') ->
     report_text a b c d <> report_text a' b' c' d' /\
     encode (report_text a b c d) <> encode (report_text a' b' c' d') /\
     (generate_report_id (report_text a b c d)
      <> generate_report_id (report_text a' b' c' d') <->
      Sha256.digest (encode (report_text a b c d))
      <> Sha256.digest (encode (report_text a' b' c' d')))).
Proof.
  split; [apply build_report_id|]. split; [done|]. split; [by intros; subst|].
  intros a b c d a' b' c' d'. apply report_text_change.
Qed.

(** *** Events of a request *)

Lemma new_events_app (w w' : World) l :
  events w' = (events w ++ l)%list -> new_events w w' = l.
Proof. unfold new_events. intros ->. by rewrite drop_app_length. Qed.

(** Bring the events of the world reached into the form [events w ++ l]. *)
Ltac events_solve :=
  apply new_events_app;
  cbn [events after_print after_generate add_event set_gen set_file];
  rewrite <- ?app_assoc; reflexivity.

(** Close a membership in a short list of events, by cases on them. *)
Ltac in_events Hin :=
  repeat (apply elem_of_cons in Hin as [Hin|Hin]; [try discriminate Hin|]);
  try (apply elem_of_nil in Hin; destruct Hin).

(** What is known of the prompts is of no use once the run is unfolded. *)
Ltac clear_formats :=
  repeat match goal with Hf : format _ _ = _ |- _ => clear Hf end.

Lemma required_missing data :
  data !! "portfolio_name" = None \/ data !! "client_name" = None \/
  data !! "date_range" = None ->
  required_present data = false.
Proof.
  unfold required_present. intros [-> | [-> | ->]]; cbn [forallb of_opt truthy andb];
    [done| |]; rewrite ?andb_false_r; done.
Qed.

Lemma index_post data w r w1 :
  build_report data w = (r, w1) ->
  index POST data w =
  match r with
  | inl e => (inr {| report := Some (error_html e); shown_report_id := None |}, w1)
  | inr rd =>
      match save_report rd w1 with
      | (inr _, w2) =>
          (inr {| report := Some (report_html rd);
                  shown_report_id := Some (report_id rd) |}, w2)
      | (inl e, w2) =>
          (inr {| report := Some (error_html e);
                  shown_report_id := Some (report_id rd) |}, w2)
      end
  end.
Proof.
  intros Hb. unfold index, try_except, bind, ret. rewrite Hb.
  destruct r as [e|rd]; [done|].
  by destruct (save_report rd w1) as [[e|[]] w2].
Qed.

(** What [save_report] adds to the events and does to the generator. *)
Lemma save_report_events rd w :
  exists line,
    events (snd (save_report rd w)) = (events w ++ [ESaveReport rd; EPrint line])%list /\
    gen (snd (save_report rd w)) = gen w.
Proof.
  pose proof (save_report_cases rd w) as Hc.
  destruct (stored_mapping w) as [d|], (open_error w) as [e|].
  2: { rewrite Hc. eexists. world_simpl. by rewrite <- app_assoc. }
  all: destruct Hc as [e' ->]; eexists; world_simpl; by rewrite <- app_assoc.
Qed.

(** ** The claims on the handler *)

(** C3. A POST in which one of the three required fields is missing fails
    with the validation error before any call of the generator: the
    generator is not called and keeps its state, the store is untouched, and
    the page shows the error message. *)
Theorem missing_field_fails_before_generation data w :
  data !! "portfolio_name" = None \/ data !! "client_name" = None \/
  data !! "date_range" = None ->
  exists w',
    index POST data w =
    (inr {| report := Some (error_html (ValueError missing_fields_message));
            shown_report_id := None |}, w') /\
    build_report data w = (inl (ValueError missing_fields_message), w') /\
    (forall p r, EGenerate p r ∉ new_events w w') /\
    (forall rd, ESaveReport rd ∉ new_events w w') /\
    gen w' = gen w /\ file w' = file w.
Proof.
  intros Hmiss%required_missing.
  pose proof (build_report_run data w) as Hrun. cbv zeta in Hrun.
  rewrite Hmiss in Hrun.
  exists (after_print data w).
  assert (Hev : new_events w (after_print data w)
                = [EPrint ("Input Data: " +:+ py_repr (VDict (build_input_data data)))])
    by events_solve.
  split; [|split; [done|]].
  - unfold index, try_except, bind. by rewrite Hrun.
  - rewrite Hev. repeat split; try done.
    + intros p r Hin. in_events Hin.
    + intros rd Hin. in_events Hin.
Qed.

(** C2. When the generator raises on one of the generation calls of a
    request, the request fails as a whole: the page shows that error and no
    identifier, [save_report] is not called, and the store file is exactly
    as it was. *)
Theorem generation_failure_saves_nothing data w p e :
  EGenerate p (inl e) ∈ new_events w (snd (index POST data w)) ->
  fst (index POST data w)
  = inr {| report := Some (error_html e); shown_report_id := None |} /\
  build_report data w = (inl e, snd (index POST data w)) /\
  (forall rd, ESaveReport rd ∉ new_events w (snd (index POST data w))) /\
  file (snd (index POST data w)) = file w.
Proof.
  (* a call that failed is the last event of the request *)
  assert (Hfail : forall w' e' l,
            build_report data w = (inl e', w') ->
            events w' = (events w ++ l)%list ->
            file w' = file w ->
            (EGenerate p (inl e) ∈ l -> e = e') ->
            (forall rd, ESaveReport rd ∉ l) ->
            EGenerate p (inl e) ∈ new_events w (snd (index POST data w)) ->
            fst (index POST data w)
            = inr {| report := Some (error_html e); shown_report_id := None |} /\
            build_report data w = (inl e, snd (index POST data w)) /\
            (forall rd, ESaveReport rd ∉ new_events w (snd (index POST data w))) /\
            file (snd (index POST data w)) = file w).
  { intros w' e' l Hb Hev Hfile Hlast Hnosave.
    rewrite (index_post _ _ _ _ Hb). cbn [fst snd].
    rewrite (new_events_app _ _ _ Hev). intros Hin.
    rewrite (Hlast Hin). by repeat split. }
  pose proof (build_report_run data w) as Hrun. cbv zeta in Hrun.
  destruct (required_present data).
  2: { eapply Hfail; [exact Hrun | unfold after_print; world_simpl; reflexivity
                     | done | |]; clear Hrun Hfail.
       - intros Hin. in_events Hin.
       - intros rd Hin. in_events Hin. }
  destruct Hrun as (p1 & Hp1 & Hrun).
  destruct (generator p1 (gen w)) as [[e1|t1] g1].
  { eapply Hfail;
      [exact Hrun
      |unfold after_print, after_generate; world_simpl; rewrite <- ?app_assoc; reflexivity
      |done | |]; clear Hrun Hfail; clear_formats.
    - intros Hin. in_events Hin. by inversion Hin.
    - intros rd Hin. in_events Hin. }
  destruct Hrun as (p2 & Hp2 & Hrun).
  destruct (generator p2 g1) as [[e2|t2] g2].
  { eapply Hfail;
      [exact Hrun
      |unfold after_print, after_generate; world_simpl; rewrite <- ?app_assoc; reflexivity
      |done | |]; clear Hrun Hfail; clear_formats.
    - intros Hin. in_events Hin. by inversion Hin.
    - intros rd Hin. in_events Hin. }
  destruct Hrun as (p3 & Hp3 & Hrun).
  destruct (generator p3 g2) as [[e3|t3] g3].
  { eapply Hfail;
      [exact Hrun
      |unfold after_print, after_generate; world_simpl; rewrite <- ?app_assoc; reflexivity
      |done | |]; clear Hrun Hfail; clear_formats.
    - intros Hin. in_events Hin. by inversion Hin.
    - intros rd Hin. in_events Hin. }
  destruct Hrun as (p4 & Hp4 & Hrun).
  destruct (generator p4 g3) as [[e4|t4] g4].
  { eapply Hfail;
      [exact Hrun
      |unfold after_print, after_generate; world_simpl; rewrite <- ?app_assoc; reflexivity
      |done | |]; clear Hrun Hfail; clear_formats.
    - intros Hin. in_events Hin. by inversion Hin.
    - intros rd Hin. in_events Hin. }
  (* the four calls returned: no failed call among the events *)
  clear Hfail. rewrite (index_post _ _ _ _ Hrun). clear Hrun. clear_formats.
  match goal with |- context [save_report ?rd ?w4] =>
    destruct (save_report_events rd w4) as (line & Hev & _);
    destruct (save_report rd w4) as [[e'|[]] w5] end;
  cbn [fst snd] in *;
  (erewrite new_events_app by (rewrite Hev;
     unfold after_print, after_generate; world_simpl;
     rewrite <- ?app_assoc; reflexivity));
  intros Hin; in_events Hin.
Qed.

(** The context of the two static prompts, for the handler's input. *)
Lemma format_static_prompts data s :
  let context :=
    rendered_context (py_repr (VDict (build_client_profile data))) s
      (py_str (of_opt (data !! "risk_metrics")))
      (py_str (of_opt (data !! "market_outlook"))) in
  format client_insights_prompt (with_summary data s)
  = inr (context +:+ insights_instructions) /\
  format recommendations_prompt (with_summary data s)
  = inr (context +:+ recommendations_instructions).
Proof.
  assert (Hcp : with_summary data s !! "client_profile"
                = Some (VDict (build_client_profile data))).
  { unfold with_summary. rewrite lookup_insert_ne by done. apply input_client_profile. }
  assert (Hps : with_summary data s !! "portfolio_summary" = Some (VStr s)).
  { unfold with_summary. apply lookup_insert_eq. }
  assert (Hrm : with_summary data s !! "risk_metrics"
                = Some (of_opt (data !! "risk_metrics"))).
  { unfold with_summary. rewrite lookup_insert_ne by done. lookup_solve. }
  assert (Hmo : with_summary data s !! "market_outlook"
                = Some (of_opt (data !! "market_outlook"))).
  { unfold with_summary. rewrite lookup_insert_ne by done. lookup_solve. }
  split.
  - apply (format_client_insights _ _ _ _ _ Hcp Hps Hrm Hmo).
  - apply (format_recommendations _ _ _ _ _ Hcp Hps Hrm Hmo).
Qed.

End Handler.

(** ** The prompts with a note, rendered *)

Lemma startswith_app p s : startswith p (p +:+ s) = true.
Proof.
  induction p as [|c p IH]; [done|]. rewrite append_cons. cbn [startswith].
  by rewrite Ascii.eqb_refl.
Qed.

Lemma contains_app_r p s t : contains p t = true -> contains p (s +:+ t) = true.
Proof.
  intros Ht. induction s as [|c s IH]; [done|].
  rewrite append_cons. cbn [contains]. rewrite IH. apply orb_true_r.
Qed.

Lemma contains_startswith p s : startswith p s = true -> contains p s = true.
Proof. intros Hp. destruct s; cbn [contains]; by rewrite Hp. Qed.

Lemma contains_middle p s t : contains p (s +:+ p +:+ t) = true.
Proof. apply contains_app_r, contains_startswith, startswith_app. Qed.

(** A text without newlines occurs in a text of two parts with a newline
    between them only inside one of the parts. *)
Lemma startswith_split p h c t :
  str_all (fun x => negb (Ascii.eqb x c)) p = true ->
  startswith p (h +:+ String c t) = startswith p h.
Proof.
  revert h. induction p as [|a p IH]; intros h Hp; [by destruct h|].
  cbn [str_all] in Hp. apply andb_true_iff in Hp as [Ha Hp].
  apply negb_true_iff in Ha.
  destruct h as [|b h].
  - rewrite append_nil. cbn [startswith]. by rewrite Ha.
  - rewrite append_cons. cbn [startswith]. by rewrite (IH h Hp).
Qed.

Lemma contains_split p h c t :
  p <> "" -> str_all (fun x => negb (Ascii.eqb x c)) p = true ->
  contains p (h +:+ String c t) = contains p h || contains p t.
Proof.
  intros Hne Hp. induction h as [|b h IH].
  - rewrite append_nil.
    pose proof (startswith_split p "" c t Hp) as Hs. rewrite append_nil in Hs.
    cbn [contains]. rewrite Hs. destruct p; [done|]. by cbn [startswith].
  - rewrite append_cons. cbn [contains].
    pose proof (startswith_split p (String b h) c t Hp) as Hs.
    rewrite append_cons in Hs. by rewrite Hs, IH, !orb_assoc.
Qed.

Lemma contains_before_newline p h t :
  p <> "" -> no_newline p = true ->
  contains p (h +:+ nl +:+ t) = contains p h || contains p t.
Proof. intros Hne Hp. by apply (contains_split p h "010" t). Qed.

Section Rendered.
Context `{Builtins}.

(** The portfolio-summary prompt, rendered: its ten fields filled in, and
    then the note and the instructions as the builder wrote them. *)
Lemma format_portfolio_summary client_profile kwargs
    v1 v2 v3 v4 v5 v6 v7 v8 v9 v10 :
  no_brace (risk_note_of client_profile) = true ->
  kwargs !! "date_range" = Some v1 ->
  kwargs !! "portfolio_name" = Some v2 ->
  kwargs !! "client_profile" = Some v3 ->
  kwargs !! "benchmark" = Some v4 ->
  kwargs !! "asset_allocation" = Some v5 ->
  kwargs !! "return_net" = Some v6 ->
  kwargs !! "return_benchmark" = Some v7 ->
  kwargs !! "risk_metrics" = Some v8 ->
  kwargs !! "top_holdings" = Some v9 ->
  kwargs !! "underperforming_holdings" = Some v10 ->
  format (get_portfolio_summary_prompt client_profile) kwargs
  = inr ((nl +:+ "Provide a detailed portfolio performance summary for ") +:+ py_str v1 +:+
         ("." +:+ nl +:+ nl +:+ "Portfolio Name: ") +:+ py_str v2 +:+
         (nl +:+ "Client Profile: ") +:+ py_str v3 +:+
         (nl +:+ "Benchmark: ") +:+ py_str v4 +:+
         (nl +:+ "Asset Allocation: ") +:+ py_str v5 +:+
         (nl +:+ "Net Return: ") +:+ py_str v6 +:+
         " (Benchmark Return: " +:+ py_str v7 +:+
         (")" +:+ nl +:+ "Risk Metrics: ") +:+ py_str v8 +:+
         (nl +:+ "Top Holdings: ") +:+ py_str v9 +:+
         (nl +:+ "Underperforming Holdings: ") +:+ py_str v10 +:+
         (nl +:+ nl) +:+ risk_note_of client_profile +:+ nl +:+ summary_instructions).
Proof.
  intros Hnote H1' H2' H3' H4' H5' H6' H7' H8' H9' H10'.
  unfold format. cbn [template get_portfolio_summary_prompt].
  set (note := risk_note_of client_profile) in *.
  change (portfolio_summary_text note) with
    ((nl +:+ "Provide a detailed portfolio performance summary for ") +:+
       placeholder "date_range"
     (("." +:+ nl +:+ nl +:+ "Portfolio Name: ") +:+ placeholder "portfolio_name"
     ((nl +:+ "Client Profile: ") +:+ placeholder "client_profile"
     ((nl +:+ "Benchmark: ") +:+ placeholder "benchmark"
     ((nl +:+ "Asset Allocation: ") +:+ placeholder "asset_allocation"
     ((nl +:+ "Net Return: ") +:+ placeholder "return_net"
     (" (Benchmark Return: " +:+ placeholder "return_benchmark"
     ((")" +:+ nl +:+ "Risk Metrics: ") +:+ placeholder "risk_metrics"
     ((nl +:+ "Top Holdings: ") +:+ placeholder "top_holdings"
     ((nl +:+ "Underperforming Holdings: ") +:+ placeholder "underperforming_holdings"
     ((nl +:+ nl) +:+ note +:+ (nl +:+ summary_instructions) +:+ ""))))))))))).
  rewrite format_scan_literal by done. rewrite format_scan_field by done. rewrite H1'.
  rewrite format_scan_literal by done. rewrite format_scan_field by done. rewrite H2'.
  rewrite format_scan_literal by done. rewrite format_scan_field by done. rewrite H3'.
  rewrite format_scan_literal by done. rewrite format_scan_field by done. rewrite H4'.
  rewrite format_scan_literal by done. rewrite format_scan_field by done. rewrite H5'.
  rewrite format_scan_literal by done. rewrite format_scan_field by done. rewrite H6'.
  rewrite format_scan_literal by done. rewrite format_scan_field by done. rewrite H7'.
  rewrite format_scan_literal by done. rewrite format_scan_field by done. rewrite H8'.
  rewrite format_scan_literal by done. rewrite format_scan_field by done. rewrite H9'.
  rewrite format_scan_literal by done. rewrite format_scan_field by done. rewrite H10'.
  rewrite format_scan_literal by done.
  rewrite format_scan_literal by done.
  rewrite format_scan_literal by done.
  cbn [format_scan]. by rewrite append_nil_r.
Qed.

Lemma risk_note_no_brace client_profile :
  no_brace (risk_note_of client_profile) = true.
Proof.
  destruct (risk_note_of_cases client_profile) as [[_ ->]|[[_ ->]|(_ & _ & ->)]];
    by vm_compute.
Qed.

Lemma compliance_note_no_brace region :
  no_brace (compliance_note_of region) = true.
Proof.
  destruct (compliance_note_of_cases region) as [[_ ->]|[[_ ->]|(_ & _ & ->)]];
    by vm_compute.
Qed.

(** Whatever the fields hold, the rendered portfolio-summary prompt holds
    the note the builder chose. *)
Lemma rendered_summary_prompt_holds_note client_profile kwargs :
  Forall (fun n => is_Some (kwargs !! n))
    (input_variables (get_portfolio_summary_prompt client_profile)) ->
  exists out,
    format (get_portfolio_summary_prompt client_profile) kwargs = inr out /\
    contains (risk_note_of client_profile) out = true.
Proof.
  cbn [input_variables get_portfolio_summary_prompt]. intros Hall.
  repeat match goal with
         | Hf : Forall _ (_ :: _) |- _ =>
             let Hv := fresh "Hv" in
             apply Forall_cons in Hf as [[? Hv] Hf]
         end.
  eexists. split.
  - by apply format_portfolio_summary; [apply risk_note_no_brace|..].
  - repeat first [ apply contains_startswith; apply startswith_app
                   | apply contains_app_r ].
Qed.

(** The disclosures prompt, rendered. *)
Lemma format_disclosures region kwargs v1 v2 v3 :
  kwargs !! "client_profile" = Some v1 ->
  kwargs !! "investment_products" = Some v2 ->
  kwargs !! "risk_metrics" = Some v3 ->
  format (get_disclosures_prompt region) kwargs
  = inr ((nl +:+ "Client Profile: ") +:+ py_str v1 +:+
         (nl +:+ "Investment Products: ") +:+ py_str v2 +:+
         (nl +:+ "Risk Metrics: ") +:+ py_str v3 +:+
         (nl +:+ disclosures_head) +:+ compliance_note_of region +:+
         nl +:+ disclosures_tail).
Proof.
  intros H1' H2' H3'.
  pose proof (compliance_note_no_brace region) as Hnote.
  unfold format. cbn [template get_disclosures_prompt].
  set (note := compliance_note_of region) in *.
  change (disclosures_text note) with
    ((nl +:+ "Client Profile: ") +:+ placeholder "client_profile"
     ((nl +:+ "Investment Products: ") +:+ placeholder "investment_products"
     ((nl +:+ "Risk Metrics: ") +:+ placeholder "risk_metrics"
     ((nl +:+ disclosures_head) +:+ note +:+ (nl +:+ disclosures_tail) +:+ "")))).
  rewrite format_scan_literal by done. rewrite format_scan_field by done. rewrite H1'.
  rewrite format_scan_literal by done. rewrite format_scan_field by done. rewrite H2'.
  rewrite format_scan_literal by done. rewrite format_scan_field by done. rewrite H3'.
  rewrite format_scan_literal by done.
  rewrite format_scan_literal by done.
  rewrite format_scan_literal by done.
  cbn [format_scan]. by rewrite append_nil_r.
Qed.

(** Whatever the fields hold, the rendered disclosures prompt holds the note
    the builder chose. *)
Lemma rendered_disclosures_prompt_holds_note region kwargs :
  Forall (fun n => is_Some (kwargs !! n))
    (input_variables (get_disclosures_prompt region)) ->
  exists out,
    format (get_disclosures_prompt region) kwargs = inr out /\
    contains (compliance_note_of region) out = true.
Proof.
  cbn [input_variables get_disclosures_prompt]. intros Hall.
  repeat match goal with
         | Hf : Forall _ (_ :: _) |- _ =>
             let Hv := fresh "Hv" in
             apply Forall_cons in Hf as [[? Hv] Hf]
         end.
  eexists. split.
  - by apply format_disclosures.
  - repeat first [ apply contains_startswith; apply startswith_app
                   | apply contains_app_r ].
Qed.

(** The rendered portfolio-summary prompt, part by part: the fields, then
    the sentence the builder chose. Another of the three sentences is in the
    prompt exactly when the part that shows the fields holds it. *)
Lemma rendered_summary_prompt_parts client_profile kwargs :
  Forall (fun n => is_Some (kwargs !! n))
    (input_variables (get_portfolio_summary_prompt client_profile)) ->
  exists out,
    format (get_portfolio_summary_prompt client_profile) kwargs = inr out /\
    out = summary_fields_text kwargs +:+ (nl +:+ nl) +:+
          risk_note_of client_profile +:+ nl +:+ summary_instructions /\
    contains (risk_note_of client_profile) out = true /\
    forall other,
      other ∈ [ risk_note_conservative; risk_note_aggressive; risk_note_moderate ] ->
      other <> risk_note_of client_profile ->
      contains other out = contains other (summary_fields_text kwargs).
Proof.
  cbn [input_variables get_portfolio_summary_prompt]. intros Hall.
  repeat match goal with
         | Hf : Forall _ (_ :: _) |- _ =>
             let Hv := fresh "Hv" in
             apply Forall_cons in Hf as [[? Hv] Hf]
         end.
  eexists. split.
  { by apply format_portfolio_summary; [apply risk_note_no_brace|..]. }
  split.
  { unfold summary_fields_text.
    rewrite Hv, Hv0, Hv1, Hv2, Hv3, Hv4, Hv5, Hv6, Hv7, Hv8.
    simpl default. by rewrite !append_assoc. }
  split.
  { repeat first [ apply contains_startswith; apply startswith_app
                 | apply contains_app_r ]. }
  intros other Hother Hne.
  transitivity
    (contains other
       (summary_fields_text kwargs +:+ nl +:+
        (nl +:+ risk_note_of client_profile +:+ nl +:+ summary_instructions))).
  { f_equal. unfold summary_fields_text.
    rewrite Hv, Hv0, Hv1, Hv2, Hv3, Hv4, Hv5, Hv6, Hv7, Hv8.
    simpl default. by rewrite !append_assoc. }
  clear Hv Hv0 Hv1 Hv2 Hv3 Hv4 Hv5 Hv6 Hv7 Hv8 Hall.
  generalize (summary_fields_text kwargs). intros fields.
  revert Hne.
  destruct (risk_note_of_cases client_profile) as [[_ ->]|[[_ ->]|(_ & _ & ->)]];
    repeat (apply elem_of_cons in Hother as [->|Hother]);
    try (by apply elem_of_nil in Hother);
    intros Hne; try done;
    rewrite contains_before_newline by (by vm_compute);
    match goal with
    | |- _ || ?x = _ => assert (x = false) as -> by (by vm_compute)
    end;
    apply orb_false_r.
Qed.

(** The same for the rendered disclosures prompt. *)
Lemma rendered_disclosures_prompt_parts region kwargs :
  Forall (fun n => is_Some (kwargs !! n))
    (input_variables (get_disclosures_prompt region)) ->
  exists out,
    format (get_disclosures_prompt region) kwargs = inr out /\
    out = disclosures_fields_text kwargs +:+ (nl +:+ disclosures_head) +:+
          compliance_note_of region +:+ nl +:+ disclosures_tail /\
    contains (compliance_note_of region) out = true /\
    forall other,
      other ∈ [ compliance_note_us; compliance_note_eu; compliance_note_generic ] ->
      other <> compliance_note_of region ->
      contains other out = contains other (disclosures_fields_text kwargs).
Proof.
  cbn [input_variables get_disclosures_prompt]. intros Hall.
  repeat match goal with
         | Hf : Forall _ (_ :: _) |- _ =>
             let Hv := fresh "Hv" in
             apply Forall_cons in Hf as [[? Hv] Hf]
         end.
  eexists. split.
  { by apply format_disclosures. }
  split.
  { unfold disclosures_fields_text. rewrite Hv, Hv0, Hv1.
    simpl default. by rewrite !append_assoc. }
  split.
  { repeat first [ apply contains_startswith; apply startswith_app
                 | apply contains_app_r ]. }
  intros other Hother Hne.
  transitivity
    (contains other
       (disclosures_fields_text kwargs +:+ nl +:+
        (disclosures_head +:+ compliance_note_of region +:+ nl +:+ disclosures_tail))).
  { f_equal. unfold disclosures_fields_text. rewrite Hv, Hv0, Hv1.
    simpl default. by rewrite !append_assoc. }
  clear Hv Hv0 Hv1 Hall.
  generalize (disclosures_fields_text kwargs). intros fields.
  revert Hne.
  destruct (compliance_note_of_cases region) as [[_ ->]|[[_ ->]|(_ & _ & ->)]];
    repeat (apply elem_of_cons in Hother as [->|Hother]);
    try (by apply elem_of_nil in Hother);
    intros Hne; try done;
    rewrite contains_before_newline by (by vm_compute);
    match goal with
    | |- _ || ?x = _ => assert (x = false) as -> by (by vm_compute)
    end;
    apply orb_false_r.
Qed.

(** ** The claims on the prompt builders *)

(** C6. For every client profile the portfolio-summary prompt builder puts
    exactly one of the three risk sentences into the template it returns:
    the conservative one for "conservative", the aggressive one for
    "aggressive", the moderate one for every other value and when
    [risk_tolerance] is absent. Once the fields are filled in, the prompt is
    the part that shows the fields, an empty line, that sentence and the
    instructions: it holds the sentence, and it holds another of the three
    exactly when the part that shows the fields does. So for "aggressive"
    the rendered prompt holds the aggressive sentence, and the conservative
    or the moderate one only if the fields bring it in. *)
Theorem portfolio_summary_prompt_risk_note (client_profile : pydict) :
  let rt := client_profile !! "risk_tolerance" in
  let prompt := template (get_portfolio_summary_prompt client_profile) in
  let note := risk_note_of client_profile in
  prompt = portfolio_summary_text note /\
  (rt = Some (VStr "conservative") -> note = risk_note_conservative) /\
  (rt = Some (VStr "aggressive") -> note = risk_note_aggressive) /\
  (rt <> Some (VStr "conservative") -> rt <> Some (VStr "aggressive") ->
   note = risk_note_moderate) /\
  (contains risk_note_conservative prompt = true <-> note = risk_note_conservative) /\
  (contains risk_note_aggressive prompt = true <-> note = risk_note_aggressive) /\
  (contains risk_note_moderate prompt = true <-> note = risk_note_moderate) /\
  (rt = Some (VStr "aggressive") ->
   contains risk_note_aggressive prompt = true /\
   contains risk_note_conservative prompt = false /\
   contains risk_note_moderate prompt = false) /\
  (forall kwargs,
     Forall (fun n => is_Some (kwargs !! n))
       (input_variables (get_portfolio_summary_prompt client_profile)) ->
     exists out,
       format (get_portfolio_summary_prompt client_profile) kwargs = inr out /\
       out = summary_fields_text kwargs +:+ (nl +:+ nl) +:+ note +:+ nl +:+
             summary_instructions /\
       contains note out = true /\
       (forall other,
          other ∈ [ risk_note_conservative; risk_note_aggressive;
                    risk_note_moderate ] ->
          other <> note ->
          contains other out = contains other (summary_fields_text kwargs)) /\
       (rt = Some (VStr "aggressive") ->
        contains risk_note_aggressive out = true /\
        contains risk_note_conservative out
        = contains risk_note_conservative (summary_fields_text kwargs) /\
        contains risk_note_moderate out
        = contains risk_note_moderate (summary_fields_text kwargs))).
Proof.
  cbv zeta.
  pose proof (portfolio_summary_template_note client_profile) as Ht.
  cbv zeta in Ht.
  destruct Ht as (H1' & H2' & H3' & H4' & H5' & H6' & H7' & H8').
  repeat (split; [assumption|]).
  intros kwargs Hall.
  destruct (rendered_summary_prompt_parts client_profile kwargs Hall)
    as (out & Hout & Hparts & Hnote & Hother).
  exists out. repeat (split; [assumption|]).
  intros Hrt. specialize (H3' Hrt). rewrite H3' in Hnote, Hother.
  split; [exact Hnote|].
  split; apply Hother;
    first [ apply list_elem_of_here
          | do 2 apply list_elem_of_further; apply list_elem_of_here
          | by vm_compute ].
Qed.

(** C7. For every region the disclosures prompt builder puts exactly one of
    the three compliance sentences into the template it returns: the SEC
    one for "US", the MiFID II one for "EU", the generic one for every other
    value. Once the fields are filled in, the prompt is the part that shows
    the fields, then the instructions with that sentence among them: it
    holds the sentence, and it holds another of the three exactly when the
    part that shows the fields does. So for "EU" the rendered prompt holds
    the MiFID II sentence, and one of the other two only if the fields
    bring it in. *)
Theorem disclosures_prompt_compliance_note (region : pyval) :
  let prompt := template (get_disclosures_prompt region) in
  let note := compliance_note_of region in
  prompt = disclosures_text note /\
  (region = VStr "US" -> note = compliance_note_us) /\
  (region = VStr "EU" -> note = compliance_note_eu) /\
  (region <> VStr "US" -> region <> VStr "EU" -> note = compliance_note_generic) /\
  (contains compliance_note_us prompt = true <-> note = compliance_note_us) /\
  (contains compliance_note_eu prompt = true <-> note = compliance_note_eu) /\
  (contains compliance_note_generic prompt = true <-> note = compliance_note_generic) /\
  (region = VStr "EU" ->
   contains compliance_note_eu prompt = true /\
   contains compliance_note_us prompt = false /\
   contains compliance_note_generic prompt = false) /\
  (forall kwargs,
     Forall (fun n => is_Some (kwargs !! n))
       (input_variables (get_disclosures_prompt region)) ->
     exists out,
       format (get_disclosures_prompt region) kwargs = inr out /\
       out = disclosures_fields_text kwargs +:+ (nl +:+ disclosures_head) +:+
             note +:+ nl +:+ disclosures_tail /\
       contains note out = true /\
       (forall other,
          other ∈ [ compliance_note_us; compliance_note_eu;
                    compliance_note_generic ] ->
          other <> note ->
          contains other out = contains other (disclosures_fields_text kwargs)) /\
       (region = VStr "EU" ->
        contains compliance_note_eu out = true /\
        contains compliance_note_us out
        = contains compliance_note_us (disclosures_fields_text kwargs) /\
        contains compliance_note_generic out
        = contains compliance_note_generic (disclosures_fields_text kwargs))).
Proof.
  cbv zeta.
  pose proof (disclosures_template_note region) as Ht. cbv zeta in Ht.
  destruct Ht as (H1' & H2' & H3' & H4' & H5' & H6' & H7' & H8').
  repeat (split; [assumption|]).
  intros kwargs Hall.
  destruct (rendered_disclosures_prompt_parts region kwargs Hall)
    as (out & Hout & Hparts & Hnote & Hother).
  exists out. repeat (split; [assumption|]).
  intros Hregion. specialize (H3' Hregion). rewrite H3' in Hnote, Hother.
  split; [exact Hnote|].
  split; apply Hother;
    first [ apply list_elem_of_here
          | do 2 apply list_elem_of_further; apply list_elem_of_here
          | by vm_compute ].
Qed.

End Rendered.

(** The prompts of the sample request, which asks for "aggressive" and
    "EU": each holds its own sentence and neither of the other two. *)
Lemma sample_prompts_notes :
  contains risk_note_aggressive sample_summary_prompt = true /\
  contains risk_note_conservative sample_summary_prompt = false /\
  contains risk_note_moderate sample_summary_prompt = false /\
  exists out,
    @format plain_builtins (get_disclosures_prompt (VStr "EU"))
      (with_summary sample_form "S") = inr out /\
    contains compliance_note_eu out = true /\
    contains compliance_note_us out = false /\
    contains compliance_note_generic out = false.
Proof.
  split; [by vm_compute|]. split; [by vm_compute|]. split; [by vm_compute|].
  eexists. split; [vm_compute; reflexivity|]. by vm_compute.
Qed.

(** ** More on the handler: every run of a POST request *)

Ltac run_simpl :=
  cbn [file open_error events gen add_event set_file set_gen fst snd
       after_print after_generate].

(** Forget what is known of the prompts and of the generator. *)
Ltac clear_prompts :=
  repeat match goal with
         | Hp : summary_prompt_of _ = _ |- _ => clear Hp
         | Hp : insights_prompt_of _ _ = _ |- _ => clear Hp
         | Hp : recommendations_prompt_of _ _ = _ |- _ => clear Hp
         | Hp : disclosures_prompt_of _ _ = _ |- _ => clear Hp
         | Hp : generator _ _ = _ |- _ => clear Hp
         end.

(** Go through a membership in a short list. *)
Ltac in_list Hin :=
  repeat (apply elem_of_cons in Hin as [Hin|Hin]; [try subst|]);
  try (apply elem_of_nil in Hin; destruct Hin).

Section MoreHandler.
Context `{JsonLib} `{Builtins} `{Generator}.


(** [index] on a POST goes one of the ways of [post_run]. *)
Lemma index_post_run data w :
  exists resp w',
    index POST data w = (inr resp, w') /\ post_run data w resp w'.
Proof.
  pose proof (build_report_run data w) as Hrun. cbv zeta in Hrun.
  destruct (required_present data) eqn:Hreq.
  2: { eexists _, _. split; [by rewrite (index_post _ _ _ _ Hrun)|].
       by apply run_invalid. }
  destruct Hrun as (p1 & Hp1 & Hrun).
  destruct (generator p1 (gen w)) as [[e1|t1] g1] eqn:Hg1.
  { eexists _, _. split; [by rewrite (index_post _ _ _ _ Hrun)|].
    by eapply run_failed_1. }
  destruct Hrun as (p2 & Hp2 & Hrun).
  destruct (generator p2 g1) as [[e2|t2] g2] eqn:Hg2.
  { eexists _, _. split; [by rewrite (index_post _ _ _ _ Hrun)|].
    by eapply run_failed_2. }
  destruct Hrun as (p3 & Hp3 & Hrun).
  destruct (generator p3 g2) as [[e3|t3] g3] eqn:Hg3.
  { eexists _, _. split; [by rewrite (index_post _ _ _ _ Hrun)|].
    by eapply run_failed_3. }
  destruct Hrun as (p4 & Hp4 & Hrun).
  destruct (generator p4 g3) as [[e4|t4] g4] eqn:Hg4.
  { eexists _, _. split; [by rewrite (index_post _ _ _ _ Hrun)|].
    by eapply run_failed_4. }
  pose proof (run_generated data w p1 t1 g1 p2 t2 g2 p3 t3 g3 p4 t4 g4
                Hreq Hp1 Hg1 Hp2 Hg2 Hp3 Hg3 Hp4 Hg4) as Hpost.
  cbv zeta in Hpost.
  eexists _, _. split; [|exact Hpost].
  rewrite (index_post _ _ _ _ Hrun). unfold built_report.
  by destruct (save_report _ _) as [[e|[]] w5].
Qed.

(** The events of a request that got as far as [save_report]. *)
Lemma save_report_new_events rd (w w4 : World) l :
  events w4 = (events w ++ l)%list ->
  exists line,
    new_events w (snd (save_report rd w4)) = (l ++ [ESaveReport rd; EPrint line])%list.
Proof.
  intros Hev. destruct (save_report_events rd w4) as (line & Hev' & _).
  exists line. apply new_events_app. by rewrite Hev', Hev, <- app_assoc.
Qed.

(** The calls and the saved reports of a request, by the way it went. *)
Lemma post_run_calls data w resp w' :
  post_run data w resp w' ->
  request_calls data (generate_calls (new_events w w'))
    (saved_reports (new_events w w')).
Proof.
  intros Hpost.
  destruct Hpost as
    [Hreq
    |p1 e g1 Hreq Hp1 Hg1
    |p1 t1 g1 p2 e g2 Hreq Hp1 Hg1 Hp2 Hg2
    |p1 t1 g1 p2 t2 g2 p3 e g3 Hreq Hp1 Hg1 Hp2 Hg2 Hp3 Hg3
    |p1 t1 g1 p2 t2 g2 p3 t3 g3 p4 e g4 Hreq Hp1 Hg1 Hp2 Hg2 Hp3 Hg3 Hp4 Hg4
    |p1 t1 g1 p2 t2 g2 p3 t3 g3 p4 t4 g4 Hreq Hp1 Hg1 Hp2 Hg2 Hp3 Hg3 Hp4 Hg4 rd w4].
  1-5: erewrite new_events_app
         by (run_simpl; rewrite <- ?app_assoc; reflexivity);
       cbn [generate_calls saved_reports]; by constructor.
  destruct (save_report_new_events rd w w4
              [EPrint ("Input Data: " +:+ py_repr (VDict (build_input_data data)));
               EGenerate p1 (inr t1); EGenerate p2 (inr t2);
               EGenerate p3 (inr t3); EGenerate p4 (inr t4)])
    as [line Hev].
  { unfold w4. run_simpl. by rewrite <- ?app_assoc. }
  rewrite Hev. cbn [generate_calls saved_reports app]. by constructor.
Qed.

Lemma index_request_calls data w :
  request_calls data
    (generate_calls (new_events w (snd (index POST data w))))
    (saved_reports (new_events w (snd (index POST data w)))).
Proof.
  destruct (index_post_run data w) as (resp & w' & Hidx & Hpost).
  rewrite Hidx. cbn [snd]. by eapply post_run_calls.
Qed.

(** A request that got as far as [save_report]: the store it finds is the
    one the request started with, and the answer follows from what
    [save_report] does. *)
Lemma post_run_save data w resp w' rd :
  post_run data w resp w' ->
  rd ∈ saved_reports (new_events w w') ->
  exists w4,
    file w4 = file w /\ open_error w4 = open_error w /\
    stored_mapping w4 = stored_mapping w /\
    w' = snd (save_report rd w4) /\
    resp = match fst (save_report rd w4) with
           | inr _ => {| report := Some (report_html rd);
                         shown_report_id := Some (report_id rd) |}
           | inl e => {| report := Some (error_html e);
                         shown_report_id := Some (report_id rd) |}
           end.
Proof.
  intros Hpost Hin.
  destruct Hpost as
    [Hreq
    |p1 e g1 Hreq Hp1 Hg1
    |p1 t1 g1 p2 e g2 Hreq Hp1 Hg1 Hp2 Hg2
    |p1 t1 g1 p2 t2 g2 p3 e g3 Hreq Hp1 Hg1 Hp2 Hg2 Hp3 Hg3
    |p1 t1 g1 p2 t2 g2 p3 t3 g3 p4 e g4 Hreq Hp1 Hg1 Hp2 Hg2 Hp3 Hg3 Hp4 Hg4
    |p1 t1 g1 p2 t2 g2 p3 t3 g3 p4 t4 g4 Hreq Hp1 Hg1 Hp2 Hg2 Hp3 Hg3 Hp4 Hg4 rd' w4].
  1-5: exfalso; clear -Hin;
       erewrite new_events_app in Hin
         by (run_simpl; rewrite <- ?app_assoc; reflexivity);
       cbn [saved_reports] in Hin; by apply elem_of_nil in Hin.
  destruct (save_report_new_events rd' w w4
              [EPrint ("Input Data: " +:+ py_repr (VDict (build_input_data data)));
               EGenerate p1 (inr t1); EGenerate p2 (inr t2);
               EGenerate p3 (inr t3); EGenerate p4 (inr t4)])
    as [line Hev'].
  { unfold w4. run_simpl. by rewrite <- ?app_assoc. }
  rewrite Hev' in Hin. cbn [saved_reports app] in Hin. in_list Hin.
  exists w4. by repeat split.
Qed.

(** A request touches the store through [save_report] only. *)
Lemma post_run_store data w resp w' :
  post_run data w resp w' ->
  open_error w' = open_error w /\
  (saved_reports (new_events w w') = [] -> file w' = file w).
Proof.
  intros Hpost. pose proof (post_run_calls _ _ _ _ Hpost) as Hcalls.
  destruct Hpost as
    [Hreq
    |p1 e g1 Hreq Hp1 Hg1
    |p1 t1 g1 p2 e g2 Hreq Hp1 Hg1 Hp2 Hg2
    |p1 t1 g1 p2 t2 g2 p3 e g3 Hreq Hp1 Hg1 Hp2 Hg2 Hp3 Hg3
    |p1 t1 g1 p2 t2 g2 p3 t3 g3 p4 e g4 Hreq Hp1 Hg1 Hp2 Hg2 Hp3 Hg3 Hp4 Hg4
    |p1 t1 g1 p2 t2 g2 p3 t3 g3 p4 t4 g4 Hreq Hp1 Hg1 Hp2 Hg2 Hp3 Hg3 Hp4 Hg4 rd w4];
    clear_prompts; clear Hcalls; [done..|].
  split.
  - pose proof (save_report_cases rd w4) as Hc.
    destruct (stored_mapping w4), (open_error w4) eqn:Hopen.
    2: by rewrite Hc.
    all: by destruct Hc as [e' ->].
  - intros Hnone.
    destruct (save_report_new_events rd w w4
                [EPrint ("Input Data: " +:+ py_repr (VDict (build_input_data data)));
                 EGenerate p1 (inr t1); EGenerate p2 (inr t2);
                 EGenerate p3 (inr t3); EGenerate p4 (inr t4)])
      as [line Hev].
    { unfold w4. run_simpl. by rewrite <- ?app_assoc. }
    by rewrite Hev in Hnone.
Qed.

(** [save_report] is called only after four calls of the generator. *)
Lemma generator_calls_shape data w :
  saved_reports (new_events w (snd (index POST data w))) <> [] ->
  length (generate_calls (new_events w (snd (index POST data w)))) = 4.
Proof. destruct (index_request_calls data w); clear_prompts; done. Qed.

(** X2. A POST calls the generator at most four times, one call after the
    other: only the last call made can have failed, and [save_report] is
    called at most once, after four calls that all returned. *)
Theorem generator_calls_stop_at_failure data w :
  let evs := new_events w (snd (index POST data w)) in
  let calls := generate_calls evs in
  length calls <= 4 /\
  (forall i p e, calls !! i = Some (p, inl e) -> S i = length calls) /\
  length (saved_reports evs) <= 1 /\
  (saved_reports evs <> [] ->
   length calls = 4 /\ forall p r, (p, r) ∈ calls -> exists t, r = inr t).
Proof.
  cbv zeta. destruct (index_request_calls data w); clear_prompts;
    (split; [cbn [length]; lia|]);
    (split; [intros i p e' Hi;
             destruct i as [|[|[|[|i]]]]; cbn in Hi; by inversion Hi|]);
    (split; [cbn [length]; lia|]); try done.
  intros _. split; [done|]. intros p r Hin. in_list Hin; inversion Hin; eauto.
Qed.

(** X3. The report handed to [save_report] is built from the four generated
    texts: its summary is what the extraction makes of the first, the three
    other sections are the texts of the second, third and fourth call as
    they came, its identifier is that of these four sections, and its input
    mapping is the form's with that summary stored in it. The last three
    prompts were rendered from that same mapping. *)
Theorem saved_report_is_built_from_the_calls data w rd :
  rd ∈ saved_reports (new_events w (snd (index POST data w))) ->
  exists p1 t1 p2 t2 p3 t3 p4 t4,
    generate_calls (new_events w (snd (index POST data w)))
    = [(p1, inr t1); (p2, inr t2); (p3, inr t3); (p4, inr t4)] /\
    format (get_portfolio_summary_prompt (build_client_profile data))
      (build_input_data data) = inr p1 /\
    format client_insights_prompt (input_data rd) = inr p2 /\
    format recommendations_prompt (input_data rd) = inr p3 /\
    format (get_disclosures_prompt (VStr (default "US" (data !! "region"))))
      (input_data rd) = inr p4 /\
    portfolio_summary rd = extract_portfolio_summary t1 /\
    client_insights rd = t2 /\ recommendations rd = t3 /\ disclosures rd = t4 /\
    report_id rd
    = generate_report_id (report_text (extract_portfolio_summary t1) t2 t3 t4) /\
    input_data rd
    = <["portfolio_summary" := VStr (extract_portfolio_summary t1)]>
        (build_input_data data).
Proof.
  intros Hin.
  destruct (index_request_calls data w)
    as [| | | | |p1 t1 p2 t2 p3 t3 p4 t4 Hreq Hp1 Hp2 Hp3 Hp4].
  1-5: exfalso; clear -Hin; by apply elem_of_nil in Hin.
  apply list_elem_of_singleton in Hin. subst rd.
  exists p1, t1, p2, t2, p3, t3, p4, t4.
  split; [reflexivity|]. split; [exact Hp1|]. split; [exact Hp2|].
  split; [exact Hp3|]. split; [exact Hp4|].
  clear_prompts. by repeat split.
Qed.

(** X4. When [save_report] is called on a store that holds a mapping and can
    be opened, the request succeeds: the page shows the report and its
    identifier, and the store then holds that report under that identifier,
    beside what it held. *)
Theorem stored_report_is_the_shown_one data w rd d :
  rd ∈ saved_reports (new_events w (snd (index POST data w))) ->
  stored_mapping w = Some d -> open_error w = None ->
  fst (index POST data w)
  = inr {| report := Some (report_html rd);
           shown_report_id := Some (report_id rd) |} /\
  stored_mapping (snd (index POST data w))
  = Some (<[report_id rd := report_value rd]> d) /\
  fst (load_reports (snd (index POST data w)))
  = inr (VDict (<[report_id rd := report_value rd]> d)).
Proof.
  intros Hin Hd Hopen.
  destruct (index_post_run data w) as (resp & w' & Hidx & Hpost).
  rewrite Hidx in Hin |- *. cbn [fst snd] in Hin |- *.
  destruct (post_run_save _ _ _ _ _ Hpost Hin)
    as (w4 & _ & Hopen4 & Hd4 & -> & ->).
  clear Hpost Hin Hidx.
  pose proof (save_report_effect rd w4) as Heff.
  rewrite Hd4, Hd, Hopen4, Hopen in Heff.
  destruct Heff as (w5 & Hsave & _ & Hstored & Hload & _).
  rewrite Hsave. cbn [fst snd]. rewrite Hload. by repeat split.
Qed.

(** X5. The store is looked at only after the four texts are generated:
    when it then cannot be saved to (the file does not hold a mapping, or
    cannot be opened), the page shows the error message together with the
    identifier of the report that was not stored, and the file is left as
    it was. *)
Theorem save_failure_shows_the_identifier data w rd :
  rd ∈ saved_reports (new_events w (snd (index POST data w))) ->
  stored_mapping w = None \/ is_Some (open_error w) ->
  exists e,
    fst (index POST data w)
    = inr {| report := Some (error_html e);
             shown_report_id := Some (report_id rd) |} /\
    file (snd (index POST data w)) = file w /\
    length (generate_calls (new_events w (snd (index POST data w)))) = 4.
Proof.
  intros Hin Hbad.
  assert (length (generate_calls (new_events w (snd (index POST data w)))) = 4)
    as Hlen.
  { apply generator_calls_shape. intros Hnil. rewrite Hnil in Hin.
    by apply elem_of_nil in Hin. }
  destruct (index_post_run data w) as (resp & w' & Hidx & Hpost).
  rewrite Hidx in Hin, Hlen |- *. cbn [fst snd] in Hin, Hlen |- *.
  destruct (post_run_save _ _ _ _ _ Hpost Hin)
    as (w4 & Hfile4 & Hopen4 & Hd4 & -> & ->).
  clear Hpost Hin Hidx.
  destruct (save_report_raises rd w4) as [e Hsave].
  { by rewrite Hd4, Hopen4. }
  exists e. rewrite Hsave in Hlen |- *. cbn [fst snd] in Hlen |- *.
  split; [done|]. split; [|exact Hlen].
  run_simpl. exact Hfile4.
Qed.

End MoreHandler.

(** ** The claim on the empty summary *)

Section EmptySummary.
Context `{JsonLib} `{Builtins} `{Generator}.




End EmptySummary.

(** ** More on the store: two calls of [save_report] *)

Section MoreStore.
Context `{JsonLib} `{Generator}.

(** What the store holds depends on the file only. *)
Lemma stored_mapping_file (w w' : World) :
  file w' = file w -> stored_mapping w' = stored_mapping w.
Proof. unfold stored_mapping. by intros ->. Qed.

(** After a call of [save_report] on a store it can read and write, the
    store can still be read and written. *)
Lemma save_report_ok_world rd w d :
  open_error w = None -> stored_mapping w = Some d ->
  fst (save_report rd w) = inr tt /\
  open_error (snd (save_report rd w)) = None /\
  stored_mapping (snd (save_report rd w))
  = Some (<[report_id rd := report_value rd]> d).
Proof.
  intros Hopen Hd. rewrite (save_report_ok rd w d Hopen Hd). world_simpl.
  split; [done|]. split; [done|].
  unfold stored_mapping. world_simpl. by rewrite json_load_dump.
Qed.

(** X6. Two reports with the same identifier: the second call of
    [save_report] replaces the entry of the first, and the store ends as if
    the first had never been saved. *)
Theorem save_report_same_id_replaces rd1 rd2 w d :
  stored_mapping w = Some d -> open_error w = None ->
  report_id rd1 = report_id rd2 ->
  fst (save_report rd2 (snd (save_report rd1 w))) = inr tt /\
  stored_mapping (snd (save_report rd2 (snd (save_report rd1 w))))
  = Some (<[report_id rd2 := report_value rd2]> d) /\
  stored_mapping (snd (save_report rd2 (snd (save_report rd1 w))))
  = stored_mapping (snd (save_report rd2 w)).
Proof.
  intros Hd Hopen Hid.
  destruct (save_report_ok_world rd1 w d Hopen Hd) as (_ & Hopen1 & Hd1).
  destruct (save_report_ok_world rd2 _ _ Hopen1 Hd1) as (Hr & _ & Hd2).
  destruct (save_report_ok_world rd2 w d Hopen Hd) as (_ & _ & Hd2').
  rewrite Hd2, Hd2', Hid, insert_insert_eq. done.
Qed.

(** X7. Two reports with different identifiers can be saved in either
    order: the store ends with the same mapping, which holds both reports
    and, under every other identifier, what it held before. *)
Theorem save_report_order_does_not_matter rd1 rd2 w d :
  stored_mapping w = Some d -> open_error w = None ->
  report_id rd1 <> report_id rd2 ->
  exists d',
    stored_mapping (snd (save_report rd2 (snd (save_report rd1 w)))) = Some d' /\
    stored_mapping (snd (save_report rd1 (snd (save_report rd2 w)))) = Some d' /\
    d' !! report_id rd1 = Some (report_value rd1) /\
    d' !! report_id rd2 = Some (report_value rd2) /\
    forall k, k <> report_id rd1 -> k <> report_id rd2 -> d' !! k = d !! k.
Proof.
  intros Hd Hopen Hne.
  destruct (save_report_ok_world rd1 w d Hopen Hd) as (_ & Hopen1 & Hd1).
  destruct (save_report_ok_world rd2 _ _ Hopen1 Hd1) as (_ & _ & Hd12).
  destruct (save_report_ok_world rd2 w d Hopen Hd) as (_ & Hopen2 & Hd2).
  destruct (save_report_ok_world rd1 _ _ Hopen2 Hd2) as (_ & _ & Hd21).
  eexists. split; [exact Hd12|]. split.
  { rewrite Hd21. f_equal. by apply insert_insert_ne. }
  split; [by rewrite lookup_insert_ne, lookup_insert_eq|].
  split; [by rewrite lookup_insert_eq|].
  intros k Hk1 Hk2. by rewrite !lookup_insert_ne.
Qed.

(** X8. [save_report] prints one line whatever happens, after the call is
    made: the identifier when the report is stored, the message of the
    exception when it is not; it does not touch the generator. *)
Theorem save_report_prints_its_outcome rd w :
  exists line,
    new_events w (snd (save_report rd w)) = [ESaveReport rd; EPrint line] /\
    gen (snd (save_report rd w)) = gen w /\
    line = match fst (save_report rd w) with
           | inr _ => "Report saved successfully with ID: " +:+ report_id rd
           | inl e => "Error saving report: " +:+ exn_str e
           end.
Proof.
  pose proof (save_report_cases rd w) as Hc.
  destruct (stored_mapping w) as [d|], (open_error w) as [e|].
  2: { rewrite Hc. eexists. world_simpl. split; [|done].
       apply new_events_app. world_simpl. by rewrite <- app_assoc. }
  all: destruct Hc as [e' ->]; eexists; world_simpl; (split; [|done]);
    apply new_events_app; world_simpl; by rewrite <- app_assoc.
Qed.

End MoreStore.

(** ** More on the prompts: which fields a template needs *)

Section MoreFormat.
Context `{Builtins}.

(** [format] goes through the fields in the order of the template and
    raises at the first one that [kwargs] lacks. *)
Lemma format_scan_first_missing kwargs t field fs :
  fields_scan t field = Some fs ->
  match first_missing kwargs fs with
  | Some n => format_scan kwargs t field = inl (KeyError n)
  | None => exists out, format_scan kwargs t field = inr out
  end.
Proof.
  remember (String.length t) as n eqn:Hn.
  revert t field fs Hn.
  induction (lt_wf n) as [n _ IH]; intros t field fs Hn Hfs.
  destruct t as [|c t]; cbn [fields_scan format_scan] in *.
  { destruct field; [done|]. injection Hfs as <-. by exists "". }
  simpl in Hn.
  assert (IH1 : forall field fs,
             fields_scan t field = Some fs ->
             match first_missing kwargs fs with
             | Some n => format_scan kwargs t field = inl (KeyError n)
             | None => exists out, format_scan kwargs t field = inr out
             end).
  { intros f1 fs1. eapply (IH (String.length t)); [lia | done]. }
  destruct field as [name|].
  - destruct (Ascii.eqb c "}").
    + destruct (fields_scan t None) as [fs'|] eqn:Hfs'; [|done].
      injection Hfs as <-. cbn [first_missing].
      destruct (kwargs !! name) as [v|]; [|done].
      specialize (IH1 None fs' Hfs').
      destruct (first_missing kwargs fs') as [m|].
      * by rewrite IH1.
      * destruct IH1 as [out ->]. eauto.
    + by apply (IH1 _ fs).
  - destruct (Ascii.eqb c "{").
    + destruct t as [|c' t'']; [by apply (IH1 _ fs)|].
      assert (Hbrace : (c' = "{"%char /\
                        fields_scan t'' None = Some fs) \/
                       (c' <> "{"%char /\
                        fields_scan (String c' t'') (Some "") = Some fs)).
      { destruct (ascii_dec c' "{") as [->|Hne]; [by left|].
        right. split; [done|].
        destruct c' as [[] [] [] [] [] [] [] []]; done. }
      destruct Hbrace as [[-> Hfs'']|[Hne Hfs'']].
      * pose proof (IH (String.length t'') ltac:(simpl in Hn; lia) t'' None fs
                      eq_refl Hfs'') as IH2.
        destruct (first_missing kwargs fs) as [m|]; [by rewrite IH2|].
        destruct IH2 as [out ->]. eauto.
      * specialize (IH1 _ fs Hfs'').
        destruct (first_missing kwargs fs) as [m|];
          destruct c' as [[] [] [] [] [] [] [] []]; done.
    + destruct (Ascii.eqb c "}").
      * destruct t as [|c' t'']; [done|].
        assert (Hbrace : c' = "}"%char /\ fields_scan t'' None = Some fs).
        { destruct c' as [[] [] [] [] [] [] [] []]; done. }
        destruct Hbrace as [-> Hfs''].
        pose proof (IH (String.length t'') ltac:(simpl in Hn; lia) t'' None fs
                      eq_refl Hfs'') as IH2.
        destruct (first_missing kwargs fs) as [m|]; [by rewrite IH2|].
        destruct IH2 as [out ->]. eauto.
      * specialize (IH1 None fs Hfs).
        destruct (first_missing kwargs fs) as [m|]; [by rewrite IH1|].
        destruct IH1 as [out ->]. eauto.
Qed.

Lemma first_missing_none kwargs fs :
  first_missing kwargs fs = None <-> Forall (fun n => is_Some (kwargs !! n)) fs.
Proof.
  induction fs as [|n fs IH]; cbn [first_missing]; [by split|].
  destruct (kwargs !! n) as [v|] eqn:Hn.
  - rewrite IH. split; [intros Hall; constructor; [by rewrite Hn|done]|].
    by inversion 1.
  - split; [done|]. inversion 1 as [|? ? [? Hv]]; subst. by rewrite Hn in Hv.
Qed.

Lemma first_missing_some kwargs fs n :
  first_missing kwargs fs = Some n -> n ∈ fs /\ kwargs !! n = None.
Proof.
  induction fs as [|m fs IH]; [done|]. cbn [first_missing].
  destruct (kwargs !! m) as [v|] eqn:Hm.
  - intros Hmiss. destruct (IH Hmiss) as [Hin Hn].
    split; [by apply list_elem_of_further|done].
  - intros [= <-]. split; [apply list_elem_of_here|done].
Qed.

(** The fields of the four templates of the program are their
    [input_variables], up to the order. *)
Lemma program_template_fields p :
  (exists client_profile, p = get_portfolio_summary_prompt client_profile) \/
  p = client_insights_prompt \/ p = recommendations_prompt \/
  (exists region, p = get_disclosures_prompt region) ->
  exists fs, template_fields p = Some fs /\ fs ≡ₚ input_variables p.
Proof.
  intros [[client_profile ->]|[->|[->|[region ->]]]].
  - eexists. split; [apply summary_prompt_fields|].
    cbn [input_variables get_portfolio_summary_prompt].
    apply (Permutation_cons_append
             [ "portfolio_name"; "client_profile"; "benchmark"; "asset_allocation";
               "return_net"; "return_benchmark"; "risk_metrics"; "top_holdings";
               "underperforming_holdings" ] "date_range").
  - eexists. split; [apply insights_prompt_fields|done].
  - eexists. split; [apply recommendations_prompt_fields|done].
  - eexists. split; [apply disclosures_prompt_fields|done].
Qed.

(** X9. [format] on one of the four templates of the program: it returns
    a text when [kwargs] holds every input variable of the template, and
    otherwise raises [KeyError] with the first field, in the order of the
    template, that is missing; what else [kwargs] holds plays no part. *)
Theorem format_raises_on_first_missing_field p kwargs :
  (exists client_profile, p = get_portfolio_summary_prompt client_profile) \/
  p = client_insights_prompt \/ p = recommendations_prompt \/
  (exists region, p = get_disclosures_prompt region) ->
  exists fs,
    template_fields p = Some fs /\
    match first_missing kwargs fs with
    | Some n =>
        format p kwargs = inl (KeyError n) /\
        n ∈ input_variables p /\ kwargs !! n = None
    | None =>
        (exists out, format p kwargs = inr out) /\
        Forall (fun n => is_Some (kwargs !! n)) (input_variables p)
    end.
Proof.
  intros Hp. destruct (program_template_fields p Hp) as (fs & Hfs & Hperm).
  exists fs. split; [exact Hfs|].
  pose proof (format_scan_first_missing kwargs _ _ _ Hfs) as Hscan.
  destruct (first_missing kwargs fs) as [n|] eqn:Hmiss.
  - destruct (first_missing_some _ _ _ Hmiss) as [Hin Hn].
    split; [exact Hscan|]. split; [by rewrite <- Hperm|exact Hn].
  - split; [exact Hscan|]. rewrite <- Hperm. by apply first_missing_none.
Qed.

End MoreFormat.

(** X10. Each template of the program names, in [input_variables], the
    fields its text uses: the same names in the same order for the three
    later prompts, the same names with [date_range] moved to the end for the
    summary prompt. *)
Theorem templates_use_their_input_variables client_profile region :
  (exists fs,
     template_fields (get_portfolio_summary_prompt client_profile) = Some fs /\
     fs ≡ₚ input_variables (get_portfolio_summary_prompt client_profile)) /\
  template_fields client_insights_prompt
  = Some (input_variables client_insights_prompt) /\
  template_fields recommendations_prompt
  = Some (input_variables recommendations_prompt) /\
  template_fields (get_disclosures_prompt region)
  = Some (input_variables (get_disclosures_prompt region)).
Proof.
  split.
  { eexists. split; [apply summary_prompt_fields|].
    cbn [input_variables get_portfolio_summary_prompt].
    apply (Permutation_cons_append
             [ "portfolio_name"; "client_profile"; "benchmark"; "asset_allocation";
               "return_net"; "return_benchmark"; "risk_metrics"; "top_holdings";
               "underperforming_holdings" ] "date_range"). }
  split; [apply insights_prompt_fields|].
  split; [apply recommendations_prompt_fields|].
  apply disclosures_prompt_fields.
Qed.

(** ** More on the identifier *)

Lemma str_all_app p s t : str_all p (s +:+ t) = str_all p s && str_all p t.
Proof.
  induction s as [|c s IH]; [done|].
  rewrite append_cons. cbn [str_all]. by rewrite IH, andb_assoc.
Qed.

Lemma hex_digit_is_hex d : is_hex_digit (hex_digit d) = true.
Proof.
  unfold hex_digit. generalize (Z.to_nat d). intros n.
  do 16 (destruct n as [|n]; [reflexivity|]). reflexivity.
Qed.

Lemma hex_of_is_hex n z : str_all is_hex_digit (hex_of n z) = true.
Proof.
  revert z. induction n as [|n IH]; intros z; [done|].
  cbn [hex_of]. rewrite str_all_app, IH. cbn [str_all andb].
  by rewrite hex_digit_is_hex.
Qed.

(** X11. A report identifier is a text of 64 characters, each one of
    0..9 or a..f, whatever the report says. *)
Theorem report_id_is_64_hex_digits report_text :
  String.length (generate_report_id report_text) = 64 /\
  str_all is_hex_digit (generate_report_id report_text) = true.
Proof.
  unfold generate_report_id, sha256_hexdigest.
  split; [apply hex_of_length | apply hex_of_is_hex].
Qed.

(** X13. The identifier does not tell where one section ends and the next
    begins: when the last line of the summary is moved to the head of the
    insights, the report is another one and its identifier is the same. *)
Theorem report_id_ignores_section_boundaries a b c d e :
  a +:+ nl +:+ b <> a /\
  report_text (a +:+ nl +:+ b) c d e = report_text a (b +:+ nl +:+ c) d e /\
  generate_report_id (report_text (a +:+ nl +:+ b) c d e)
  = generate_report_id (report_text a (b +:+ nl +:+ c) d e).
Proof.
  assert (report_text (a +:+ nl +:+ b) c d e = report_text a (b +:+ nl +:+ c) d e)
    as Htext by (unfold report_text; by rewrite !append_assoc).
  split; [|split; [exact Htext | by rewrite Htext]].
  intros Heq. apply (f_equal String.length) in Heq.
  rewrite !append_length in Heq. cbn [String.length nl] in Heq. lia.
Qed.

(** ** More on the extraction *)

Lemma str_take_drop n s : s = str_take n s +:+ str_drop n s.
Proof.
  revert n. induction s as [|c s IH]; intros [|n]; try done.
  cbn [str_take str_drop]. by rewrite append_cons, <- IH.
Qed.

(** X14. The summary is a part of the generated text, cut out of it and
    not rewritten: the text is some whitespace, then the summary, then a
    rest; the summary neither begins nor ends with whitespace; and the rest
    is whitespace up to the end of the text or up to a marker. *)
Theorem extract_portfolio_summary_is_a_trimmed_part text :
  exists before after,
    text = before +:+ extract_portfolio_summary text +:+ after /\
    str_all isspace before = true /\
    match extract_portfolio_summary text with
    | String c _ => isspace c = false
    | "" => True
    end /\
    match str_last (extract_portfolio_summary text) with
    | Some c => isspace c = false
    | None => True
    end /\
    exists sp rest,
      after = sp +:+ rest /\ str_all isspace sp = true /\
      (rest = "" \/ marker_at rest = true).
Proof.
  rewrite extract_by_last_marker.
  pose proof (last_marker_spec text) as Hspec.
  destruct (last_marker text) as [q|].
  - destruct Hspec as [Hm _].
    destruct (strip_spec (str_take q text)) as (l & r & Heq & Hl & Hr & Hhead & Hlast).
    exists l, (r +:+ str_drop q text).
    split.
    { rewrite (str_take_drop q text) at 1. rewrite Heq at 1.
      by rewrite !append_assoc. }
    split; [done|]. split; [done|]. split; [done|].
    exists r, (str_drop q text). split; [done|]. split; [done|]. by right.
  - destruct (strip_spec text) as (l & r & Heq & Hl & Hr & Hhead & Hlast).
    exists l, r. split; [done|]. split; [done|]. split; [done|]. split; [done|].
    exists r, "". split; [by rewrite append_nil_r|]. split; [done|]. by left.
Qed.

(** ** More on the handler: validation, prompts and store of a request *)

Section MoreRequest.
Context `{JsonLib} `{Builtins} `{Generator}.

(** The input mapping holds what the first and the fourth prompt use. *)
Lemma input_has_summary_variables data client_profile :
  Forall (fun n => is_Some (build_input_data data !! n))
    (input_variables (get_portfolio_summary_prompt client_profile)).
Proof.
  cbn [input_variables get_portfolio_summary_prompt].
  repeat (apply Forall_cons; split; [apply input_keys; set_solver|]).
  by apply Forall_nil.
Qed.

Lemma input_has_disclosures_variables data s region :
  Forall (fun n => is_Some (with_summary data s !! n))
    (input_variables (get_disclosures_prompt region)).
Proof.
  cbn [input_variables get_disclosures_prompt]. unfold with_summary.
  repeat (apply Forall_cons;
          split; [apply input_keys_summary; right; apply input_keys;
                  set_solver|]).
  by apply Forall_nil.
Qed.

(** The first prompt holds the note for the client's risk tolerance. *)
Lemma summary_prompt_note data p :
  summary_prompt_of data = inr p ->
  contains (risk_note_of (build_client_profile data)) p = true.
Proof.
  intros Hp.
  destruct (rendered_summary_prompt_holds_note (build_client_profile data)
              (build_input_data data)) as (out & Hout & Hnote);
    [apply input_has_summary_variables|].
  unfold summary_prompt_of in Hp. rewrite Hout in Hp.
  injection Hp as <-. exact Hnote.
Qed.

(** The fourth prompt holds the note for the region. *)
Lemma disclosures_prompt_note data t1 p :
  disclosures_prompt_of data t1 = inr p ->
  contains (compliance_note_of (VStr (default "US" (data !! "region")))) p = true.
Proof.
  intros Hp.
  destruct (rendered_disclosures_prompt_holds_note
              (VStr (default "US" (data !! "region")))
              (with_summary data (extract_portfolio_summary t1)))
    as (out & Hout & Hnote).
  { apply input_has_disclosures_variables. }
  unfold disclosures_prompt_of in Hp. rewrite Hout in Hp.
  injection Hp as <-. exact Hnote.
Qed.

(** X15. When the three required fields are filled in and the generator
    answers every prompt, the request gets as far as [save_report]: four
    calls of the generator, one report handed to [save_report], and a page
    that shows the identifier of that report, whether or not it could be
    stored. *)
Theorem generator_that_answers_gives_a_report data w :
  required_present data = true ->
  (forall p g, exists t g', generator p g = (inr t, g')) ->
  exists rd resp,
    fst (index POST data w) = inr resp /\
    shown_report_id resp = Some (report_id rd) /\
    saved_reports (new_events w (snd (index POST data w))) = [rd] /\
    length (generate_calls (new_events w (snd (index POST data w)))) = 4.
Proof.
  intros Hreq' Htot.
  destruct (index_post_run data w) as (resp & w' & Hidx & Hpost).
  rewrite Hidx. cbn [fst snd]. clear Hidx.
  destruct Hpost as
    [Hreq
    |p1 e g1 Hreq Hp1 Hg1
    |p1 t1 g1 p2 e g2 Hreq Hp1 Hg1 Hp2 Hg2
    |p1 t1 g1 p2 t2 g2 p3 e g3 Hreq Hp1 Hg1 Hp2 Hg2 Hp3 Hg3
    |p1 t1 g1 p2 t2 g2 p3 t3 g3 p4 e g4 Hreq Hp1 Hg1 Hp2 Hg2 Hp3 Hg3 Hp4 Hg4
    |p1 t1 g1 p2 t2 g2 p3 t3 g3 p4 t4 g4 Hreq Hp1 Hg1 Hp2 Hg2 Hp3 Hg3 Hp4 Hg4 rd w4].
  - rewrite Hreq in Hreq'. discriminate Hreq'.
  - destruct (Htot p1 (gen w)) as (t & g' & Ht). rewrite Ht in Hg1. discriminate Hg1.
  - destruct (Htot p2 g1) as (t & g' & Ht). rewrite Ht in Hg2. discriminate Hg2.
  - destruct (Htot p3 g2) as (t & g' & Ht). rewrite Ht in Hg3. discriminate Hg3.
  - destruct (Htot p4 g3) as (t & g' & Ht). rewrite Ht in Hg4. discriminate Hg4.
  - clear_prompts. clear Htot.
    destruct (save_report_new_events rd w w4
                [EPrint ("Input Data: " +:+ py_repr (VDict (build_input_data data)));
                 EGenerate p1 (inr t1); EGenerate p2 (inr t2);
                 EGenerate p3 (inr t3); EGenerate p4 (inr t4)])
      as [line Hev].
    { unfold w4. run_simpl. by rewrite <- ?app_assoc. }
    rewrite Hev. cbn [generate_calls saved_reports app length].
    exists rd. eexists. split; [reflexivity|].
    split; [|by split]. by destruct (fst (save_report rd w4)).
Qed.

(** X16. The validation of line 186 rejects a request exactly when one of
    the three required fields is absent from the form or is the empty text.
    Such a request ends with the validation message, after the input
    mapping is printed and nothing else; and it is the only kind of request
    that makes no call of the generator. *)
Theorem blank_required_field_is_rejected data w :
  (required_present data = false <->
   (data !! "portfolio_name" = None \/ data !! "portfolio_name" = Some "") \/
   (data !! "client_name" = None \/ data !! "client_name" = Some "") \/
   (data !! "date_range" = None \/ data !! "date_range" = Some "")) /\
  (required_present data = false ->
   index POST data w
   = (inr (error_page (ValueError missing_fields_message)), after_print data w)) /\
  (required_present data = false <->
   generate_calls (new_events w (snd (index POST data w))) = []).
Proof.
  split; [|split].
  - unfold required_present. cbn [forallb].
    destruct (data !! "portfolio_name") as [[|c1 s1]|],
             (data !! "client_name") as [[|c2 s2]|],
             (data !! "date_range") as [[|c3 s3]|];
      cbn [of_opt truthy String.eqb negb andb]; split; intros Hx; try done;
      try (by auto);
      destruct Hx as [[Hx|Hx]|[[Hx|Hx]|[Hx|Hx]]]; discriminate Hx.
  - intros Hreq. pose proof (build_report_run data w) as Hrun. cbv zeta in Hrun.
    rewrite Hreq in Hrun. by rewrite (index_post _ _ _ _ Hrun).
  - destruct (index_request_calls data w) as [Hreq|? ? Hreq|? ? ? ? Hreq
      |? ? ? ? ? ? Hreq|? ? ? ? ? ? ? ? Hreq|? ? ? ? ? ? ? ? Hreq];
      clear_prompts; rewrite Hreq; by split.
Qed.

(** X17. The prompts of a request follow the form: the first prompt sent to
    the generator holds the note for the form's [risk_tolerance], taken as
    "moderate" when the form has none, and the fourth holds the note for the
    form's [region], taken as "US" when the form has none. *)
Theorem prompts_follow_the_form data w i p r :
  generate_calls (new_events w (snd (index POST data w))) !! i = Some (p, r) ->
  let risk_tolerance := default "moderate" (data !! "risk_tolerance") in
  let region := default "US" (data !! "region") in
  let risk_note :=
    if String.eqb risk_tolerance "conservative" then risk_note_conservative
    else if String.eqb risk_tolerance "aggressive" then risk_note_aggressive
    else risk_note_moderate in
  let compliance_note :=
    if String.eqb region "US" then compliance_note_us
    else if String.eqb region "EU" then compliance_note_eu
    else compliance_note_generic in
  i < 4 /\
  (i = 0 -> contains risk_note p = true) /\
  (i = 3 -> contains compliance_note p = true).
Proof.
  intros Hi. cbv zeta.
  assert (risk_note_of (build_client_profile data)
          = if String.eqb (default "moderate" (data !! "risk_tolerance")) "conservative"
            then risk_note_conservative
            else if String.eqb (default "moderate" (data !! "risk_tolerance")) "aggressive"
                 then risk_note_aggressive else risk_note_moderate) as <-.
  { unfold risk_note_of. by rewrite profile_risk_tolerance. }
  change (if String.eqb (default "US" (data !! "region")) "US"
          then compliance_note_us
          else if String.eqb (default "US" (data !! "region")) "EU"
               then compliance_note_eu else compliance_note_generic)
    with (compliance_note_of (VStr (default "US" (data !! "region")))).
  destruct (index_request_calls data w)
    as [Hreq
       |p1 e Hreq Hp1
       |p1 t1 p2 e Hreq Hp1 Hp2
       |p1 t1 p2 t2 p3 e Hreq Hp1 Hp2 Hp3
       |p1 t1 p2 t2 p3 t3 p4 e Hreq Hp1 Hp2 Hp3 Hp4
       |p1 t1 p2 t2 p3 t3 p4 t4 Hreq Hp1 Hp2 Hp3 Hp4];
    try apply summary_prompt_note in Hp1;
    try apply disclosures_prompt_note in Hp4;
    clear_prompts;
    destruct i as [|[|[|[|i]]]]; cbn in Hi; try discriminate Hi;
    injection Hi as <- <-; (split; [lia|]); split; intros Hx;
    try discriminate Hx; assumption.
Qed.

(** What a request does to a store that holds a mapping: nothing, or one
    report put under its identifier. *)
Lemma index_store_cases data w d :
  stored_mapping w = Some d ->
  stored_mapping (snd (index POST data w)) = Some d \/
  exists rd,
    rd ∈ saved_reports (new_events w (snd (index POST data w))) /\
    stored_mapping (snd (index POST data w))
    = Some (<[report_id rd := report_value rd]> d).
Proof.
  intros Hd.
  destruct (index_post_run data w) as (resp & w' & Hidx & Hpost).
  rewrite Hidx. cbn [snd]. clear Hidx.
  destruct (post_run_store _ _ _ _ Hpost) as [_ Hnone].
  destruct (saved_reports (new_events w w')) as [|rd l] eqn:Hsaved.
  { left. by rewrite (stored_mapping_file w w' (Hnone eq_refl)). }
  assert (rd ∈ saved_reports (new_events w w')) as Hin
    by (rewrite Hsaved; apply list_elem_of_here).
  destruct (post_run_save _ _ _ _ _ Hpost Hin)
    as (w4 & Hfile4 & Hopen4 & Hd4 & Hw' & _).
  clear Hpost Hnone. rewrite <- Hsaved. clear Hsaved.
  pose proof (save_report_cases rd w4) as Hc. rewrite Hd4, Hd in Hc.
  destruct (open_error w4) as [e|] eqn:Hopen'.
  - left. destruct Hc as [e' Hc]. rewrite Hc in Hw'. cbn [snd] in Hw'.
    assert (file w' = file w) as Hfile by (by rewrite Hw').
    by rewrite (stored_mapping_file w w' Hfile).
  - right. exists rd. split; [exact Hin|].
    rewrite Hc in Hw'. cbn [snd] in Hw'. rewrite Hw'.
    unfold stored_mapping. world_simpl. by rewrite json_load_dump.
Qed.


(** X19. Every POST prints the input mapping before it does anything else,
    also when the request is then rejected. *)
Theorem input_is_printed_first data w :
  exists rest,
    new_events w (snd (index POST data w))
    = EPrint ("Input Data: " +:+ py_repr (VDict (build_input_data data))) :: rest.
Proof.
  destruct (index_post_run data w) as (resp & w' & Hidx & Hpost).
  rewrite Hidx. cbn [snd]. clear Hidx.
  destruct Hpost as
    [Hreq
    |p1 e g1 Hreq Hp1 Hg1
    |p1 t1 g1 p2 e g2 Hreq Hp1 Hg1 Hp2 Hg2
    |p1 t1 g1 p2 t2 g2 p3 e g3 Hreq Hp1 Hg1 Hp2 Hg2 Hp3 Hg3
    |p1 t1 g1 p2 t2 g2 p3 t3 g3 p4 e g4 Hreq Hp1 Hg1 Hp2 Hg2 Hp3 Hg3 Hp4 Hg4
    |p1 t1 g1 p2 t2 g2 p3 t3 g3 p4 t4 g4 Hreq Hp1 Hg1 Hp2 Hg2 Hp3 Hg3 Hp4 Hg4 rd w4];
    clear_prompts.
  1-5: eexists; apply new_events_app; run_simpl; rewrite <- ?app_assoc;
       reflexivity.
  destruct (save_report_new_events rd w w4
              [EPrint ("Input Data: " +:+ py_repr (VDict (build_input_data data)));
               EGenerate p1 (inr t1); EGenerate p2 (inr t2);
               EGenerate p3 (inr t3); EGenerate p4 (inr t4)])
    as [line Hev].
  { unfold w4. run_simpl. by rewrite <- ?app_assoc. }
  rewrite Hev. eexists. reflexivity.
Qed.

(** X20. The later prompts cannot be rendered from the input mapping as
    the form gives it: [format] raises [KeyError] on [portfolio_summary],
    which only line 197 puts there; once it is stored, whatever it is, both
    are rendered. The first and the fourth prompt do not use it. *)
Theorem later_prompts_need_the_summary data :
  format client_insights_prompt (build_input_data data)
  = inl (KeyError "portfolio_summary") /\
  format recommendations_prompt (build_input_data data)
  = inl (KeyError "portfolio_summary") /\
  (forall s, exists p2 p3,
     format client_insights_prompt (with_summary data s) = inr p2 /\
     format recommendations_prompt (with_summary data s) = inr p3) /\
  (exists p1, format (get_portfolio_summary_prompt (build_client_profile data))
                (build_input_data data) = inr p1) /\
  (forall region, exists p4,
     format (get_disclosures_prompt region) (build_input_data data) = inr p4).
Proof.
  split; [|split; [|split; [|split]]].
  - pose proof (format_scan_first_missing (build_input_data data) _ _ _
                  insights_prompt_fields) as Hm.
    cbn [first_missing] in Hm.
    by rewrite input_client_profile, input_no_summary in Hm.
  - pose proof (format_scan_first_missing (build_input_data data) _ _ _
                  recommendations_prompt_fields) as Hm.
    cbn [first_missing] in Hm.
    by rewrite input_client_profile, input_no_summary in Hm.
  - intros s. destruct (format_static_prompts data s) as [H2' H3'].
    eexists _, _. split; [exact H2'|exact H3'].
  - apply format_summary_ok.
  - intros region. eapply format_ok; [apply disclosures_prompt_fields|].
    repeat (apply Forall_cons; split; [apply input_keys; set_solver|]).
    by apply Forall_nil.
Qed.

End MoreRequest.

(** ** More on the input mapping and on the entries of the store *)

(** Find a name in the list of the fields. *)
Ltac in_fields :=
  unfold form_fields;
  repeat first [apply list_elem_of_here | apply list_elem_of_further].

Section MoreInput.
Context `{JsonLib} `{Builtins} `{Generator}.

Lemma report_value_id rd :
  exists entry,
    report_value rd = VDict entry /\
    entry !! "report_id" = Some (VStr (report_id rd)).
Proof. eexists. split; [reflexivity|]. by vm_compute. Qed.

(** X22. The store files every report under the identifier the report
    itself carries: when that holds of the mapping a request finds, it holds
    of the mapping it leaves. *)
Theorem store_entries_keep_their_identifier data w d :
  stored_mapping w = Some d -> filed_under_own_id d ->
  exists d',
    stored_mapping (snd (index POST data w)) = Some d' /\
    filed_under_own_id d'.
Proof.
  intros Hd Hinv.
  destruct (index_store_cases data w d Hd) as [Hsame|(rd & _ & Hnew)].
  - by exists d.
  - eexists. split; [exact Hnew|]. intros k v Hk.
    destruct (decide (k = report_id rd)) as [->|Hne].
    + rewrite lookup_insert_eq in Hk. injection Hk as <-. apply report_value_id.
    + rewrite lookup_insert_ne in Hk by done. by apply Hinv.
Qed.

Lemma form_field_unread (data : gmap string string) k v n :
  k ∉ form_fields -> n ∈ form_fields -> <[k := v]> data !! n = data !! n.
Proof. intros Hk Hn. apply lookup_insert_ne. by intros ->. Qed.

(** X23. The handler reads fifteen fields of the form and no other: a
    field of another name changes neither the input mapping nor anything
    the request does. *)
Theorem unread_form_fields_are_ignored data k v w :
  k ∉ form_fields ->
  build_client_profile (<[k := v]> data) = build_client_profile data /\
  build_input_data (<[k := v]> data) = build_input_data data /\
  index POST (<[k := v]> data) w = index POST data w.
Proof.
  intros Hk.
  assert (build_client_profile (<[k := v]> data) = build_client_profile data)
    as Hprofile.
  { unfold build_client_profile.
    by rewrite !(form_field_unread data k v _ Hk) by in_fields. }
  assert (build_input_data (<[k := v]> data) = build_input_data data) as Hinput.
  { unfold build_input_data. rewrite Hprofile.
    by rewrite !(form_field_unread data k v _ Hk) by in_fields. }
  split; [exact Hprofile|]. split; [exact Hinput|].
  unfold index, build_report. by rewrite Hprofile, Hinput.
Qed.

End MoreInput.

(** ** The theorems at work on the sample requests *)

#[local] Existing Instances plain_json plain_builtins scripted_generator.

Lemma save_then_load_witness :
  exists d entry,
    load_reports (snd (save_report sample_report (initial_world [] None)))
    = (inr (VDict d), snd (save_report sample_report (initial_world [] None))) /\
    d !! "r1" = Some (VDict entry) /\
    entry !! "portfolio_summary" = Some (VStr "S") /\
    entry !! "client_insights" = Some (VStr "I") /\
    entry !! "recommendations" = Some (VStr "R") /\
    entry !! "disclosures" = Some (VStr "D").
Proof.
  apply (save_then_load sample_report (initial_world [] None)).
  reflexivity.
Defined.


Lemma missing_field_witness :
  form_without_date_range !! "date_range" = None /\
  exists w',
    index POST form_without_date_range (initial_world [] None) =
    (inr {| report := Some (error_html (ValueError missing_fields_message));
            shown_report_id := None |}, w') /\
    build_report form_without_date_range (initial_world [] None)
    = (inl (ValueError missing_fields_message), w') /\
    (forall p r, EGenerate p r ∉ new_events (initial_world [] None) w') /\
    (forall rd, ESaveReport rd ∉ new_events (initial_world [] None) w') /\
    gen w' = gen (initial_world [] None) /\
    file w' = file (initial_world [] None).
Proof.
  split; [reflexivity|].
  apply (missing_field_fails_before_generation form_without_date_range
           (initial_world [] None)).
  right; right; reflexivity.
Defined.

Lemma generation_failure_witness :
  let w := initial_world failing_third_call (Some (VDict ∅)) in
  let e := OtherError "RuntimeError" "out of memory" in
  (exists p, EGenerate p (inl e) ∈ new_events w (snd (index POST sample_form w))) /\
  fst (index POST sample_form w)
  = inr {| report := Some (error_html e); shown_report_id := None |} /\
  build_report sample_form w = (inl e, snd (index POST sample_form w)) /\
  (forall rd, ESaveReport rd ∉ new_events w (snd (index POST sample_form w))) /\
  file (snd (index POST sample_form w)) = file w.
Proof.
  cbv zeta.
  assert (Hin : exists p,
            EGenerate p (inl (OtherError "RuntimeError" "out of memory"))
            ∈ new_events (initial_world failing_third_call (Some (VDict ∅)))
                (snd (index POST sample_form
                        (initial_world failing_third_call (Some (VDict ∅)))))).
  { eexists. vm_compute. do 3 apply list_elem_of_further. apply list_elem_of_here. }
  split; [exact Hin|]. destruct Hin as [p Hin].
  exact (generation_failure_saves_nothing sample_form
           (initial_world failing_third_call (Some (VDict ∅))) p _ Hin).
Defined.


Lemma saved_report_witness :
  let w := initial_world empty_summary_script None in
  let rd := scripted_report in
  exists p1 t1 p2 t2 p3 t3 p4 t4,
    generate_calls (new_events w (snd (index POST sample_form w)))
    = [(p1, inr t1); (p2, inr t2); (p3, inr t3); (p4, inr t4)] /\
    format (get_portfolio_summary_prompt (build_client_profile sample_form))
      (build_input_data sample_form) = inr p1 /\
    format client_insights_prompt (input_data rd) = inr p2 /\
    format recommendations_prompt (input_data rd) = inr p3 /\
    format (get_disclosures_prompt (VStr (default "US" (sample_form !! "region"))))
      (input_data rd) = inr p4 /\
    portfolio_summary rd = extract_portfolio_summary t1 /\
    client_insights rd = t2 /\ recommendations rd = t3 /\ disclosures rd = t4 /\
    report_id rd
    = generate_report_id (report_text (extract_portfolio_summary t1) t2 t3 t4) /\
    input_data rd
    = <["portfolio_summary" := VStr (extract_portfolio_summary t1)]>
        (build_input_data sample_form).
Proof.
  cbv zeta.
  apply (saved_report_is_built_from_the_calls sample_form
           (initial_world empty_summary_script None) scripted_report).
  vm_compute. apply list_elem_of_here.
Defined.

Lemma stored_report_witness :
  let w := initial_world empty_summary_script (Some (VDict ∅)) in
  let rd := scripted_report in
  fst (index POST sample_form w)
  = inr {| report := Some (report_html rd);
           shown_report_id := Some (report_id rd) |} /\
  stored_mapping (snd (index POST sample_form w))
  = Some (<[report_id rd := report_value rd]> ∅) /\
  fst (load_reports (snd (index POST sample_form w)))
  = inr (VDict (<[report_id rd := report_value rd]> ∅)).
Proof.
  cbv zeta.
  apply (stored_report_is_the_shown_one sample_form
           (initial_world empty_summary_script (Some (VDict ∅))) scripted_report ∅).
  - vm_compute. apply list_elem_of_here.
  - reflexivity.
  - reflexivity.
Defined.

Lemma save_failure_witness :
  let w := initial_world empty_summary_script (Some (VList [])) in
  let rd := scripted_report in
  exists e,
    fst (index POST sample_form w)
    = inr {| report := Some (error_html e);
             shown_report_id := Some (report_id rd) |} /\
    file (snd (index POST sample_form w)) = file w /\
    length (generate_calls (new_events w (snd (index POST sample_form w)))) = 4.
Proof.
  cbv zeta.
  apply (save_failure_shows_the_identifier sample_form
           (initial_world empty_summary_script (Some (VList []))) scripted_report).
  - vm_compute. apply list_elem_of_here.
  - left. reflexivity.
Defined.

Lemma answering_generator_witness :
  exists rd resp,
    fst (@index plain_json plain_builtins echo_generator POST sample_form echo_world)
    = inr resp /\
    shown_report_id resp = Some (report_id rd) /\
    saved_reports
      (new_events echo_world
         (snd (@index plain_json plain_builtins echo_generator POST sample_form
                 echo_world))) = [rd] /\
    length
      (generate_calls
         (new_events echo_world
            (snd (@index plain_json plain_builtins echo_generator POST sample_form
                    echo_world)))) = 4.
Proof.
  apply (@generator_that_answers_gives_a_report plain_json plain_builtins
           echo_generator sample_form echo_world).
  - reflexivity.
  - intros p g. exists p, tt. reflexivity.
Defined.

Lemma first_prompt_witness :
  let w := initial_world empty_summary_script None in
  let risk_tolerance := default "moderate" (sample_form !! "risk_tolerance") in
  let region := default "US" (sample_form !! "region") in
  let risk_note :=
    if String.eqb risk_tolerance "conservative" then risk_note_conservative
    else if String.eqb risk_tolerance "aggressive" then risk_note_aggressive
    else risk_note_moderate in
  let compliance_note :=
    if String.eqb region "US" then compliance_note_us
    else if String.eqb region "EU" then compliance_note_eu
    else compliance_note_generic in
  0 < 4 /\
  (0 = 0 -> contains risk_note sample_summary_prompt = true) /\
  (0 = 3 -> contains compliance_note sample_summary_prompt = true).
Proof.
  apply (prompts_follow_the_form sample_form
           (initial_world empty_summary_script None) 0 sample_summary_prompt
           (inr "Instructions: do X")).
  vm_compute. reflexivity.
Defined.

Lemma missing_summary_witness :
  exists fs,
    template_fields client_insights_prompt = Some fs /\
    match first_missing (build_input_data sample_form) fs with
    | Some n =>
        format client_insights_prompt (build_input_data sample_form)
        = inl (KeyError n) /\
        n ∈ input_variables client_insights_prompt /\
        build_input_data sample_form !! n = None
    | None =>
        (exists out,
           format client_insights_prompt (build_input_data sample_form) = inr out) /\
        Forall (fun n => is_Some (build_input_data sample_form !! n))
          (input_variables client_insights_prompt)
    end.
Proof.
  apply (format_raises_on_first_missing_field client_insights_prompt
           (build_input_data sample_form)).
  right. left. reflexivity.
Defined.

Lemma same_id_witness :
  let w := initial_world [] None in
  fst (save_report revised_report (snd (save_report sample_report w))) = inr tt /\
  stored_mapping (snd (save_report revised_report (snd (save_report sample_report w))))
  = Some (<[report_id revised_report := report_value revised_report]> ∅) /\
  stored_mapping (snd (save_report revised_report (snd (save_report sample_report w))))
  = stored_mapping (snd (save_report revised_report w)).
Proof.
  apply (save_report_same_id_replaces sample_report revised_report
           (initial_world [] None) ∅); reflexivity.
Defined.

Lemma two_reports_witness :
  let w := initial_world [] None in
  exists d',
    stored_mapping (snd (save_report other_report (snd (save_report sample_report w))))
    = Some d' /\
    stored_mapping (snd (save_report sample_report (snd (save_report other_report w))))
    = Some d' /\
    d' !! report_id sample_report = Some (report_value sample_report) /\
    d' !! report_id other_report = Some (report_value other_report) /\
    forall k, k <> report_id sample_report -> k <> report_id other_report ->
      d' !! k = (∅ : pydict) !! k.
Proof.
  apply (save_report_order_does_not_matter sample_report other_report
           (initial_world [] None) ∅); [reflexivity|reflexivity|].
  vm_compute. intros Heq. discriminate Heq.
Defined.

Lemma own_identifier_witness :
  let w := initial_world empty_summary_script None in
  exists d',
    stored_mapping (snd (index POST sample_form w)) = Some d' /\
    filed_under_own_id d'.
Proof.
  apply (store_entries_keep_their_identifier sample_form
           (initial_world empty_summary_script None) ∅).
  - reflexivity.
  - intros k v Hk. rewrite lookup_empty in Hk. discriminate Hk.
Defined.

Lemma unread_field_witness :
  let w := initial_world empty_summary_script None in
  build_client_profile (<["csrf_token" := "x"]> sample_form)
  = build_client_profile sample_form /\
  build_input_data (<["csrf_token" := "x"]> sample_form)
  = build_input_data sample_form /\
  index POST (<["csrf_token" := "x"]> sample_form) w = index POST sample_form w.
Proof.
  apply (unread_form_fields_are_ignored sample_form "csrf_token" "x"
           (initial_world empty_summary_script None)).
  intros Hin. unfold form_fields in Hin.
  repeat (apply elem_of_cons in Hin as [Hin|Hin]; [discriminate Hin|]).
  by apply elem_of_nil in Hin.
Defined.


(** ** Where the rendered prompts hold two of the sentences *)

(** A form that asks for "aggressive" and names its portfolio by the
    conservative sentence: the first prompt the handler sends holds the
    aggressive sentence and the conservative one. *)
Lemma rendered_summary_prompt_two_sentences :
  build_client_profile form_quoting_sentences !! "risk_tolerance"
  = Some (VStr "aggressive") /\
  exists out r,
    format (get_portfolio_summary_prompt (build_client_profile form_quoting_sentences))
      (build_input_data form_quoting_sentences) = inr out /\
    generate_calls
      (new_events (initial_world empty_summary_script None)
         (snd (index POST form_quoting_sentences
                 (initial_world empty_summary_script None)))) !! 0
    = Some (out, r) /\
    contains risk_note_aggressive out = true /\
    contains risk_note_conservative out = true.
Proof.
  split; [by vm_compute|]. eexists _, _.
  split; [vm_compute; reflexivity|].
  split; [vm_compute; reflexivity|]. by vm_compute.
Qed.

(** The same form asks for "EU" and gives the SEC sentence as its
    products: the fourth prompt the handler sends holds the MiFID II
    sentence and the SEC one. *)
Lemma rendered_disclosures_prompt_two_sentences :
  build_input_data form_quoting_sentences !! "region" = Some (VStr "EU") /\
  exists out r,
    format (get_disclosures_prompt (VStr "EU"))
      (with_summary form_quoting_sentences "") = inr out /\
    generate_calls
      (new_events (initial_world empty_summary_script None)
         (snd (index POST form_quoting_sentences
                 (initial_world empty_summary_script None)))) !! 3
    = Some (out, r) /\
    contains compliance_note_eu out = true /\
    contains compliance_note_us out = true.
Proof.
  split; [by vm_compute|]. eexists _, _.
  split; [vm_compute; reflexivity|].
  split; [vm_compute; reflexivity|]. by vm_compute.
Qed.
